(** * Protocol client: session router, targets and generated commands

    A shallow embedding of the protocol dispatch layer of
    [front_end/models/trace/sdk_services/LayoutShifts.ts] (the
    [InspectorBackend] part of that file): [SessionRouter], the
    [TargetBase] constructor and the promise-returning commands of
    [_AgentPrototype]; then the registry of [InspectorBackend], the agents
    and the listeners of a target, [_invoke] and [dispose]; and, from the
    head of the file, [normalizedImpactedNodesForLayoutShift].

    Conventions of the embedding.
    - JavaScript [Map]s keep insertion order, and the code iterates over
      them; they are association lists with the [Map] operations ([JSMap]).
      The long-polling ids, a [Set] of which only [add], [delete] and [size]
      are used, are a [gset].
    - Values follow their TypeScript types: a field [f?: T | null] is an
      [Optional], an object is the list of its properties, a value of type
      [any] is a [JSValue].  Numbers that hold integers (message ids,
      counters) are [Z]: they are the doubles of the source as long as they
      do not pass [maxExactInteger].  Functions, symbols and big integers are
      not among the [JSValue]s.
    - The object that [_prepareParameters] fills is the list of its
      properties in the order of the assignments.  That is the object of the
      source when the names assigned are [ordinaryName]s: an object lists
      names that are array indices first, and an assignment to [__proto__]
      makes no property.
    - A message is modelled as the object [JSON.parse] gives for it.
    - Callbacks, scripts, connections and targets are JavaScript objects with
      an identity.  Calling a callback is recorded in the [trace] of the
      [World] together with its arguments; callbacks do not call back into
      the router synchronously (the ones this file creates only settle a
      promise).  A script queued on the drain barrier is a function whose
      body calls the public methods of the router ([Call]).
    - [setTimeout(f, 0)] appends a [Task] to the macrotask queue [timers];
      [tick] runs the oldest task.
    - [console.error] and [reportProtocolError] are recorded in the trace.
    - Exceptions thrown by callbacks and scripts are not modelled; the ones
      the code of this file throws are results.  [JSON.stringify] writes
      every [JSValue]; it throws on an [Unserializable] argument of a
      command, which rejects the promise of the command, and calling a
      property of a listener that is not a function throws a [TypeError].
    - The test hooks ([test.dumpProtocol], [test.onMessageSent],
      [test.onMessageReceived]) are unset, as they are outside tests.
    - [NodeURL.patch] is defined in another file and is a parameter. *)

From stdpp Require Import gmap strings list pretty.
From Stdlib Require Import ZArith Lia Sorted.

Set Warnings "-register-all".

(** ** Insertion-ordered maps *)

Module JSMap.
Section ops.
Context {K V : Type} `{EqDecision K}.

Definition t := list (K * V).

Fixpoint get (k : K) (m : list (K * V)) : option V :=
  match m with
  | [] => None
  | (k', v) :: m' => if decide (k = k') then Some v else get k m'
  end.

(** [Map.prototype.set]: an existing key keeps its position. *)
Fixpoint set (k : K) (v : V) (m : list (K * V)) : list (K * V) :=
  match m with
  | [] => [(k, v)]
  | (k', v') :: m' =>
      if decide (k = k') then (k, v) :: m' else (k', v') :: set k v m'
  end.

Fixpoint delete (k : K) (m : list (K * V)) : list (K * V) :=
  match m with
  | [] => []
  | (k', v') :: m' =>
      if decide (k = k') then delete k m' else (k', v') :: delete k m'
  end.

Definition keys (m : list (K * V)) : list K := map fst m.
Definition values (m : list (K * V)) : list V := map snd m.
End ops.
End JSMap.

(** ** JavaScript values *)

Inductive JSValue : Type :=
| JSUndefined
| JSNull
| JSBoolean (b : bool)
| JSNumber (n : Z)
| JSString (s : string)
| JSObject (props : list (string * JSValue)).

(** A plain object: its own properties, in insertion order. *)
Definition Obj : Type := list (string * JSValue).

Definition typeof (v : JSValue) : string :=
  match v with
  | JSUndefined => "undefined"
  | JSNull => "object"
  | JSBoolean _ => "boolean"
  | JSNumber _ => "number"
  | JSString _ => "string"
  | JSObject _ => "object"
  end.

(** [o[k]] on an object: a missing property reads as [undefined]. *)
Definition getProperty (o : Obj) (k : string) : JSValue :=
  default JSUndefined (JSMap.get k o).

(** A field declared [f?: T | null]. *)
Inductive Optional (A : Type) : Type :=
| Missing
| IsNull
| Present (a : A).
Arguments Missing {A}.
Arguments IsNull {A}.
Arguments Present {A} a.

(** [x || null] for [x : T | null | undefined] with [T] an object type. *)
Definition or_null {A : Type} (x : Optional A) : option A :=
  match x with
  | Present a => Some a
  | _ => None
  end.

(** ** Constants *)

Definition DevToolsStubErrorCode : Z := (-32015)%Z.
Definition GenericError : Z := (-32000)%Z.
Definition ConnectionClosedErrorCode : Z := (-32001)%Z.

Definition LongPollingMethods : gset string :=
  {[ "CSS.takeComputedStyleUpdates" ]}.

(** ** Messages *)

(** [type Message]. *)
Record Message : Type := {
  msg_sessionId : option string;
  msg_url : option string;
  msg_id : option Z;
  msg_error : Optional Obj;
  msg_result : Optional Obj;
  msg_method : option string;
  msg_params : Optional Obj;
}.

(** The envelope built by [sendMessage]: [params] and [sessionId] are set
    only when truthy. *)
Record OutMessage : Type := {
  out_id : Z;
  out_method : string;
  out_params : option Obj;
  out_sessionId : option string;
}.

(** ** Objects with an identity *)

(** [class Connection]: [_onMessage] is the handler a proxy installs. *)
Record Connection : Type := {
  conn_id : nat;
  _onMessage : option nat;
}.

(** The fields of [TargetBase] the router and the commands read;
    [_router] is the index of the target's router, [None] once disposed. *)
Record TargetBase : Type := {
  target_id : nat;
  _needsNodeJSPatching : bool;
  _sessionId : string;
  _router : option nat;
}.

(** [type Callback]: the closure made by [_sendMessageToBackendPromise] for
    a promise and a method, or any other function. *)
Inductive Callback : Type :=
| PromiseCallback (promise : nat) (method : string)
| ClientCallback (id : nat).

#[global] Instance Callback_eq_dec : EqDecision Callback.
Proof. solve_decision. Defined.

(** [interface CallbackWithDebugInfo]. *)
Record CallbackWithDebugInfo : Type := {
  callback : Callback;
  method : string;
}.

(** A value of [_sessions]. *)
Record Session : Type := {
  target : TargetBase;
  callbacks : list (Z * CallbackWithDebugInfo);
  proxyConnection : option Connection;
}.

(** What client code does with a router; a script queued on the drain
    barrier is a function with an identity whose body makes such calls. *)
Inductive Call : Type :=
| CallRegisterSession (t : TargetBase) (sessionId : string)
    (proxy : option Connection)
| CallUnregisterSession (sessionId : string)
| CallSendMessage (sessionId domain method : string) (params : option Obj)
    (cb : Callback)
| CallRunAfterPendingDispatches (script : option Script)
with Script : Type :=
| MkScript (script_id : nat) (script_body : list Call).

Definition script_id (s : Script) : nat :=
  match s with MkScript i _ => i end.
Definition script_body (s : Script) : list Call :=
  match s with MkScript _ b => b end.

(** ** The router and its world *)

Record SessionRouter : Type := {
  _connection : Connection;
  _lastMessageId : Z;
  _pendingResponsesCount : Z;
  _pendingLongPollingMessageIds : gset Z;
  _sessions : list (string * Session);
  _pendingScripts : list Script;
}.

(** A macrotask scheduled with [setTimeout(..., 0)]. *)
Inductive Task : Type :=
| TaskRunAfterPendingDispatches
    (* the closure of [_deprecatedRunAfterPendingDispatches] *)
| TaskCallback (cb : Callback) (error : Obj)
    (* [() => callback(error, null)] *).

Inductive Event : Type :=
| EvCallback (cb : Callback) (error result : option Obj)
| EvSendRawMessage (m : OutMessage)
| EvProxyMessage (c : Connection) (m : Message)
| EvProtocolError (text : string) (m : Message)
| EvConsoleError (text : string)
| EvDispatch (t : TargetBase) (m : Message)
| EvScript (id : nat).

Record World : Type := {
  router : SessionRouter;
  timers : list Task;
  trace : list Event;
}.

Definition with_router (f : SessionRouter -> SessionRouter) (w : World) : World :=
  {| router := f (router w); timers := timers w; trace := trace w |}.

Definition emit (e : Event) (w : World) : World :=
  {| router := router w; timers := timers w; trace := trace w ++ [e] |}.

Definition setTimeout (t : Task) (w : World) : World :=
  {| router := router w; timers := timers w ++ [t]; trace := trace w |}.

Definition set_sessions (ss : list (string * Session)) (r : SessionRouter)
  : SessionRouter :=
  {| _connection := _connection r;
     _lastMessageId := _lastMessageId r;
     _pendingResponsesCount := _pendingResponsesCount r;
     _pendingLongPollingMessageIds := _pendingLongPollingMessageIds r;
     _sessions := ss;
     _pendingScripts := _pendingScripts r |}.

Definition set_pendingScripts (ps : list Script) (r : SessionRouter)
  : SessionRouter :=
  {| _connection := _connection r;
     _lastMessageId := _lastMessageId r;
     _pendingResponsesCount := _pendingResponsesCount r;
     _pendingLongPollingMessageIds := _pendingLongPollingMessageIds r;
     _sessions := _sessions r;
     _pendingScripts := ps |}.

Definition set_counters (last count : Z) (lp : gset Z) (r : SessionRouter)
  : SessionRouter :=
  {| _connection := _connection r;
     _lastMessageId := last;
     _pendingResponsesCount := count;
     _pendingLongPollingMessageIds := lp;
     _sessions := _sessions r;
     _pendingScripts := _pendingScripts r |}.

(** [new SessionRouter(connection)]. *)
Definition newSessionRouter (connection : Connection) : SessionRouter :=
  {| _connection := connection;
     _lastMessageId := 1;
     _pendingResponsesCount := 0;
     _pendingLongPollingMessageIds := ∅;
     _sessions := [];
     _pendingScripts := [] |}.

Definition newWorld (connection : Connection) : World :=
  {| router := newSessionRouter connection; timers := []; trace := [] |}.

(** ** [SessionRouter] *)

Definition hasProxy (s : Session) : bool :=
  match proxyConnection s with Some _ => true | None => false end.

(** [registerSession(target, sessionId, proxyConnection)]. *)
Definition registerSession (t : TargetBase) (sessionId : string)
    (proxy : option Connection) (w : World) : World :=
  let w1 :=
    match proxy with
    | Some _ =>
        if existsb hasProxy (JSMap.values (_sessions (router w)))
        then emit (EvConsoleError
               "Multiple simultaneous proxy connections are currently unsupported") w
        else w
    | None => w
    end in
  with_router
    (fun r => set_sessions
       (JSMap.set sessionId
          {| target := t; callbacks := []; proxyConnection := proxy |}
          (_sessions r)) r) w1.

Definition connectionClosedError (message : string) : Obj :=
  [("message", JSString message);
   ("code", JSNumber ConnectionClosedErrorCode);
   ("data", JSNull)].

(** [static dispatchConnectionError(callback, method)]. *)
Definition dispatchConnectionError (cb : Callback) (method : string)
    (w : World) : World :=
  setTimeout
    (TaskCallback cb
       (connectionClosedError
          ("Connection is closed, can't dispatch pending call to " ++ method)))
    w.

(** [static dispatchUnregisterSessionError({callback, method})]. *)
Definition dispatchUnregisterSessionError (c : CallbackWithDebugInfo)
    (w : World) : World :=
  setTimeout
    (TaskCallback (callback c)
       (connectionClosedError
          ("Session is unregistering, can't dispatch pending call to "
             ++ method c)))
    w.

(** [unregisterSession(sessionId)]. *)
Definition unregisterSession (sessionId : string) (w : World) : World :=
  match JSMap.get sessionId (_sessions (router w)) with
  | None => w
  | Some session =>
      let w1 :=
        fold_left (fun w c => dispatchUnregisterSessionError c w)
          (JSMap.values (callbacks session)) w in
      with_router
        (fun r => set_sessions (JSMap.delete sessionId (_sessions r)) r) w1
  end.

(** [sendMessage(sessionId, domain, method, params, callback)]. *)
Definition sendMessage (sessionId domain method : string)
    (params : option Obj) (cb : Callback) (w : World) : World :=
  let r := router w in
  let messageId := _lastMessageId r in
  let messageObject :=
    {| out_id := messageId;
       out_method := method;
       out_params := params;
       out_sessionId :=
         if decide (sessionId = "") then None else Some sessionId |} in
  let lp :=
    if bool_decide (method ∈ LongPollingMethods)
    then _pendingLongPollingMessageIds r ∪ {[ messageId ]}
    else _pendingLongPollingMessageIds r in
  let w1 :=
    with_router
      (set_counters (messageId + 1) (_pendingResponsesCount r + 1) lp) w in
  match JSMap.get sessionId (_sessions r) with
  | None => w1
  | Some session =>
      let session' :=
        {| target := target session;
           callbacks :=
             JSMap.set messageId {| callback := cb; method := method |}
               (callbacks session);
           proxyConnection := proxyConnection session |} in
      emit (EvSendRawMessage messageObject)
        (with_router
           (fun r => set_sessions (JSMap.set sessionId session' (_sessions r)) r)
           w1)
  end.

(** [_hasOutstandingNonLongPollingRequests()]. *)
Definition _hasOutstandingNonLongPollingRequests (r : SessionRouter) : bool :=
  bool_decide
    (0 < _pendingResponsesCount r
         - Z.of_nat (size (_pendingLongPollingMessageIds r)))%Z.

(** [_deprecatedRunAfterPendingDispatches(script?)]. *)
Definition _deprecatedRunAfterPendingDispatches (script : option Script)
    (w : World) : World :=
  let w1 :=
    match script with
    | Some s =>
        with_router
          (fun r => set_pendingScripts (_pendingScripts r ++ [s]) r) w
    | None => w
    end in
  setTimeout TaskRunAfterPendingDispatches w1.

Definition run_call (c : Call) (w : World) : World :=
  match c with
  | CallRegisterSession t sessionId proxy => registerSession t sessionId proxy w
  | CallUnregisterSession sessionId => unregisterSession sessionId w
  | CallSendMessage sessionId domain method params cb =>
      sendMessage sessionId domain method params cb w
  | CallRunAfterPendingDispatches script =>
      _deprecatedRunAfterPendingDispatches script w
  end.

(** Calling a queued script: [scripts[id]()]. *)
Definition run_script (s : Script) (w : World) : World :=
  fold_left (fun w c => run_call c w) (script_body s)
    (emit (EvScript (script_id s)) w).

(** [_executeAfterPendingDispatches()]. *)
Definition _executeAfterPendingDispatches (w : World) : World :=
  if negb (_hasOutstandingNonLongPollingRequests (router w)) then
    let scripts := _pendingScripts (router w) in
    let w1 := with_router (set_pendingScripts []) w in
    fold_left (fun w s => run_script s w) scripts w1
  else w.

(** The proxy loop at the head of [_onMessage]; the boolean is
    [suppressUnknownMessageErrors]. *)
Fixpoint forwardToProxies (messageObject : Message) (sessions : list Session)
    (suppress : bool) (w : World) : bool * World :=
  match sessions with
  | [] => (suppress, w)
  | session :: rest =>
      match proxyConnection session with
      | None => forwardToProxies messageObject rest suppress w
      | Some c =>
          match _onMessage c with
          | None =>
              forwardToProxies messageObject rest suppress
                (emit (EvProtocolError
                   "Protocol Error: the session has a proxyConnection with no _onMessage"
                   messageObject) w)
          | Some _ =>
              forwardToProxies messageObject rest true
                (emit (EvProxyMessage c messageObject) w)
          end
      end
  end.

Section OnMessage.
(** [NodeURL.patch] is defined in [NodeURL.js]; it rewrites, in place, the
    message received for a target that needs it. *)
Variable NodeURL_patch : Message -> Message.

(** [SessionRouter._onMessage(message)], on the parsed message; it is
    [onMessage] here, [_onMessage] being the field of [Connection]. *)
Definition onMessage (messageObject : Message) (w : World) : World :=
  let '(suppressUnknownMessageErrors, w1) :=
    forwardToProxies messageObject (JSMap.values (_sessions (router w)))
      false w in
  let sessionId := default "" (msg_sessionId messageObject) in
  match JSMap.get sessionId (_sessions (router w1)) with
  | None =>
      if suppressUnknownMessageErrors then w1
      else emit (EvProtocolError
             "Protocol Error: the message with wrong session id"
             messageObject) w1
  | Some session =>
      match proxyConnection session with
      | Some _ => w1
      | None =>
          let messageObject :=
            if _needsNodeJSPatching (target session)
            then NodeURL_patch messageObject else messageObject in
          match msg_id messageObject with
          | Some id =>
              let cb := JSMap.get id (callbacks session) in
              let session' :=
                {| target := target session;
                   callbacks := JSMap.delete id (callbacks session);
                   proxyConnection := proxyConnection session |} in
              let w2 :=
                with_router
                  (fun r => set_sessions
                     (JSMap.set sessionId session' (_sessions r)) r) w1 in
              match cb with
              | None =>
                  if suppressUnknownMessageErrors then w2
                  else emit (EvProtocolError
                         "Protocol Error: the message with wrong id"
                         messageObject) w2
              | Some c =>
                  let w3 :=
                    emit (EvCallback (callback c)
                            (or_null (msg_error messageObject))
                            (or_null (msg_result messageObject))) w2 in
                  let w4 :=
                    with_router
                      (fun r => set_counters (_lastMessageId r)
                         (_pendingResponsesCount r - 1)
                         (_pendingLongPollingMessageIds r ∖ {[ id ]}) r)
                      w3 in
                  if negb (bool_decide (_pendingScripts (router w4) = []))
                     && negb (_hasOutstandingNonLongPollingRequests (router w4))
                  then _deprecatedRunAfterPendingDispatches None w4
                  else w4
              end
          | None =>
              match msg_method messageObject with
              | None =>
                  emit (EvProtocolError
                    "Protocol Error: the message without method"
                    messageObject) w1
              | Some _ => emit (EvDispatch (target session) messageObject) w1
              end
          end
      end
  end.

(** The timer callbacks. *)
Definition run_task (t : Task) (w : World) : World :=
  match t with
  | TaskRunAfterPendingDispatches =>
      if negb (_hasOutstandingNonLongPollingRequests (router w))
      then _executeAfterPendingDispatches w
      else _deprecatedRunAfterPendingDispatches None w
  | TaskCallback cb error => emit (EvCallback cb (Some error) None) w
  end.

(** One turn of the event loop: the oldest timer fires. *)
Definition tick (w : World) : World :=
  match timers w with
  | [] => w
  | t :: ts =>
      run_task t {| router := router w; timers := ts; trace := trace w |}
  end.

(** What can happen to a router: client code calls it, the transport
    delivers a message, a timer fires. *)
Inductive Input : Type :=
| InCall (c : Call)
| InMessage (m : Message)
| InTick.

Definition step (i : Input) (w : World) : World :=
  match i with
  | InCall c => run_call c w
  | InMessage m => onMessage m w
  | InTick => tick w
  end.

Definition run (inputs : list Input) (w : World) : World :=
  fold_left (fun w i => step i w) inputs w.

(** The worlds a freshly constructed router can get into. *)
Definition Reachable (w : World) : Prop :=
  exists connection inputs, w = run inputs (newWorld connection).
End OnMessage.

(** * Generated commands *)

(** [interface CommandParameter]. *)
Record CommandParameter : Type := {
  name : string;
  type : string;
  optional : bool;
}.

(** ** [JSON.stringify] of a parameter list *)

Definition doubleQuote : string := String (Ascii.ascii_of_nat 34) EmptyString.

Definition hexDigit (n : nat) : string :=
  String (Ascii.ascii_of_nat (if decide (n < 10) then 48 + n else 87 + n))
    EmptyString.

(** One character inside a JSON string. *)
Definition JSON_escape_char (c : Ascii.ascii) : string :=
  let n := Ascii.nat_of_ascii c in
  if decide (n = 34) then "\" ++ doubleQuote
  else if decide (n = 92) then "\\"
  else if decide (n = 8) then "\b"
  else if decide (n = 9) then "\t"
  else if decide (n = 10) then "\n"
  else if decide (n = 12) then "\f"
  else if decide (n = 13) then "\r"
  else if decide (n < 32) then "\u00" ++ hexDigit (n / 16) ++ hexDigit (n mod 16)
  else String c EmptyString.

Fixpoint JSON_escape (s : string) : string :=
  match s with
  | EmptyString => EmptyString
  | String c s' => JSON_escape_char c ++ JSON_escape s'
  end.

Definition JSON_string (s : string) : string :=
  doubleQuote ++ JSON_escape s ++ doubleQuote.

Definition JSON_parameter (p : CommandParameter) : string :=
  "{" ++ JSON_string "name" ++ ":" ++ JSON_string (name p) ++ ","
      ++ JSON_string "type" ++ ":" ++ JSON_string (type p) ++ ","
      ++ JSON_string "optional" ++ ":"
      ++ (if optional p then "true" else "false") ++ "}".

Fixpoint JSON_join (items : list string) : string :=
  match items with
  | [] => EmptyString
  | [x] => x
  | x :: rest => x ++ "," ++ JSON_join rest
  end.

(** [JSON.stringify(parameters)]. *)
Definition JSON_parameters (parameters : list CommandParameter) : string :=
  "[" ++ JSON_join (map JSON_parameter parameters) ++ "]".

(** ** Arguments *)

(** What a caller passes to a generated command: a value, or an object that
    [JSON.stringify] throws on, for instance one that contains itself. *)
Inductive Argument : Type :=
| Plain (v : JSValue)
| Unserializable.

Definition typeofArgument (value : Argument) : string :=
  match value with
  | Plain v => typeof v
  | Unserializable => "object"
  end.

(** The object that [_prepareParameters] builds: its properties are
    arguments. *)
Definition Params : Type := list (string * Argument).

(** The object as [JSON.stringify] can write it; [None] when it throws. *)
Fixpoint plainProperties (params : Params) : option Obj :=
  match params with
  | [] => Some []
  | (k, Plain v) :: rest => (fun o => (k, v) :: o) <$> plainProperties rest
  | (_, Unserializable) :: _ => None
  end.

(** ** [_prepareParameters] *)

Definition invalidNumberOfArguments (method : string)
    (parameters : list CommandParameter) : string :=
  "Protocol Error: Invalid number of arguments for method '" ++ method
    ++ "' call. It must have the following arguments "
    ++ JSON_parameters parameters ++ "'.".

Definition invalidTypeOfArgument (method paramName typeName : string)
    (value : Argument) : string :=
  "Protocol Error: Invalid type of argument '" ++ paramName
    ++ "' for method '" ++ method ++ "' call. It must be '" ++ typeName
    ++ "' but it is '" ++ typeofArgument value ++ "'.".

Definition extraArguments (method : string) (args : list Argument) : string :=
  "Protocol Error: Extra " ++ pretty (length args)
    ++ " arguments in a call to method '" ++ method ++ "'.".

(** The loop over [parameters], from the parameters still to do; the result
    is the list of the messages given to [errorCallback] and the value
    returned. *)
Fixpoint prepareParametersFrom (method : string)
    (parameters todo : list CommandParameter) (args : list Argument)
    (params : Params) (hasParams : bool) : list string * option Params :=
  match todo with
  | [] =>
      if bool_decide (args <> [])
      then ([extraArguments method args], None)
      else ([], if hasParams then Some params else None)
  | param :: todo' =>
      let paramName := name param in
      let typeName := type param in
      let optionalFlag := optional param in
      if bool_decide (args = []) && negb optionalFlag
      then ([invalidNumberOfArguments method parameters], None)
      else
        (* const value = args.shift(); *)
        let value := hd (Plain JSUndefined) args in
        let args := tl args in
        if optionalFlag && bool_decide (typeofArgument value = "undefined")
        then prepareParametersFrom method parameters todo' args params hasParams
        else if bool_decide (typeofArgument value <> typeName)
        then ([invalidTypeOfArgument method paramName typeName value], None)
        else prepareParametersFrom method parameters todo' args
               (JSMap.set paramName value params) true
  end.

(** [_prepareParameters(method, parameters, args, errorCallback)]. *)
Definition _prepareParameters (method : string)
    (parameters : list CommandParameter) (args : list Argument)
  : list string * option Params :=
  prepareParametersFrom method parameters parameters args [] false.

(** ** [_AgentPrototype] *)

(** [qualifyName(domain, name)]. *)
Definition qualifyName (domain name : string) : string :=
  domain ++ "." ++ name.

(** A function that [registerCommand] puts on an agent: the closure
    [sendMessagePromise], with the qualified method name and the parameters
    it holds, or the closure [invoke], with the qualified method name. *)
Inductive AgentMember : Type :=
| SendMessagePromise (domainAndMethod : string)
    (parameters : list CommandParameter)
| Invoke (domainAndMethod : string).

(** An agent: [_replyArgs], [_domain], [_target], and the properties that
    [registerCommand] has put on it with [this[methodName] = ...] and
    [this['invoke_' + methodName] = ...], by name.  The fields and the
    methods that the code reads from the same object are kept apart from
    these properties: the names in [reservedNames] are taken not to be names
    of commands. *)
Record AgentPrototype : Type := {
  _replyArgs : list (string * list string);
  _domain : string;
  _target : TargetBase;
  commands : list (string * AgentMember);
}.

(** The properties of an agent that its code reads or calls through [this],
    and [__proto__]: a command of such a name would replace them. *)
Definition reservedNames : list string :=
  ["_replyArgs"; "_domain"; "_target"; "registerCommand";
   "_prepareParameters"; "_invoke"; "__proto__"].

(** [new _AgentPrototype(domain)], with the target an agent gets from
    [Object.create] in the [TargetBase] constructor. *)
Definition newAgentPrototype (domain : string) (t : TargetBase)
  : AgentPrototype :=
  {| _replyArgs := []; _domain := domain; _target := t; commands := [] |}.

(** [registerCommand(methodName, parameters, replyArgs)]. *)
Definition registerCommand (methodName : string)
    (parameters : list CommandParameter) (replyArgs : list string)
    (a : AgentPrototype) : AgentPrototype :=
  let domainAndMethod := qualifyName (_domain a) methodName in
  {| _replyArgs := JSMap.set domainAndMethod replyArgs (_replyArgs a);
     _domain := _domain a;
     _target := _target a;
     commands :=
       JSMap.set ("invoke_" ++ methodName)%string (Invoke domainAndMethod)
         (JSMap.set methodName (SendMessagePromise domainAndMethod parameters)
            (commands a)) |}.

(** What has become of a promise when the call that made it returns. *)
Inductive PromiseState : Type :=
| PromiseResolved (value : JSValue)
| PromiseRejected (reason : JSValue)
| PromisePending (cb : Callback).

(** What a call of the callback does to its promise. *)
Inductive CallbackOutcome : Type :=
| Resolves (value : JSValue)
| Rejects (reason : JSValue)
| ThrowsTypeError.

(** [if (errorMessage)]: a message was stored and is not the empty string. *)
Definition errorMessageSet (errors : list string) : bool :=
  match last errors with
  | Some message => bool_decide (message <> "")
  | None => false
  end.

(** [params] as [sendMessage] gets it and [JSON.stringify] can write it;
    [None] when [JSON.stringify(messageObject)] throws. *)
Definition serialized (params : option Params) : option (option Obj) :=
  match params with
  | None => Some None
  | Some o => Some <$> plainProperties o
  end.

(** The [TypeError] that [JSON.stringify] throws.  What it says depends on
    the engine; its properties are not modelled. *)
Definition stringifyError : JSValue := JSObject [].

(** [sendMessage(sessionId, domain, method, params, callback)] for [params]
    that [JSON.stringify] throws on: the statements of [sendMessage] up to
    [sendRawMessage(JSON.stringify(messageObject))], its last one, which
    throws.  The boolean tells whether it was reached: for a session that is
    not registered [sendMessage] returns before. *)
Definition sendMessage_throwing (sessionId domain method : string)
    (cb : Callback) (w : World) : World * bool :=
  let r := router w in
  let messageId := _lastMessageId r in
  let lp :=
    if bool_decide (method ∈ LongPollingMethods)
    then _pendingLongPollingMessageIds r ∪ {[ messageId ]}
    else _pendingLongPollingMessageIds r in
  let w1 :=
    with_router
      (set_counters (messageId + 1) (_pendingResponsesCount r + 1) lp) w in
  match JSMap.get sessionId (_sessions r) with
  | None => (w1, false)
  | Some session =>
      let session' :=
        {| target := target session;
           callbacks :=
             JSMap.set messageId {| callback := cb; method := method |}
               (callbacks session);
           proxyConnection := proxyConnection session |} in
      (with_router
         (fun r => set_sessions (JSMap.set sessionId session' (_sessions r)) r)
         w1,
       true)
  end.

(** [_sendMessageToBackendPromise(method, parameters, args)], in the world of
    the router of the agent's target; [promise] names the promise made.  An
    exception in the executor of the promise rejects it. *)
Definition _sendMessageToBackendPromise (a : AgentPrototype) (method : string)
    (parameters : list CommandParameter) (args : list Argument) (promise : nat)
    (w : World) : World * PromiseState :=
  let '(errors, params) := _prepareParameters method parameters args in
  let w1 := fold_left (fun w message => emit (EvConsoleError message) w) errors w in
  if errorMessageSet errors then (w1, PromiseResolved JSNull)
  else
    let cb := PromiseCallback promise method in
    match _router (_target a) with
    | None => (dispatchConnectionError cb method w1, PromisePending cb)
    | Some _ =>
        match serialized params with
        | Some params =>
            (sendMessage (_sessionId (_target a)) (_domain a) method params cb
               w1,
             PromisePending cb)
        | None =>
            let '(w2, threw) :=
              sendMessage_throwing (_sessionId (_target a)) (_domain a) method
                cb w1 in
            (w2,
             if threw then PromiseRejected stringifyError
             else PromisePending cb)
        end
    end.

(** Calling the promise form of the command [methodName] of the agent:
    [agent[methodName](...args)]; [None] when the property is not a closure
    [sendMessagePromise]. *)
Definition callCommand (a : AgentPrototype) (methodName : string)
    (args : list Argument) (promise : nat) (w : World)
  : option (World * PromiseState) :=
  match JSMap.get methodName (commands a) with
  | Some (SendMessagePromise domainAndMethod parameters) =>
      Some (_sendMessageToBackendPromise a domainAndMethod parameters args
              promise w)
  | _ => None
  end.

(** The error codes that are not logged. *)
Definition quietErrorCode (error : Obj) : bool :=
  match getProperty error "code" with
  | JSNumber code =>
      bool_decide (code = DevToolsStubErrorCode)
      || bool_decide (code = GenericError)
      || bool_decide (code = ConnectionClosedErrorCode)
  | _ => false
  end.

(** The callback made by [_sendMessageToBackendPromise] for [method], called
    with [(error, result)]: the requests it logs as failed, and what it does
    to the promise.  [suppressRequestErrors] is [test.suppressRequestErrors]. *)
Definition promiseCallback (suppressRequestErrors : bool) (a : AgentPrototype)
    (method : string) (error result : option Obj)
  : list (string * Obj) * CallbackOutcome :=
  match error with
  | Some e =>
      (if negb suppressRequestErrors && negb (quietErrorCode e)
       then [(method, e)] else [],
       Resolves JSNull)
  | None =>
      (* const args = this._replyArgs[method];
         resolve(result && args.length ? result[args[0]] : undefined); *)
      ([],
       match result with
       | None => Resolves JSUndefined
       | Some r =>
           match JSMap.get method (_replyArgs a) with
           | None => ThrowsTypeError
           | Some [] => Resolves JSUndefined
           | Some (field :: _) => Resolves (getProperty r field)
           end
       end)
  end.

(** The agents that [registerCommand] builds from commands whose names are
    not reserved. *)
Inductive AgentBuilt : AgentPrototype -> Prop :=
| built_new domain t : AgentBuilt (newAgentPrototype domain t)
| built_register methodName parameters replyArgs a :
    methodName ∉ reservedNames ->
    AgentBuilt a ->
    AgentBuilt (registerCommand methodName parameters replyArgs a).

(** * The [TargetBase] constructor *)

(** The routers there are, the timers and the trace they share, the
    connection that [_factory()] returns ([None] while no factory is set),
    and the identity the next target gets. *)
Record Runtime : Type := {
  rt_routers : list SessionRouter;
  rt_timers : list Task;
  rt_trace : list Event;
  rt_factory : option Connection;
  rt_nextTarget : nat;
}.

(** How a [new TargetBase(...)] ends. *)
Inductive Constructed : Type :=
| ThrowsError (message : string)
| ThrowsNotAFunction
| Returns (t : TargetBase).

Definition childTargetError : string :=
  "Either connection or sessionId (but not both) must be supplied for a child target".

(** The condition of the [throw] in the constructor. *)
Definition rejectsArguments (parentTarget : option TargetBase)
    (sessionId : string) (connection : option Connection) : bool :=
  let hasParent := bool_decide (is_Some parentTarget) in
  let hasConnection := bool_decide (is_Some connection) in
  let hasSessionId := bool_decide (sessionId <> "") in
  (negb hasParent && hasConnection)
  || (negb hasParent && hasSessionId)
  || (hasConnection && hasSessionId).

(** [router.registerSession(this, this._sessionId)] on the router at index
    [i] of the runtime. *)
Definition registerOnRouter (i : nat) (t : TargetBase) (rt : Runtime) : Runtime :=
  match rt_routers rt !! i with
  | None => rt
  | Some r =>
      let w :=
        registerSession t (_sessionId t) None
          {| router := r; timers := rt_timers rt; trace := rt_trace rt |} in
      {| rt_routers := <[ i := router w ]> (rt_routers rt);
         rt_timers := timers w;
         rt_trace := trace w;
         rt_factory := rt_factory rt;
         rt_nextTarget := rt_nextTarget rt |}
  end.

(** [new TargetBase(needsNodeJSPatching, parentTarget, sessionId, connection)]:
    the runtime afterwards and how the constructor ends.  The agents and the
    dispatchers of the target are left out. *)
Definition newTargetBase (needsNodeJSPatching : bool)
    (parentTarget : option TargetBase) (sessionId : string)
    (connection : option Connection) (rt : Runtime) : Runtime * Constructed :=
  if rejectsArguments parentTarget sessionId connection
  then (rt, ThrowsError childTargetError)
  else
    let this (i : nat) :=
      {| target_id := rt_nextTarget rt;
         _needsNodeJSPatching := needsNodeJSPatching;
         _sessionId := sessionId;
         _router := Some i |} in
    let fresh (c : Connection) :=
      (* router = new SessionRouter(c) *)
      let i := length (rt_routers rt) in
      let rt1 :=
        {| rt_routers := rt_routers rt ++ [newSessionRouter c];
           rt_timers := rt_timers rt;
           rt_trace := rt_trace rt;
           rt_factory := rt_factory rt;
           rt_nextTarget := S (rt_nextTarget rt) |} in
      (registerOnRouter i (this i) rt1, Returns (this i)) in
    match (if bool_decide (sessionId <> "") then parentTarget else None)
          ≫= _router with
    | Some i =>
        (registerOnRouter i (this i)
           {| rt_routers := rt_routers rt;
              rt_timers := rt_timers rt;
              rt_trace := rt_trace rt;
              rt_factory := rt_factory rt;
              rt_nextTarget := S (rt_nextTarget rt) |},
         Returns (this i))
    | None =>
        match connection with
        | Some c => fresh c
        | None =>
            match rt_factory rt with
            | Some c => fresh c
            | None => (rt, ThrowsNotAFunction)
            end
        end
    end.

(** * The vocabulary of the statements *)

(** ** Views of a world *)

(** The callback pending under a session and a message id. *)
Definition lookupCallback (w : World) (sessionId : string) (id : Z)
  : option CallbackWithDebugInfo :=
  match JSMap.get sessionId (_sessions (router w)) with
  | Some session => JSMap.get id (callbacks session)
  | None => None
  end.

(** The calls of callbacks recorded in a trace, oldest first. *)
Definition invocations (tr : list Event)
  : list (Callback * option Obj * option Obj) :=
  omap (fun e => match e with
                 | EvCallback cb error result => Some (cb, error, result)
                 | _ => None
                 end) tr.

(** The scripts of the drain barrier run in a trace, oldest first. *)
Definition scriptsRun (tr : list Event) : list nat :=
  omap (fun e => match e with EvScript id => Some id | _ => None end) tr.

(** The timer that [unregisterSession] schedules for a pending call. *)
Definition unregisterSessionError (c : CallbackWithDebugInfo) : Obj :=
  connectionClosedError
    ("Session is unregistering, can't dispatch pending call to " ++ method c).

Definition unregisterSessionTask (c : CallbackWithDebugInfo) : Task :=
  TaskCallback (callback c) (unregisterSessionError c).

(** The scripts a script queues on the drain barrier while it runs. *)
Definition queuedByCall (c : Call) : list Script :=
  match c with
  | CallRunAfterPendingDispatches (Some s) => [s]
  | _ => []
  end.

Definition queuedBy (s : Script) : list Script :=
  flat_map queuedByCall (script_body s).


(** ** Incoming messages *)

(** The proxy connection has a handler to give messages to. *)
Definition hasHandler (c : Connection) : bool :=
  match _onMessage c with Some _ => true | None => false end.

(** A session whose proxy connection takes the messages. *)
Definition consumes (s : Session) : bool :=
  match proxyConnection s with
  | Some c => hasHandler c
  | None => false
  end.

(** What the proxy loop records for one session. *)
Definition proxyEvents (m : Message) (s : Session) : list Event :=
  match proxyConnection s with
  | None => []
  | Some c =>
      match _onMessage c with
      | None =>
          [EvProtocolError
             "Protocol Error: the session has a proxyConnection with no _onMessage"
             m]
      | Some _ => [EvProxyMessage c m]
      end
  end.

(** The messages handed to proxy connections in a trace. *)
Definition forwarded (tr : list Event) : list (Connection * Message) :=
  omap (fun e => match e with EvProxyMessage c m => Some (c, m) | _ => None end)
    tr.

(** The message as the session's target sees it. *)
Definition received (NodeURL_patch : Message -> Message) (s : Session)
    (m : Message) : Message :=
  if _needsNodeJSPatching (target s) then NodeURL_patch m else m.

(** An incoming message is a response that finds its callback. *)
Definition matches (NodeURL_patch : Message -> Message) (m : Message)
    (w : World) (session : Session) (id : Z) (c : CallbackWithDebugInfo)
  : Prop :=
  JSMap.get (default "" (msg_sessionId m)) (_sessions (router w)) = Some session /\
  proxyConnection session = None /\
  msg_id (received NodeURL_patch session m) = Some id /\
  JSMap.get id (callbacks session) = Some c.

(** The router after a response has found its callback. *)
Definition answered (sessionId : string) (session : Session) (id : Z)
    (r : SessionRouter) : SessionRouter :=
  set_counters (_lastMessageId r) (_pendingResponsesCount r - 1)
    (_pendingLongPollingMessageIds r ∖ {[ id ]})
    (set_sessions
       (JSMap.set sessionId
          {| target := target session;
             callbacks := JSMap.delete id (callbacks session);
             proxyConnection := proxyConnection session |}
          (_sessions r)) r).

Definition wrongSessionIdError : string :=
  "Protocol Error: the message with wrong session id".
Definition wrongIdError : string :=
  "Protocol Error: the message with wrong id".
Definition noOnMessageError : string :=
  "Protocol Error: the session has a proxyConnection with no _onMessage".

(** ** Sequences of calls and replies *)







(** ** The pending calls of a router and its counters *)

(** All pending calls, session by session. *)
Definition callsOf (ss : list (string * Session))
  : list (Z * CallbackWithDebugInfo) :=
  flat_map (fun e => callbacks (snd e)) ss.

Definition storedCalls (r : SessionRouter) : list (Z * CallbackWithDebugInfo) :=
  callsOf (_sessions r).

Definition storedIds (r : SessionRouter) : list Z := map fst (storedCalls r).

(** The ids of the pending calls that are not tracked as long-polling. *)
Definition pendingNormal (r : SessionRouter) : gset Z :=
  list_to_set (storedIds r) ∖ _pendingLongPollingMessageIds r.

(** The number [_hasOutstandingNonLongPollingRequests] compares with 0. *)
Definition outstanding (r : SessionRouter) : Z :=
  (_pendingResponsesCount r
   - Z.of_nat (size (_pendingLongPollingMessageIds r)))%Z.

(** The invariant of a router: message ids are given once, the ids in use
    are below the next one, an id is tracked as long-polling only for a
    long-polling method, and the count of outstanding requests exceeds the
    number of pending calls that can still be answered by at least [n]. *)
Record Inv (n : Z) (r : SessionRouter) : Prop := {
  inv_nodup : NoDup (storedIds r);
  inv_stored : forall k, k ∈ storedIds r -> (k < _lastMessageId r)%Z;
  inv_lp : forall k,
    k ∈ _pendingLongPollingMessageIds r -> (k < _lastMessageId r)%Z;
  inv_method : forall k c,
    (k, c) ∈ storedCalls r -> k ∈ _pendingLongPollingMessageIds r ->
    method c ∈ LongPollingMethods;
  inv_count : (Z.of_nat (size (pendingNormal r)) + n <= outstanding r)%Z;
}.

(** ** Callbacks a router does not hold *)

(** The call, or a script it queues, passes the callback to the router. *)
Fixpoint callUses (cb : Callback) (c : Call) {struct c} : Prop :=
  match c with
  | CallSendMessage _ _ _ _ cb' => cb' = cb
  | CallRunAfterPendingDispatches (Some s) => scriptUses cb s
  | _ => False
  end
with scriptUses (cb : Callback) (s : Script) {struct s} : Prop :=
  match s with
  | MkScript _ body =>
      (fix go (cs : list Call) : Prop :=
         match cs with
         | [] => False
         | c :: cs' => callUses cb c \/ go cs'
         end) body
  end.

Definition inputUses (cb : Callback) (i : Input) : Prop :=
  match i with
  | InCall c => callUses cb c
  | _ => False
  end.

Definition storedCallbacks (r : SessionRouter) : list Callback :=
  map (fun e => callback (snd e)) (storedCalls r).

Definition timerCallbacks (ts : list Task) : list Callback :=
  omap (fun t => match t with TaskCallback cb _ => Some cb | _ => None end) ts.

(** The callback is in no pending call, no timer and no queued script. *)
Record Unheld (cb : Callback) (w : World) : Prop := {
  unheld_stored : cb ∉ storedCallbacks (router w);
  unheld_timers : cb ∉ timerCallbacks (timers w);
  unheld_scripts : Forall (fun s => ~ scriptUses cb s) (_pendingScripts (router w));
}.

(** The calls of one callback in a trace. *)
Definition invocationsOf (cb : Callback) (tr : list Event)
  : list (Callback * option Obj * option Obj) :=
  filter (fun x => fst (fst x) = cb) (invocations tr).

(** ** Promises of commands *)




(** ** The specification's wording of the checks *)

(** The validation as the specification words it: an optional parameter whose
    next argument is absent is skipped and no argument is consumed.  The
    next argument is absent when none remains and, if
    [undefinedIsAbsent], also when it is [undefined]. *)
Definition nextArgumentAbsent (undefinedIsAbsent : bool) (args : list Argument)
  : bool :=
  match args with
  | [] => true
  | value :: _ =>
      undefinedIsAbsent && bool_decide (typeofArgument value = "undefined")
  end.

Fixpoint claimedPrepareFrom (undefinedIsAbsent : bool) (method : string)
    (parameters todo : list CommandParameter) (args : list Argument)
    (params : Params) (hasParams : bool) : list string * option Params :=
  match todo with
  | [] =>
      match args with
      | [] => ([], if hasParams then Some params else None)
      | _ :: _ => ([extraArguments method args], None)
      end
  | param :: todo' =>
      match args with
      | [] =>
          if optional param
          then claimedPrepareFrom undefinedIsAbsent method parameters todo' args
                 params hasParams
          else ([invalidNumberOfArguments method parameters], None)
      | value :: rest =>
          if optional param && nextArgumentAbsent undefinedIsAbsent args
          then claimedPrepareFrom undefinedIsAbsent method parameters todo' args
                 params hasParams
          else if bool_decide (typeofArgument value = type param)
          then claimedPrepareFrom undefinedIsAbsent method parameters todo' rest
                 (JSMap.set (name param) value params) true
          else ([invalidTypeOfArgument method (name param) (type param) value],
                None)
      end
  end.

Definition claimedPrepareParameters (undefinedIsAbsent : bool) (method : string)
    (parameters : list CommandParameter) (args : list Argument)
  : list string * option Params :=
  claimedPrepareFrom undefinedIsAbsent method parameters parameters args [] false.

(** The validation as amended: an optional parameter is skipped when no
    argument remains, and also when the next argument is [undefined], which
    is then consumed. *)
Fixpoint amendedPrepareFrom (method : string)
    (parameters todo : list CommandParameter) (args : list Argument)
    (params : Params) (hasParams : bool) : list string * option Params :=
  match todo with
  | [] =>
      match args with
      | [] => ([], if hasParams then Some params else None)
      | _ :: _ => ([extraArguments method args], None)
      end
  | param :: todo' =>
      match args with
      | [] =>
          if optional param
          then amendedPrepareFrom method parameters todo' [] params hasParams
          else ([invalidNumberOfArguments method parameters], None)
      | value :: rest =>
          if optional param && bool_decide (typeofArgument value = "undefined")
          then amendedPrepareFrom method parameters todo' rest params hasParams
          else if bool_decide (typeofArgument value = type param)
          then amendedPrepareFrom method parameters todo' rest
                 (JSMap.set (name param) value params) true
          else ([invalidTypeOfArgument method (name param) (type param) value],
                None)
      end
  end.

(** The arguments that the specification has the constructor accept: exactly
    one of a connection and a parent target together with a session id, or
    neither of them when there is no parent target. *)
Definition claimedAccepts (parentTarget : option TargetBase)
    (sessionId : string) (connection : option Connection) : bool :=
  let hasParent := bool_decide (is_Some parentTarget) in
  let hasConnection := bool_decide (is_Some connection) in
  let hasSessionId := bool_decide (sessionId <> "") in
  xorb hasConnection (hasParent && hasSessionId)
  || (negb hasParent && negb hasConnection && negb hasSessionId).

(** ** Concrete objects *)

Definition exConnection : Connection := {| conn_id := 0; _onMessage := None |}.

(** A proxy connection on which no [_onMessage] handler is set. *)
Definition exDeafProxy : Connection := {| conn_id := 1; _onMessage := None |}.

(** A proxy connection with a handler. *)
Definition exProxy : Connection := {| conn_id := 2; _onMessage := Some 0%nat |}.

Definition exTarget (id : nat) (sessionId : string) : TargetBase :=
  {| target_id := id;
     _needsNodeJSPatching := false;
     _sessionId := sessionId;
     _router := Some 0%nat |}.

(** A response [{id, sessionId?, result}]. *)
Definition exResponse (sessionId : option string) (id : Z) (result : Obj)
  : Message :=
  {| msg_sessionId := sessionId;
     msg_url := None;
     msg_id := Some id;
     msg_error := Missing;
     msg_result := Present result;
     msg_method := None;
     msg_params := Missing |}.

Definition noPatch (m : Message) : Message := m.

(** A new router with the root session and the session [child]. *)
Definition exWorld : World :=
  run noPatch
    [InCall (CallRegisterSession (exTarget 0 "") "" None);
     InCall (CallRegisterSession (exTarget 1 "child") "child" None)]
    (newWorld exConnection).



(** A new router whose only session has a proxy connection. *)
Definition exProxiedWorld (proxy : Connection) : World :=
  registerSession (exTarget 0 "proxied") "proxied" (Some proxy)
    (newWorld exConnection).




(** The root session of [exWorld] with one call pending. *)
Definition exBusyWorld : World :=
  sendMessage "" "Page" "Page.enable" None (ClientCallback 40) exWorld.

Definition exDepth : CommandParameter :=
  {| name := "depth"; type := "number"; optional := true |}.

Definition exAgent : AgentPrototype :=
  registerCommand "getDocument" [exDepth] ["root"]
    (newAgentPrototype "DOM" (exTarget 0 "")).



Definition exRuntime : Runtime :=
  {| rt_routers := [];
     rt_timers := [];
     rt_trace := [];
     rt_factory := Some exConnection;
     rt_nextTarget := 0 |}.


(** C6 as stated, first part: the message is handed to the proxy connection
    of every session that has one. *)
Definition forwardsToEveryProxy (NodeURL_patch : Message -> Message) (w : World)
    (m : Message) : Prop :=
  forwarded (trace (onMessage NodeURL_patch m w))
  = forwarded (trace w)
      ++ map (fun c => (c, m))
           (omap proxyConnection (JSMap.values (_sessions (router w)))).

(** * The rest of the protocol client

    Further conventions.
    - A listener is an object with an identity and the properties that
      [event in dispatcher] sees on it, its own and the inherited ones;
      calling one is recorded as a [DispatchEffect], and so is the
      [TypeError] of calling one that is not a function.
    - The maps of parameter names that the back-end keeps per domain are
      shared with the managers of the targets by reference; a manager holds
      the name of its domain, and the map is read from the back-end as it is
      when the event arrives.  In the same way an agent of a target is an
      object whose prototype is the agent prototype of the back-end: the
      target holds the names of its domains, and the commands are read from
      the back-end as it is when the agent is asked for. *)

(** ** Qualified names *)

Definition dot : Ascii.ascii := Ascii.ascii_of_nat 46.

(** [string.split('.')]. *)
Fixpoint split_dot (s : string) : list string :=
  match s with
  | EmptyString => [EmptyString]
  | String c s' =>
      if decide (c = dot) then EmptyString :: split_dot s'
      else
        match split_dot s' with
        | piece :: pieces => String c piece :: pieces
        | [] => [String c EmptyString]
        end
  end.

(** [splitQualifiedName(string)]: the first two pieces; the second one is
    [undefined] when the string has no dot. *)
Definition splitQualifiedName (s : string) : string * option string :=
  let pieces := split_dot s in
  (default EmptyString (head pieces), pieces !! 1%nat).

(** A value that may be [undefined], as a property key or inside a template
    string. *)
Definition propertyKey (n : option string) : string := default "undefined" n.

(** ** [DispatcherManager] *)

(** A listener object: its identity and what [event in dispatcher] sees,
    the names of its properties, own or inherited (so also the members of
    [Object.prototype]), each with whether its value can be called. *)
Record Dispatcher : Type := {
  dispatcher_id : nat;
  members : list (string * bool);
}.

#[global] Instance Dispatcher_eq_dec : EqDecision Dispatcher.
Proof. solve_decision. Defined.

(** [class DispatcherManager]: [eventArgs] is a reference to the map of
    parameter names that the back-end keeps for one domain; the reference is
    the name of that domain. *)
Record DispatcherManager : Type := {
  eventArgs : string;
  dispatchers : list Dispatcher;
}.

(** What dispatching an event does; a [TypeError] ends it. *)
Inductive DispatchEffect : Type :=
| ProtocolWarning (text : string) (m : Message)
| ProtocolErrorReported (text : string) (m : Message)
| HandlerCalled (d : Dispatcher) (event : string) (params : Obj)
| TypeErrorThrown (d : Dispatcher) (event : string).

(** [{...messageObject.params}]. *)
Definition spreadParams (params : Optional Obj) : Obj :=
  match params with
  | Present o => o
  | _ => []
  end.

(** [addDomainDispatcher(dispatcher)]. *)
Definition addDomainDispatcher (d : Dispatcher) (mgr : DispatcherManager)
  : DispatcherManager :=
  {| eventArgs := eventArgs mgr; dispatchers := dispatchers mgr ++ [d] |}.

(** [dispatchers.splice(index, 1)] at the first index of [d]. *)
Fixpoint removeFirst (d : Dispatcher) (ds : list Dispatcher) : list Dispatcher :=
  match ds with
  | [] => []
  | d' :: ds' => if decide (d = d') then ds' else d' :: removeFirst d ds'
  end.

(** [removeDomainDispatcher(dispatcher)]. *)
Definition removeDomainDispatcher (d : Dispatcher) (mgr : DispatcherManager)
  : DispatcherManager :=
  {| eventArgs := eventArgs mgr; dispatchers := removeFirst d (dispatchers mgr) |}.

Definition unspecifiedEventWarning (method : option string) : string :=
  "Protocol Warning: Attempted to dispatch an unspecified event '"
    ++ propertyKey method ++ "'".

(** The loop over the dispatchers:
    [if (event in dispatcher) { f = dispatcher[event]; f.call(dispatcher, messageParams); }],
    where [f.call] throws for an [f] that is not a function. *)
Fixpoint callDispatchers (event : string) (messageParams : Obj)
    (ds : list Dispatcher) : list DispatchEffect :=
  match ds with
  | [] => []
  | d :: rest =>
      match JSMap.get event (members d) with
      | None => callDispatchers event messageParams rest
      | Some true =>
          HandlerCalled d event messageParams
            :: callDispatchers event messageParams rest
      | Some false => [TypeErrorThrown d event]
      end
  end.

(** [DispatcherManager.dispatch(event, messageObject)], with the map that
    [eventArgs] refers to. *)
Definition DispatcherManager_dispatch (args : list (string * list string))
    (mgr : DispatcherManager) (event : option string) (messageObject : Message)
  : list DispatchEffect :=
  if bool_decide (dispatchers mgr = []) then []
  else if negb (bool_decide
                  (is_Some (msg_method messageObject ≫= fun q => JSMap.get q args)))
  then [ProtocolWarning (unspecifiedEventWarning (msg_method messageObject))
          messageObject]
  else
    let messageParams := spreadParams (msg_params messageObject) in
    callDispatchers (propertyKey event) messageParams (dispatchers mgr).

(** ** [InspectorBackend] *)

(** [class InspectorBackend]: an agent prototype is an agent that has no
    target yet ([Object.create] and [agent._target = this] give it one). *)
Record InspectorBackend : Type := {
  _agentPrototypes : list (string * (TargetBase -> AgentPrototype));
  initialized : bool;
  eventParameterNamesForDomain : list (string * list (string * list string));
}.

(** [new InspectorBackend()]. *)
Definition newInspectorBackend : InspectorBackend :=
  {| _agentPrototypes := [];
     initialized := false;
     eventParameterNamesForDomain := [] |}.

(** [registerCommand(method, parameters, replyArgs)] of the back-end, with
    [_agentPrototype(domain)] in it. *)
Definition InspectorBackend_registerCommand (method : string)
    (parameters : list CommandParameter) (replyArgs : list string)
    (ib : InspectorBackend) : InspectorBackend :=
  let '(domain, command) := splitQualifiedName method in
  let prototype :=
    default (newAgentPrototype domain) (JSMap.get domain (_agentPrototypes ib)) in
  {| _agentPrototypes :=
       JSMap.set domain
         (fun t =>
            registerCommand (propertyKey command) parameters replyArgs
              (prototype t))
         (_agentPrototypes ib);
     initialized := true;
     eventParameterNamesForDomain := eventParameterNamesForDomain ib |}.

(** [registerEvent(eventName, params)], with
    [getOrCreateEventParameterNamesForDomain(domain)] in it. *)
Definition registerEvent (eventName : string) (params : list string)
    (ib : InspectorBackend) : InspectorBackend :=
  let domain := default EmptyString (head (split_dot eventName)) in
  let map :=
    default [] (JSMap.get domain (eventParameterNamesForDomain ib)) in
  {| _agentPrototypes := _agentPrototypes ib;
     initialized := true;
     eventParameterNamesForDomain :=
       JSMap.set domain (JSMap.set eventName params map)
         (eventParameterNamesForDomain ib) |}.

(** What the registration calls of the generated schema do to a back-end. *)
Inductive Registration : Type :=
| RegisterCommand (method : string) (parameters : list CommandParameter)
    (replyArgs : list string)
| RegisterEvent (eventName : string) (params : list string).

Definition register (ib : InspectorBackend) (r : Registration)
  : InspectorBackend :=
  match r with
  | RegisterCommand method parameters replyArgs =>
      InspectorBackend_registerCommand method parameters replyArgs ib
  | RegisterEvent eventName params => registerEvent eventName params ib
  end.

(** ** The agents and the dispatchers of a target *)

(** The private maps of a [TargetBase]: [agents] holds, for each domain it
    has, an object whose prototype is the agent prototype of the back-end,
    so that only the domains are the target's own; [dispatchers] holds a
    manager for each domain. *)
Record TargetMaps : Type := {
  agents : list string;
  targetDispatchers : list (string * DispatcherManager);
}.

(** The two loops that end the [TargetBase] constructor. *)
Definition newTargetMaps (ib : InspectorBackend) : TargetMaps :=
  {| agents := JSMap.keys (_agentPrototypes ib);
     targetDispatchers :=
       map (fun e => (fst e, {| eventArgs := fst e; dispatchers := [] |}))
         (eventParameterNamesForDomain ib) |}.

(** [getAgent(domain)]; [None] is the throw of ['Accessing undefined agent']. *)
Definition getAgent (ib : InspectorBackend) (maps : TargetMaps)
    (t : TargetBase) (domain : string) : option AgentPrototype :=
  if bool_decide (domain ∈ agents maps)
  then (fun prototype => prototype t) <$> JSMap.get domain (_agentPrototypes ib)
  else None.

Definition nonExistingDomainError (method : string) (domainName : string)
  : string :=
  "Protocol Error: the message " ++ method ++ " is for non-existing domain '"
    ++ domainName ++ "'".

(** [TargetBase.dispatch(eventMessage)]; [None] is the [TypeError] of
    [splitQualifiedName(undefined)], for a message that has no [method]
    against its type [EventMessage]. *)
Definition TargetBase_dispatch (ib : InspectorBackend) (maps : TargetMaps)
    (eventMessage : Message) : option (list DispatchEffect) :=
  match msg_method eventMessage with
  | None => None
  | Some method =>
      let '(domainName, event) := splitQualifiedName method in
      match JSMap.get domainName (targetDispatchers maps) with
      | None =>
          Some [ProtocolErrorReported (nonExistingDomainError method domainName)
                  eventMessage]
      | Some dispatcher =>
          Some (DispatcherManager_dispatch
                  (default [] (JSMap.get (eventArgs dispatcher)
                                 (eventParameterNamesForDomain ib)))
                  dispatcher event eventMessage)
      end
  end.

(** [registerDispatcher(domain, dispatcher)]. *)
Definition registerDispatcher (domain : string) (d : Dispatcher)
    (maps : TargetMaps) : TargetMaps :=
  match JSMap.get domain (targetDispatchers maps) with
  | None => maps
  | Some manager =>
      {| agents := agents maps;
         targetDispatchers :=
           JSMap.set domain (addDomainDispatcher d manager)
             (targetDispatchers maps) |}
  end.

(** [unregisterDispatcher(domain, dispatcher)]. *)
Definition unregisterDispatcher (domain : string) (d : Dispatcher)
    (maps : TargetMaps) : TargetMaps :=
  match JSMap.get domain (targetDispatchers maps) with
  | None => maps
  | Some manager =>
      {| agents := agents maps;
         targetDispatchers :=
           JSMap.set domain (removeDomainDispatcher d manager)
             (targetDispatchers maps) |}
  end.

(** ** [_invoke] *)

(** What the promise of [_invoke] is fulfilled with: the properties of the
    result other than [getError], the property under the [ProtocolError]
    symbol if it is set, and what [getError()] returns. *)
Record InvokeResult : Type := {
  invoke_properties : Obj;
  invoke_ProtocolError : option JSValue;
  invoke_getError : JSValue;
}.

(** The callback made by [_invoke] for [method], called with
    [(error, result)]: the requests it logs as failed and what it fulfils the
    promise with. *)
Definition invokeCallback (suppressRequestErrors : bool) (method : string)
    (error result : option Obj) : list (string * Obj) * InvokeResult :=
  let log :=
    match error with
    | Some e =>
        if negb suppressRequestErrors && negb (quietErrorCode e)
        then [(method, e)] else []
    | None => []
    end in
  let properties := JSMap.delete "getError" (default [] result) in
  (log,
   match error with
   | Some e =>
       {| invoke_properties := properties;
          invoke_ProtocolError := Some (getProperty e "message");
          invoke_getError := getProperty e "message" |}
   | None =>
       {| invoke_properties := properties;
          invoke_ProtocolError := None;
          invoke_getError := JSUndefined |}
   end).

(** [_invoke(method, request)], in the world of the router of the agent's
    target; [cb] is the callback it makes. *)
Definition _invoke (a : AgentPrototype) (method : string)
    (request : option Obj) (cb : Callback) (w : World) : World :=
  match _router (_target a) with
  | None => dispatchConnectionError cb method w
  | Some _ =>
      sendMessage (_sessionId (_target a)) (_domain a) method request cb w
  end.

(** The closure [invoke] that [registerCommand] stores under
    ['invoke_' + methodName], for the qualified name it holds; a request that
    is [undefined] is [{}]. *)
Definition invoke (a : AgentPrototype) (domainAndMethod : string)
    (request : option Obj) (cb : Callback) (w : World) : World :=
  _invoke a domainAndMethod (Some (default [] request)) cb w.

(** Calling the other form of the command [methodName] of the agent:
    [agent['invoke_' + methodName](request)]; [None] when the property is
    not a closure [invoke]. *)
Definition invokeCommand (a : AgentPrototype) (methodName : string)
    (request : option Obj) (cb : Callback) (w : World) : option World :=
  match JSMap.get ("invoke_" ++ methodName)%string (commands a) with
  | Some (Invoke domainAndMethod) => Some (invoke a domainAndMethod request cb w)
  | _ => None
  end.

(** ** [dispose] *)

(** A method of the router at index [i], run in the runtime. *)
Definition onRouter (i : nat) (f : World -> World) (rt : Runtime) : Runtime :=
  match rt_routers rt !! i with
  | None => rt
  | Some r =>
      let w := f {| router := r; timers := rt_timers rt; trace := rt_trace rt |} in
      {| rt_routers := <[ i := router w ]> (rt_routers rt);
         rt_timers := timers w;
         rt_trace := trace w;
         rt_factory := rt_factory rt;
         rt_nextTarget := rt_nextTarget rt |}
  end.

(** [dispose(reason)]: the target afterwards and the runtime afterwards. *)
Definition dispose (t : TargetBase) (rt : Runtime) : TargetBase * Runtime :=
  match _router t with
  | None => (t, rt)
  | Some i =>
      ({| target_id := target_id t;
          _needsNodeJSPatching := _needsNodeJSPatching t;
          _sessionId := _sessionId t;
          _router := None |},
       onRouter i (unregisterSession (_sessionId t)) rt)
  end.

(** [isDisposed()]. *)
Definition isDisposed (t : TargetBase) : bool :=
  bool_decide (_router t = None).

(** * Layout shifts

    [normalizedImpactedNodesForLayoutShift] and [_TEST_clearCache].  The
    rectangles of an impacted node are arrays of numbers that the function
    updates in place: the arrays live in a heap, and a node holds their
    references.  The numbers and their division are parameters, as the
    doubles of JavaScript are not modelled.  The function is [async]: it is
    given in the two parts that its one [await] separates, and what the
    [await] yields, the result of [invoke_evaluate] on the main frame
    target, is an argument of the second part.  [sourcesForLayoutShift],
    whose result depends on the order in which the look-ups of another file
    settle, is left out. *)

(** [!v] is [false]. *)
Definition truthy (v : JSValue) : bool :=
  match v with
  | JSUndefined | JSNull => false
  | JSBoolean b => b
  | JSNumber n => negb (bool_decide (n = 0%Z))
  | JSString s => negb (bool_decide (s = ""))
  | JSObject _ => true
  end.

(** [interface TraceImpactedNode]: the two rectangles are arrays of numbers;
    a node holds references to them. *)
Record TraceImpactedNode : Type := {
  node_id : Z;
  old_rect : nat;
  new_rect : nat;
}.

(** A layout shift event: its identity and [event.args?.data?.impacted_nodes]. *)
Record TraceEventLayoutShift : Type := {
  event_id : nat;
  impacted_nodes : option (list TraceImpactedNode);
}.

(** What [evaluateResult] gives for [viewportScale]: reading [type] of a
    missing [result] throws; otherwise the scale, [None] for [null]. *)
Inductive Evaluated : Type :=
| ThrowsReadingType
| ViewportScale (viewportScale : option JSValue).

(** How a call of an [async] function ends. *)
Inductive Settled (A : Type) : Type :=
| Fulfils (value : A)
| RejectsTypeError.
Arguments Fulfils {A} value.
Arguments RejectsTypeError {A}.

(** Where a call stands when it first gives up control. *)
Inductive Started : Type :=
| ReturnsAtOnce (nodes : list TraceImpactedNode)
| Awaits (impactedNodes : list TraceImpactedNode).

(** [viewportScale] after
    [if (evaluateResult?.result.type === 'number')
       viewportScale = evaluateResult?.result.value ?? null];
    [evaluateResult] is [None] when there is no main frame target. *)
Definition viewportScaleOf (evaluateResult : option InvokeResult) : Evaluated :=
  match evaluateResult with
  | None => ViewportScale None
  | Some r =>
      match getProperty (invoke_properties r) "result" with
      | JSUndefined | JSNull => ThrowsReadingType
      | JSObject result =>
          match getProperty result "type" with
          | JSString type =>
              if decide (type = "number")
              then ViewportScale
                     match getProperty result "value" with
                     | JSUndefined | JSNull => None
                     | value => Some value
                     end
              else ViewportScale None
          | _ => ViewportScale None
          end
      | _ => ViewportScale None
      end
  end.

Section LayoutShifts.
(** The numbers of the rectangles, and [x / viewportScale] on them. *)
Context {Number : Type} (divide : Number -> JSValue -> Number).

(** The arrays of the rectangles by reference, and [normalizedNodesCache],
    keyed by the identities of the model data and of the event. *)
Record LayoutShiftState : Type := {
  arrays : gmap nat (list Number);
  normalizedNodesCache : list (nat * list (nat * list TraceImpactedNode));
}.

(** [_TEST_clearCache()], on [normalizedNodesCache]. *)
Definition _TEST_clearCache (st : LayoutShiftState) : LayoutShiftState :=
  {| arrays := arrays st; normalizedNodesCache := [] |}.

(** [for (i = 0; i < rect.length; i++) rect[i] /= viewportScale] on the array
    that [rect] refers to. *)
Definition divideArray (viewportScale : JSValue) (rect : nat)
    (heap : gmap nat (list Number)) : gmap nat (list Number) :=
  match heap !! rect with
  | Some numbers =>
      <[ rect := map (fun x => divide x viewportScale) numbers ]> heap
  | None => heap
  end.

(** [normalizedImpactedNodesForLayoutShift(modelData, event)] up to its
    [await]. *)
Definition normalizedImpactedNodes_start (modelData : nat)
    (event : TraceEventLayoutShift) (st : LayoutShiftState) : Started :=
  match JSMap.get modelData (normalizedNodesCache st)
          ≫= JSMap.get (event_id event) with
  | Some fromCache => ReturnsAtOnce fromCache
  | None =>
      match impacted_nodes event with
      | None => ReturnsAtOnce []
      | Some impactedNodes => Awaits impactedNodes
      end
  end.

(** The rest of it, from the state in which [evaluateResult] arrives.  The
    copy [{...impactedNode}] has the fields of the node, so the same
    arrays. *)
Definition normalizedImpactedNodes_resume (modelData : nat)
    (event : TraceEventLayoutShift) (impactedNodes : list TraceImpactedNode)
    (evaluateResult : option InvokeResult) (st : LayoutShiftState)
  : LayoutShiftState * Settled (list TraceImpactedNode) :=
  match viewportScaleOf evaluateResult with
  | ThrowsReadingType => (st, RejectsTypeError)
  | ViewportScale viewportScale =>
      match viewportScale with
      | Some scale =>
          if truthy scale then
            let heap :=
              fold_left
                (fun heap impactedNode =>
                   divideArray scale (new_rect impactedNode)
                     (divideArray scale (old_rect impactedNode) heap))
                impactedNodes (arrays st) in
            let normalizedNodes := impactedNodes in
            let cacheForModel :=
              default [] (JSMap.get modelData (normalizedNodesCache st)) in
            ({| arrays := heap;
                normalizedNodesCache :=
                  JSMap.set modelData
                    (JSMap.set (event_id event) normalizedNodes cacheForModel)
                    (normalizedNodesCache st) |},
             Fulfils normalizedNodes)
          else (st, Fulfils impactedNodes)
      | None => (st, Fulfils impactedNodes)
      end
  end.

(** A call during whose [await] nothing else touches the state. *)
Definition normalizedImpactedNodesForLayoutShift (modelData : nat)
    (event : TraceEventLayoutShift) (evaluateResult : option InvokeResult)
    (st : LayoutShiftState)
  : LayoutShiftState * Settled (list TraceImpactedNode) :=
  match normalizedImpactedNodes_start modelData event st with
  | ReturnsAtOnce nodes => (st, Fulfils nodes)
  | Awaits impactedNodes =>
      normalizedImpactedNodes_resume modelData event impactedNodes
        evaluateResult st
  end.
End LayoutShifts.
Arguments LayoutShiftState Number : clear implicits.

(** The nodes that [normalizedNodesCache] has for a model data and an
    event. *)
Definition cachedNodes {Number : Type} (st : LayoutShiftState Number)
    (modelData : nat) (event : TraceEventLayoutShift)
  : option (list TraceImpactedNode) :=
  JSMap.get modelData (normalizedNodesCache st) ≫= JSMap.get (event_id event).

(** An array after its numbers have been divided [k] times. *)
Definition dividedTimes {Number : Type} (divide : Number -> JSValue -> Number)
    (scale : JSValue) (k : nat) (rect : option (list Number))
  : option (list Number) :=
  Nat.iter k (map (fun x => divide x scale)) <$> rect.

(** The references to arrays that the nodes hold, in the order the loops go
    through them. *)
Definition rectsOf (nodes : list TraceImpactedNode) : list nat :=
  flat_map (fun n => [old_rect n; new_rect n]) nodes.

(** ** More vocabulary *)

(** The back-ends that the registration calls build. *)
Definition registered (rs : list Registration) (ib : InspectorBackend)
  : InspectorBackend :=
  fold_left register rs ib.

(** The registration does not name a command by a reserved name. *)
Definition safeRegistration (r : Registration) : Prop :=
  match r with
  | RegisterCommand method _ _ =>
      propertyKey (snd (splitQualifiedName method)) ∉ reservedNames
  | RegisterEvent _ _ => True
  end.

(** The maps of a target made while the back-end was [ib], after listeners
    have been registered and unregistered on it. *)
Inductive MapsBuilt (ib : InspectorBackend) : TargetMaps -> Prop :=
| maps_new : MapsBuilt ib (newTargetMaps ib)
| maps_register domain d maps :
    MapsBuilt ib maps -> MapsBuilt ib (registerDispatcher domain d maps)
| maps_unregister domain d maps :
    MapsBuilt ib maps -> MapsBuilt ib (unregisterDispatcher domain d maps).

(** The listeners that have a property of the name of the event, each
    called with the parameters of the message. *)
Definition handlerCalls (event : string) (m : Message)
    (ds : list Dispatcher) : list DispatchEffect :=
  map (fun d => HandlerCalled d event (spreadParams (msg_params m)))
    (List.filter
       (fun d => bool_decide (is_Some (JSMap.get event (members d)))) ds).

(** The property of that name, if the listener has one, is a function. *)
Definition callableIn (event : string) (d : Dispatcher) : Prop :=
  JSMap.get event (members d) <> Some false.

(** The parameter names that a back-end has for an event. *)
Definition eventParameterNames (ib : InspectorBackend) (domain event : string)
  : option (list string) :=
  JSMap.get domain (eventParameterNamesForDomain ib)
    ≫= JSMap.get (qualifyName domain event).

(** What the registrations keep true of the agent prototypes. *)
Definition PrototypesBuilt (ib : InspectorBackend) : Prop :=
  forall d prototype,
    JSMap.get d (_agentPrototypes ib) = Some prototype ->
    forall t,
      AgentBuilt (prototype t) /\ _domain (prototype t) = d /\
      _target (prototype t) = t.

(** What the events recorded in a trace do at their targets, oldest first;
    [mapsOf] gives the maps of a target. *)
Definition eventEffects (ib : InspectorBackend)
    (mapsOf : TargetBase -> TargetMaps) (tr : list Event)
  : list (option (list DispatchEffect)) :=
  omap (fun e => match e with
                 | EvDispatch t m => Some (TargetBase_dispatch ib (mapsOf t) m)
                 | _ => None
                 end) tr.


(** The message ids and the counters of the router are doubles: adding 1 is
    exact up to this number, and the integers of the model are the numbers
    of the source as long as the next message id has not passed it. *)
Definition maxExactInteger : Z := 2 ^ 53.

(** A name that a plain object keeps as an own property in the order of
    insertion: it is not [__proto__] and does not start with a digit, as the
    names that are array indices do. *)
Definition startsWithDigit (s : string) : bool :=
  match s with
  | String c _ =>
      bool_decide (48 <= Ascii.nat_of_ascii c <= 57)%nat
  | EmptyString => false
  end.

Definition ordinaryName (s : string) : Prop :=
  s <> "__proto__" /\ startsWithDigit s = false.

(** The string has no dot. *)
Fixpoint dotFree (s : string) : Prop :=
  match s with
  | EmptyString => True
  | String c s' => c <> dot /\ dotFree s'
  end.


(** ** More concrete objects *)

(** The root session of [exWorld], and of [exBusyWorld]. *)
Definition exRootSession : Session :=
  {| target := exTarget 0 ""; callbacks := []; proxyConnection := None |}.

Definition exBusySession : Session :=
  {| target := exTarget 0 "";
     callbacks :=
       [(1%Z, {| callback := ClientCallback 40; method := "Page.enable" |})];
     proxyConnection := None |}.

(** [exBusyWorld] with a script waiting on the drain barrier. *)
Definition exBarrierWorld : World :=
  _deprecatedRunAfterPendingDispatches (Some (MkScript 7 [])) exBusyWorld.

(** An event [{method, params: {timestamp: 5}}] for the root session. *)
Definition exEvent (method : string) : Message :=
  {| msg_sessionId := None;
     msg_url := None;
     msg_id := None;
     msg_error := Missing;
     msg_result := Missing;
     msg_method := Some method;
     msg_params := Present [("timestamp", JSNumber 5)] |}.

(** A back-end when a target is made, and what is registered afterwards. *)
Definition exEarlyRegistrations : list Registration :=
  [RegisterCommand "DOM.enable" [] [];
   RegisterEvent "Page.frameNavigated" ["frame"]].

Definition exEarlyBackend : InspectorBackend :=
  registered exEarlyRegistrations newInspectorBackend.

Definition exLateRegistrations : list Registration :=
  [RegisterEvent "Page.loadEventFired" ["timestamp"];
   RegisterEvent "Network.requestWillBeSent" ["requestId"]].

(** What [in] sees on every object that inherits from [Object.prototype];
    [__proto__] is not a function. *)
Definition objectPrototypeMembers : list (string * bool) :=
  [("constructor", true); ("hasOwnProperty", true); ("isPrototypeOf", true);
   ("propertyIsEnumerable", true); ("toLocaleString", true);
   ("toString", true); ("valueOf", true); ("__defineGetter__", true);
   ("__defineSetter__", true); ("__lookupGetter__", true);
   ("__lookupSetter__", true); ("__proto__", false)].

Definition exListener : Dispatcher :=
  {| dispatcher_id := 0;
     members :=
       [("loadEventFired", true); ("frameNavigated", true)]
         ++ objectPrototypeMembers |}.

Definition exOtherListener : Dispatcher :=
  {| dispatcher_id := 1;
     members := [("loadEventFired", true)] ++ objectPrototypeMembers |}.

(** The maps of a target made with [exEarlyBackend], with one listener for
    the domain [Page]. *)
Definition exMaps : TargetMaps :=
  registerDispatcher "Page" exListener (newTargetMaps exEarlyBackend).

Definition exManager : DispatcherManager :=
  {| eventArgs := "Page"; dispatchers := [exListener] |}.

(** A runtime whose one router is the router of [exBusyWorld]. *)
Definition exBusyRuntime : Runtime :=
  {| rt_routers := [router exBusyWorld];
     rt_timers := [];
     rt_trace := trace exBusyWorld;
     rt_factory := None;
     rt_nextTarget := 2 |}.

(** An agent of a target that has been disposed of. *)
Definition exDisposedAgent : AgentPrototype :=
  registerCommand "getDocument" [exDepth] ["root"]
    (newAgentPrototype "DOM" (fst (dispose (exTarget 0 "") exBusyRuntime))).

(** A layout shift with one impacted node; the numbers of its rectangles
    are integers that 4 divides, so that dividing by the scale 2 once or
    twice is exact. *)
Definition exNode : TraceImpactedNode :=
  {| node_id := 7; old_rect := 0; new_rect := 1 |}.

Definition exShift : TraceEventLayoutShift :=
  {| event_id := 0; impacted_nodes := Some [exNode] |}.

Definition exDivide (x : Z) (scale : JSValue) : Z :=
  match scale with
  | JSNumber n => (x / n)%Z
  | _ => x
  end.

Definition exShiftState : LayoutShiftState Z :=
  {| arrays := <[ 0%nat := [100; 48; 20; 12]%Z ]>
                 (<[ 1%nat := [100; 80; 20; 12]%Z ]> ∅);
     normalizedNodesCache := [] |}.

(** What [invoke_evaluate] is fulfilled with when the page answers
    [{result: {type: 'number', value: 2}}]. *)
Definition exEvaluateResult : option InvokeResult :=
  Some (snd (invokeCallback false "Runtime.evaluate" None
               (Some [("result",
                       JSObject [("type", JSString "number");
                                 ("value", JSNumber 2)])]))).

(** * Properties *)

(** ** Facts about insertion-ordered maps *)

Module JSMapFacts.
Section facts.
Context {K V : Type} `{EqDecision K}.
Implicit Types (k : K) (v : V) (m : list (K * V)).

Lemma get_set_eq k v m : JSMap.get k (JSMap.set k v m) = Some v.
Proof.
  induction m as [|[k' v'] m IH]; simpl.
  - by rewrite decide_True.
  - destruct (decide (k = k')) as [->|Hne]; simpl.
    + by rewrite decide_True.
    + by rewrite decide_False.
Qed.

Lemma get_set_ne k k' v m :
  k ≠ k' -> JSMap.get k' (JSMap.set k v m) = JSMap.get k' m.
Proof.
  intros Hne. induction m as [|[k0 v0] m IH]; simpl.
  - rewrite decide_False; [done | congruence].
  - destruct (decide (k = k0)) as [->|Hne0]; simpl.
    + rewrite !decide_False; [done | congruence | congruence].
    + destruct (decide (k' = k0)); [done | apply IH].
Qed.

Lemma get_delete_eq k m : JSMap.get k (JSMap.delete k m) = None.
Proof.
  induction m as [|[k' v'] m IH]; simpl; [done|].
  destruct (decide (k = k')) as [->|Hne]; simpl; [done|].
  by rewrite decide_False.
Qed.

Lemma get_delete_ne k k' m :
  k ≠ k' -> JSMap.get k' (JSMap.delete k m) = JSMap.get k' m.
Proof.
  intros Hne. induction m as [|[k0 v0] m IH]; simpl; [done|].
  destruct (decide (k = k0)) as [->|Hne0]; simpl.
  - rewrite decide_False; [done | congruence].
  - destruct (decide (k' = k0)); [done | apply IH].
Qed.

Lemma get_None_keys k m : JSMap.get k m = None <-> k ∉ JSMap.keys m.
Proof.
  induction m as [|[k' v'] m IH]; simpl.
  - split; [intros _; apply not_elem_of_nil | done].
  - rewrite not_elem_of_cons.
    destruct (decide (k = k')) as [->|Hne]; [split; [done | tauto]|].
    rewrite IH. tauto.
Qed.

Lemma get_Some_keys k v m : JSMap.get k m = Some v -> k ∈ JSMap.keys m.
Proof.
  intros Hget. destruct (decide (k ∈ JSMap.keys m)) as [|Hn]; [done|].
  apply get_None_keys in Hn. congruence.
Qed.

Lemma get_Some_elem k v m : JSMap.get k m = Some v -> (k, v) ∈ m.
Proof.
  induction m as [|[k' v'] m IH]; simpl; [done|].
  destruct (decide (k = k')) as [->|Hne].
  - intros [= ->]. apply elem_of_cons; by left.
  - intros Hget. apply elem_of_cons; right; auto.
Qed.

(** A fresh key goes to the end. *)
Lemma set_fresh k v m :
  JSMap.get k m = None -> JSMap.set k v m = m ++ [(k, v)].
Proof.
  induction m as [|[k' v'] m IH]; simpl; [done|].
  destruct (decide (k = k')); [done|]. intros Hget. by rewrite IH.
Qed.

(** A present key is replaced where it is. *)
Lemma get_Some_split k v m :
  JSMap.get k m = Some v ->
  exists m1 m2, m = m1 ++ (k, v) :: m2 /\
    (forall v', JSMap.set k v' m = m1 ++ (k, v') :: m2) /\
    JSMap.delete k m = m1 ++ JSMap.delete k m2.
Proof.
  induction m as [|[k' v0] m IH]; simpl; [done|].
  destruct (decide (k = k')) as [->|Hne].
  - intros [= ->]. exists [], m. split; [done|]. split; [|done].
    intros v'. done.
  - intros Hget. destruct (IH Hget) as (m1 & m2 & -> & Hset & Hdel).
    exists ((k', v0) :: m1), m2. split; [done|].
    split; [|simpl; by rewrite Hdel].
    intros v'. simpl. by rewrite Hset.
Qed.

Lemma delete_sublist k m : JSMap.delete k m `sublist_of` m.
Proof.
  induction m as [|[k' v'] m IH]; simpl; [constructor|].
  destruct (decide (k = k')); by constructor.
Qed.

Lemma keys_delete_sublist k m :
  JSMap.keys (JSMap.delete k m) `sublist_of` JSMap.keys m.
Proof.
  induction m as [|[k' v'] m IH]; simpl; [constructor|].
  destruct (decide (k = k')); simpl; by constructor.
Qed.

Lemma keys_delete_notin k m : k ∉ JSMap.keys (JSMap.delete k m).
Proof. apply get_None_keys, get_delete_eq. Qed.

Lemma delete_fresh k m : JSMap.get k m = None -> JSMap.delete k m = m.
Proof.
  induction m as [|[k' v'] m IH]; simpl; [done|].
  destruct (decide (k = k')); [done|]. intros Hget. by rewrite IH.
Qed.
End facts.
End JSMapFacts.

Lemma World_eta (w : World) :
  w = {| router := router w; timers := timers w; trace := trace w |}.
Proof. by destruct w. Qed.

Lemma set_sessions_id (r : SessionRouter) : set_sessions (_sessions r) r = r.
Proof. by destruct r. Qed.

(** ** Unregistering a session *)

Lemma dispatchUnregisterSessionError_all (cs : list CallbackWithDebugInfo)
    (w : World) :
  fold_left (fun w c => dispatchUnregisterSessionError c w) cs w
  = {| router := router w;
       timers := timers w ++ map unregisterSessionTask cs;
       trace := trace w |}.
Proof.
  revert w. induction cs as [|c cs IH]; intros w; simpl.
  - rewrite app_nil_r. apply World_eta.
  - rewrite IH. simpl. by rewrite <- app_assoc.
Qed.

(** Timers that only call a callback with an error run one per tick, in
    order, and touch nothing but the trace. *)
Lemma tick_callback_tasks (cs : list CallbackWithDebugInfo) (u : World)
    (rest : list Task) :
  timers u = map unregisterSessionTask cs ++ rest ->
  Nat.iter (length cs) tick u
  = {| router := router u;
       timers := rest;
       trace := trace u
         ++ map (fun c => EvCallback (callback c)
                            (Some (unregisterSessionError c)) None) cs |}.
Proof.
  revert u. induction cs as [|c cs IH]; intros u Hu.
  - simpl in *. rewrite app_nil_r, <- Hu. apply World_eta.
  - cbn [length]. rewrite Nat.iter_succ_r.
    rewrite (IH (tick u)).
    + unfold tick. rewrite Hu. simpl. by rewrite <- app_assoc.
    + unfold tick. rewrite Hu. done.
Qed.

Lemma unregisterSession_registered (sessionId : string) (w : World)
    (session : Session) :
  JSMap.get sessionId (_sessions (router w)) = Some session ->
  unregisterSession sessionId w
  = {| router :=
         set_sessions (JSMap.delete sessionId (_sessions (router w)))
           (router w);
       timers :=
         timers w
         ++ map unregisterSessionTask (JSMap.values (callbacks session));
       trace := trace w |}.
Proof.
  intros Hget. unfold unregisterSession. rewrite Hget.
  by rewrite dispatchUnregisterSessionError_all.
Qed.

(** C2. [unregisterSession] of an unknown session changes nothing.  For a
    registered session with pending calls [c1 .. cN] it deletes the session
    record at once (no call of the session is pending afterwards), calls no
    callback synchronously (the trace is unchanged), and appends exactly N
    timers, one per pending call; when these timers fire, each calls the
    callback of its pending call with an error
    [{message, code: ConnectionClosedErrorCode, data: null}] whose message
    ends with the method of that call, and with a [null] result. *)
Theorem unregisterSession_fails_pending_calls (w : World) (sessionId : string) :
  (JSMap.get sessionId (_sessions (router w)) = None ->
     unregisterSession sessionId w = w) /\
  (forall session,
     JSMap.get sessionId (_sessions (router w)) = Some session ->
     let pending := JSMap.values (callbacks session) in
     let w' := unregisterSession sessionId w in
     JSMap.get sessionId (_sessions (router w')) = None /\
     (forall id, lookupCallback w' sessionId id = None) /\
     trace w' = trace w /\
     timers w' = timers w ++ map unregisterSessionTask pending /\
     length (map unregisterSessionTask pending) = length (callbacks session) /\
     (forall c, c ∈ pending ->
        unregisterSessionError c =
          [("message",
            JSString ("Session is unregistering, can't dispatch pending call to "
                        ++ method c));
           ("code", JSNumber ConnectionClosedErrorCode);
           ("data", JSNull)]) /\
     (forall u rest,
        timers u = map unregisterSessionTask pending ++ rest ->
        Nat.iter (length pending) tick u
        = {| router := router u;
             timers := rest;
             trace := trace u
               ++ map (fun c => EvCallback (callback c)
                                  (Some (unregisterSessionError c)) None)
                    pending |})).
Proof.
  split.
  - intros Hget. unfold unregisterSession. by rewrite Hget.
  - intros session Hget pending w'.
    assert (Hw' : w' = {| router := set_sessions
                            (JSMap.delete sessionId (_sessions (router w)))
                            (router w);
                          timers := timers w ++ map unregisterSessionTask pending;
                          trace := trace w |}).
    { unfold w'. by apply unregisterSession_registered. }
    assert (Hgone : JSMap.get sessionId (_sessions (router w')) = None).
    { rewrite Hw'. simpl. apply JSMapFacts.get_delete_eq. }
    split; [done|].
    split; [intros id; unfold lookupCallback; by rewrite Hgone|].
    split; [by rewrite Hw'|].
    split; [by rewrite Hw'|].
    split; [unfold pending, JSMap.values; by rewrite !length_map|].
    split; [done|].
    intros u rest Hu. by apply tick_callback_tasks.
Qed.

(** ** What the calls leave alone *)

Lemma scriptsRun_app (t1 t2 : list Event) :
  scriptsRun (t1 ++ t2) = scriptsRun t1 ++ scriptsRun t2.
Proof. apply omap_app. Qed.

Lemma invocations_app (t1 t2 : list Event) :
  invocations (t1 ++ t2) = invocations t1 ++ invocations t2.
Proof. apply omap_app. Qed.

Lemma registerSession_router t sessionId proxy w :
  router (registerSession t sessionId proxy w)
  = set_sessions
      (JSMap.set sessionId
         {| target := t; callbacks := []; proxyConnection := proxy |}
         (_sessions (router w))) (router w).
Proof.
  unfold registerSession. destruct proxy; [|done].
  by destruct (existsb _ _).
Qed.

Lemma registerSession_timers t sessionId proxy w :
  timers (registerSession t sessionId proxy w) = timers w.
Proof.
  unfold registerSession. destruct proxy; [|done].
  by destruct (existsb _ _).
Qed.

Lemma registerSession_trace t sessionId proxy w :
  exists text,
    trace (registerSession t sessionId proxy w) = trace w ++ map EvConsoleError text.
Proof.
  unfold registerSession. destruct proxy as [c|].
  - destruct (existsb _ _); simpl.
    + by eexists [_].
    + exists []. simpl. by rewrite app_nil_r.
  - exists []. simpl. by rewrite app_nil_r.
Qed.

Lemma scriptsRun_console tr text :
  scriptsRun (tr ++ map EvConsoleError text) = scriptsRun tr.
Proof.
  rewrite scriptsRun_app. induction text as [|x text IH]; simpl.
  - apply app_nil_r.
  - done.
Qed.

Lemma invocations_console tr text :
  invocations (tr ++ map EvConsoleError text) = invocations tr.
Proof.
  rewrite invocations_app. induction text as [|x text IH]; simpl.
  - apply app_nil_r.
  - done.
Qed.

Lemma unregisterSession_router sessionId w :
  router (unregisterSession sessionId w)
  = set_sessions (JSMap.delete sessionId (_sessions (router w))) (router w).
Proof.
  unfold unregisterSession.
  destruct (JSMap.get sessionId _) as [session|] eqn:Hget.
  - by rewrite dispatchUnregisterSessionError_all.
  - rewrite JSMapFacts.delete_fresh by done. by rewrite set_sessions_id.
Qed.

Lemma unregisterSession_trace sessionId w :
  trace (unregisterSession sessionId w) = trace w.
Proof.
  unfold unregisterSession. destruct (JSMap.get sessionId _); [|done].
  by rewrite dispatchUnregisterSessionError_all.
Qed.

Lemma sendMessage_pendingScripts sessionId domain method params cb w :
  _pendingScripts (router (sendMessage sessionId domain method params cb w))
  = _pendingScripts (router w).
Proof. unfold sendMessage. by destruct (JSMap.get sessionId _). Qed.

Lemma sendMessage_trace sessionId domain method params cb w :
  exists out,
    trace (sendMessage sessionId domain method params cb w)
    = trace w ++ map EvSendRawMessage out.
Proof.
  unfold sendMessage. destruct (JSMap.get sessionId _); simpl.
  - by eexists [_].
  - exists []. simpl. by rewrite app_nil_r.
Qed.

Lemma scriptsRun_sendRaw tr out :
  scriptsRun (tr ++ map EvSendRawMessage out) = scriptsRun tr.
Proof.
  rewrite scriptsRun_app. induction out as [|x out IH]; simpl.
  - apply app_nil_r.
  - done.
Qed.

Lemma invocations_sendRaw tr out :
  invocations (tr ++ map EvSendRawMessage out) = invocations tr.
Proof.
  rewrite invocations_app. induction out as [|x out IH]; simpl.
  - apply app_nil_r.
  - done.
Qed.

Lemma run_call_scriptsRun c w :
  scriptsRun (trace (run_call c w)) = scriptsRun (trace w).
Proof.
  destruct c as [t sid proxy|sid|sid domain method params cb|script];
    cbn [run_call queuedByCall].
  - destruct (registerSession_trace t sid proxy w) as [text ->].
    apply scriptsRun_console.
  - by rewrite unregisterSession_trace.
  - destruct (sendMessage_trace sid domain method params cb w) as [out ->].
    apply scriptsRun_sendRaw.
  - by destruct script.
Qed.

Lemma run_call_invocations c w :
  invocations (trace (run_call c w)) = invocations (trace w).
Proof.
  destruct c as [t sid proxy|sid|sid domain method params cb|script];
    cbn [run_call queuedByCall].
  - destruct (registerSession_trace t sid proxy w) as [text ->].
    apply invocations_console.
  - by rewrite unregisterSession_trace.
  - destruct (sendMessage_trace sid domain method params cb w) as [out ->].
    apply invocations_sendRaw.
  - by destruct script.
Qed.

Lemma run_call_pendingScripts c w :
  _pendingScripts (router (run_call c w))
  = _pendingScripts (router w) ++ queuedByCall c.
Proof.
  destruct c as [t sid proxy|sid|sid domain method params cb|script];
    cbn [run_call queuedByCall].
  - rewrite registerSession_router. simpl. by rewrite app_nil_r.
  - rewrite unregisterSession_router. simpl. by rewrite app_nil_r.
  - rewrite sendMessage_pendingScripts. by rewrite app_nil_r.
  - destruct script; simpl; [done | by rewrite app_nil_r].
Qed.

Lemma run_calls_scripts (cs : list Call) (w : World) :
  let w' := fold_left (fun w c => run_call c w) cs w in
  scriptsRun (trace w') = scriptsRun (trace w) /\
  _pendingScripts (router w')
  = _pendingScripts (router w) ++ flat_map queuedByCall cs.
Proof.
  revert w. induction cs as [|c cs IH]; intros w; simpl.
  - by rewrite app_nil_r.
  - destruct (IH (run_call c w)) as [Ht Hp]. simpl in Ht, Hp.
    rewrite Ht, Hp, run_call_scriptsRun, run_call_pendingScripts.
    by rewrite <- app_assoc.
Qed.

Lemma run_script_scripts (s : Script) (w : World) :
  scriptsRun (trace (run_script s w)) = scriptsRun (trace w) ++ [script_id s] /\
  _pendingScripts (router (run_script s w))
  = _pendingScripts (router w) ++ queuedBy s.
Proof.
  unfold run_script.
  destruct (run_calls_scripts (script_body s) (emit (EvScript (script_id s)) w))
    as [Ht Hp].
  simpl in Ht, Hp. rewrite Ht, Hp. by rewrite scriptsRun_app.
Qed.

Lemma run_scripts_scripts (ss : list Script) (w : World) :
  let w' := fold_left (fun w s => run_script s w) ss w in
  scriptsRun (trace w') = scriptsRun (trace w) ++ map script_id ss /\
  _pendingScripts (router w')
  = _pendingScripts (router w) ++ flat_map queuedBy ss.
Proof.
  revert w. induction ss as [|s ss IH]; intros w; simpl.
  - by rewrite !app_nil_r.
  - destruct (IH (run_script s w)) as [Ht Hp]. simpl in Ht, Hp.
    destruct (run_script_scripts s w) as [Ht1 Hp1].
    rewrite Ht, Hp, Ht1, Hp1. by rewrite <- !app_assoc.
Qed.

(** ** The drain barrier *)

(** C7. [_deprecatedRunAfterPendingDispatches(script)] appends the script to
    the queue and schedules a timer.  When the timer fires while requests
    other than long-polling ones are outstanding, it only schedules itself
    again: the router and the trace are unchanged.  When it fires with none
    outstanding, the scripts that were in the queue are called once each in
    queue order, and the queue then holds exactly the scripts that those
    scripts queued while running, in the order they queued them: none of
    these is called in this pass. *)
Theorem drain_barrier_fifo_once (w : World) :
  (forall s,
     _deprecatedRunAfterPendingDispatches (Some s) w
     = {| router :=
            set_pendingScripts (_pendingScripts (router w) ++ [s]) (router w);
          timers := timers w ++ [TaskRunAfterPendingDispatches];
          trace := trace w |}) /\
  (_hasOutstandingNonLongPollingRequests (router w) = true ->
     run_task TaskRunAfterPendingDispatches w
     = {| router := router w;
          timers := timers w ++ [TaskRunAfterPendingDispatches];
          trace := trace w |}) /\
  (_hasOutstandingNonLongPollingRequests (router w) = false ->
     let w' := run_task TaskRunAfterPendingDispatches w in
     scriptsRun (trace w')
     = scriptsRun (trace w) ++ map script_id (_pendingScripts (router w)) /\
     _pendingScripts (router w')
     = flat_map queuedBy (_pendingScripts (router w))).
Proof.
  split; [done|]. split.
  - intros Hout. unfold run_task. by rewrite Hout.
  - intros Hout w'. unfold w', run_task, _executeAfterPendingDispatches.
    rewrite Hout. simpl.
    destruct (run_scripts_scripts (_pendingScripts (router w))
                (with_router (set_pendingScripts []) w)) as [Ht Hp].
    simpl in Ht, Hp. by rewrite Ht, Hp.
Qed.

(** ** Incoming messages and proxy connections *)

Lemma forwardToProxies_spec (m : Message) (ss : list Session) (b : bool)
    (w : World) :
  forwardToProxies m ss b w
  = (b || existsb consumes ss,
     {| router := router w;
        timers := timers w;
        trace := trace w ++ flat_map (proxyEvents m) ss |}).
Proof.
  revert b w. induction ss as [|s ss IH]; intros b w; simpl.
  - rewrite orb_false_r, app_nil_r. by rewrite <- World_eta.
  - unfold consumes at 1, proxyEvents at 1, hasHandler.
    destruct (proxyConnection s) as [c|]; [|by rewrite IH].
    destruct (_onMessage c) as [h|]; rewrite IH; simpl.
    + rewrite orb_true_r. by rewrite <- app_assoc.
    + by rewrite <- app_assoc.
Qed.

Lemma forwarded_proxyEvents (m : Message) (ss : list Session) :
  forwarded (flat_map (proxyEvents m) ss)
  = map (fun c => (c, m)) (List.filter hasHandler (omap proxyConnection ss)).
Proof.
  induction ss as [|s ss IH]; simpl; [done|].
  unfold forwarded in *. rewrite omap_app, IH.
  unfold proxyEvents, hasHandler.
  destruct (proxyConnection s) as [c|]; simpl; [|done].
  by destruct (_onMessage c) as [h|].
Qed.

Lemma set_same {K V : Type} `{EqDecision K} (k : K) (v : V) (m : list (K * V)) :
  JSMap.get k m = Some v -> JSMap.set k v m = m.
Proof.
  intros Hget. destruct (JSMapFacts.get_Some_split k v m Hget)
    as (m1 & m2 & Hm & Hset & _).
  by rewrite Hset, <- Hm.
Qed.

Section OnMessageFacts.
Variable NodeURL_patch : Message -> Message.

Lemma onMessage_matched m w session id c :
  matches NodeURL_patch m w session id c ->
  let m' := received NodeURL_patch session m in
  let w' := onMessage NodeURL_patch m w in
  router w' = answered (default "" (msg_sessionId m)) session id (router w) /\
  trace w' = trace w
    ++ flat_map (proxyEvents m) (JSMap.values (_sessions (router w)))
    ++ [EvCallback (callback c) (or_null (msg_error m')) (or_null (msg_result m'))] /\
  (timers w' = timers w \/
   timers w' = timers w ++ [TaskRunAfterPendingDispatches]).
Proof.
  intros (Hs & Hp & Hid & Hc) m' w'. unfold w', onMessage.
  rewrite forwardToProxies_spec. cbn [router].
  rewrite Hs, Hp. unfold received in Hid. rewrite Hid, Hc.
  match goal with |- context [if ?b then _ else _] =>
    destruct b end; simpl; rewrite <- app_assoc;
    unfold answered; rewrite Hp; (split; [done | split; [done | auto]]).
Qed.

(** Any other message leaves the router, the timers and the callbacks
    alone. *)
Lemma onMessage_unmatched m w :
  (forall session id c, ~ matches NodeURL_patch m w session id c) ->
  let w' := onMessage NodeURL_patch m w in
  router w' = router w /\ timers w' = timers w /\
  invocations (trace w') = invocations (trace w) /\
  scriptsRun (trace w') = scriptsRun (trace w).
Proof.
  intros Hno w'. unfold w', onMessage.
  rewrite forwardToProxies_spec. cbn [router].
  assert (Hpe :
    invocations (flat_map (proxyEvents m)
                   (JSMap.values (_sessions (router w)))) = [] /\
    scriptsRun (flat_map (proxyEvents m)
                   (JSMap.values (_sessions (router w)))) = []).
  { induction (JSMap.values (_sessions (router w))) as [|s ss IH]; simpl.
    - done.
    - rewrite invocations_app, scriptsRun_app.
      destruct IH as [-> ->]. rewrite !app_nil_r.
      unfold proxyEvents.
      destruct (proxyConnection s) as [c|]; [|done].
      by destruct (_onMessage c). }
  destruct Hpe as [Hpi Hps].
  destruct (JSMap.get (default "" (msg_sessionId m)) (_sessions (router w)))
    as [session|] eqn:Hs.
  2:{ destruct (existsb consumes _); simpl;
        rewrite ?invocations_app, ?scriptsRun_app; simpl;
        rewrite ?Hpi, ?Hps, ?app_nil_r; auto. }
  destruct (proxyConnection session) as [pc|] eqn:Hp.
  { simpl. rewrite ?invocations_app, ?scriptsRun_app, ?Hpi, ?Hps, ?app_nil_r.
    auto. }
  destruct (msg_id (if _needsNodeJSPatching (target session)
                    then NodeURL_patch m else m)) as [id|] eqn:Hid.
  - destruct (JSMap.get id (callbacks session)) as [c|] eqn:Hc.
    { exfalso. apply (Hno session id c). by repeat split. }
    assert (Hsame : set_sessions
              (JSMap.set (default "" (msg_sessionId m))
                 {| target := target session;
                    callbacks := JSMap.delete id (callbacks session);
                    proxyConnection := None |}
                 (_sessions (router w))) (router w) = router w).
    { rewrite JSMapFacts.delete_fresh by done.
      rewrite set_same; [apply set_sessions_id|].
      rewrite Hs, <- Hp. by destruct session. }
    destruct (existsb consumes _); simpl; rewrite Hsame;
      rewrite ?invocations_app, ?scriptsRun_app; simpl;
      rewrite ?Hpi, ?Hps, ?app_nil_r; auto.
  - destruct (msg_method _); simpl;
      rewrite ?invocations_app, ?scriptsRun_app; simpl;
      rewrite ?Hpi, ?Hps, ?app_nil_r; auto.
Qed.

Lemma matches_dec m w :
  (exists session id c, matches NodeURL_patch m w session id c) \/
  (forall session id c, ~ matches NodeURL_patch m w session id c).
Proof.
  unfold matches.
  destruct (JSMap.get (default "" (msg_sessionId m)) (_sessions (router w)))
    as [session|] eqn:Hs; [|right; intros ??? (? & _); done].
  destruct (proxyConnection session) as [pc|] eqn:Hp.
  { right. intros s' ?? (? & ? & _). congruence. }
  destruct (msg_id (received NodeURL_patch session m)) as [id|] eqn:Hid.
  2:{ right. intros s' ?? ([= <-] & ? & ? & _). congruence. }
  destruct (JSMap.get id (callbacks session)) as [c|] eqn:Hc.
  - left. by exists session, id, c.
  - right. intros s' ?? ([= <-] & ? & ? & ?). congruence.
Qed.
End OnMessageFacts.

(** C6, as amended.  [_onMessage] starts with the proxy loop: in the order of
    the sessions, the message is handed unchanged to each proxy connection
    that has an [_onMessage] handler, and for each proxy connection without
    one a protocol error is reported instead.  Nothing is handed to a proxy
    after the loop.  If some proxy connection took the message, neither the
    wrong-session-id nor the wrong-id protocol error is reported for it.  If
    none did, and the session of the message exists, has no proxy connection
    and has no pending callback under the id of the message, the wrong-id
    protocol error is reported. *)
Theorem onMessage_proxy_fanout (NodeURL_patch : Message -> Message)
    (m : Message) (w : World) :
  let ss := JSMap.values (_sessions (router w)) in
  let w' := onMessage NodeURL_patch m w in
  exists handling,
    trace w' = trace w ++ flat_map (proxyEvents m) ss ++ handling /\
    forwarded (flat_map (proxyEvents m) ss)
    = map (fun c => (c, m)) (List.filter hasHandler (omap proxyConnection ss)) /\
    (forall s c, s ∈ ss -> proxyConnection s = Some c -> _onMessage c = None ->
       EvProtocolError noOnMessageError m ∈ flat_map (proxyEvents m) ss) /\
    forwarded handling = [] /\
    (existsb consumes ss = true ->
       forall text m', EvProtocolError text m' ∈ handling ->
         text <> wrongSessionIdError /\ text <> wrongIdError) /\
    (forall session id,
       JSMap.get (default "" (msg_sessionId m)) (_sessions (router w))
         = Some session ->
       proxyConnection session = None ->
       msg_id (received NodeURL_patch session m) = Some id ->
       JSMap.get id (callbacks session) = None ->
       existsb consumes ss = false ->
       handling
       = [EvProtocolError wrongIdError (received NodeURL_patch session m)]).
Proof.
  intros ss w'.
  assert (Hnoh : forall s c, s ∈ ss -> proxyConnection s = Some c ->
            _onMessage c = None ->
            EvProtocolError noOnMessageError m ∈ flat_map (proxyEvents m) ss).
  { intros s c Hin Hc Hh. apply list_elem_of_In, in_flat_map.
    exists s. split; [by apply list_elem_of_In|].
    unfold proxyEvents. rewrite Hc, Hh. by left. }
  pose proof (forwarded_proxyEvents m ss) as Hfw.
  unfold w', onMessage. rewrite forwardToProxies_spec. cbn [router orb].
  fold ss. unfold received.
  destruct (JSMap.get (default "" (msg_sessionId m)) (_sessions (router w)))
    as [session|] eqn:Hs.
  2:{ destruct (existsb consumes ss) eqn:Hcons.
      - exists []. simpl. rewrite app_nil_r.
        split; [done|]. split; [done|]. split; [done|]. split; [done|].
        split; [|done].
        intros _ ?? Hin. by apply elem_of_nil in Hin.
      - eexists [_]. simpl. rewrite <- app_assoc.
        split; [done|]. split; [done|]. split; [done|]. split; [done|].
        split; done. }
  destruct (proxyConnection session) as [pc|] eqn:Hp.
  { exists []. simpl. rewrite app_nil_r.
    split; [done|]. split; [done|]. split; [done|]. split; [done|].
    split.
    - intros _ ?? Hin. by apply elem_of_nil in Hin.
    - intros s' id' [= <-]. congruence. }
  destruct (msg_id (if _needsNodeJSPatching (target session)
                    then NodeURL_patch m else m)) as [id|] eqn:Hid.
  - destruct (JSMap.get id (callbacks session)) as [c|] eqn:Hc.
    + eexists [_].
      split.
      { match goal with |- context [if ?b then _ else _] => destruct b end;
          simpl; by rewrite <- app_assoc. }
      split; [done|]. split; [done|]. split; [done|]. split.
      * intros _ text m' Hin. apply list_elem_of_singleton in Hin. done.
      * intros s' id' [= <-] _ Hid' Hget. rewrite Hid in Hid'. congruence.
    + destruct (existsb consumes ss) eqn:Hcons.
      * exists []. simpl. rewrite app_nil_r.
        split; [done|]. split; [done|]. split; [done|]. split; [done|].
        split; [|done].
        intros _ ?? Hin. by apply elem_of_nil in Hin.
      * eexists [_]. simpl. rewrite <- app_assoc.
        split; [done|]. split; [done|]. split; [done|]. split; [done|].
        split; [done|].
        by intros s' id' [= <-] _ _ _ _.
  - destruct (msg_method _) as [meth|] eqn:Hm.
    + eexists [_]. simpl. rewrite <- app_assoc.
      split; [done|]. split; [done|]. split; [done|]. split; [done|]. split.
      * intros _ text m' Hin. apply list_elem_of_singleton in Hin. done.
      * intros s' id' [= <-] _ Hid'. rewrite Hid in Hid'. congruence.
    + eexists [_]. simpl. rewrite <- app_assoc.
      split; [done|]. split; [done|]. split; [done|]. split; [done|]. split.
      * intros _ text m' Hin. apply list_elem_of_singleton in Hin.
        injection Hin as -> ->. by split.
      * intros s' id' [= <-] _ Hid'. rewrite Hid in Hid'. congruence.
Qed.

(** ** Sending and answering *)

Lemma sendMessage_registered sessionId domain method params cb w session :
  JSMap.get sessionId (_sessions (router w)) = Some session ->
  let r := router w in
  sendMessage sessionId domain method params cb w
  = {| router :=
         set_sessions
           (JSMap.set sessionId
              {| target := target session;
                 callbacks :=
                   JSMap.set (_lastMessageId r)
                     {| callback := cb; method := method |} (callbacks session);
                 proxyConnection := proxyConnection session |}
              (_sessions r))
           (set_counters (_lastMessageId r + 1) (_pendingResponsesCount r + 1)
              (if bool_decide (method ∈ LongPollingMethods)
               then _pendingLongPollingMessageIds r ∪ {[ _lastMessageId r ]}
               else _pendingLongPollingMessageIds r) r);
       timers := timers w;
       trace := trace w
         ++ [EvSendRawMessage
               {| out_id := _lastMessageId r;
                  out_method := method;
                  out_params := params;
                  out_sessionId :=
                    if decide (sessionId = "") then None else Some sessionId |}] |}.
Proof. intros Hs r. subst r. unfold sendMessage. cbv zeta. by rewrite Hs. Qed.

(** A send to a session that is not registered is dropped: only the
    counters move. *)
Lemma sendMessage_dropped sessionId domain method params cb w :
  JSMap.get sessionId (_sessions (router w)) = None ->
  let r := router w in
  sendMessage sessionId domain method params cb w
  = {| router :=
         set_counters (_lastMessageId r + 1) (_pendingResponsesCount r + 1)
           (if bool_decide (method ∈ LongPollingMethods)
            then _pendingLongPollingMessageIds r ∪ {[ _lastMessageId r ]}
            else _pendingLongPollingMessageIds r) r;
       timers := timers w;
       trace := trace w |}.
Proof. intros Hs r. subst r. unfold sendMessage. cbv zeta. by rewrite Hs. Qed.





Section Answering.
Variable NodeURL_patch : Message -> Message.


End Answering.

(** ** Replies find their callbacks in any order *)


Lemma proxyEvents_quiet (m : Message) (ss : list Session) :
  invocations (flat_map (proxyEvents m) ss) = [] /\
  scriptsRun (flat_map (proxyEvents m) ss) = [].
Proof.
  induction ss as [|s ss [IHi IHs]]; simpl; [done|].
  rewrite invocations_app, scriptsRun_app, IHi, IHs, !app_nil_r.
  unfold proxyEvents. destruct (proxyConnection s) as [c|]; [|done].
  by destruct (_onMessage c).
Qed.




(** ** The pending calls of a router and its counters *)

Lemma callsOf_app (l1 l2 : list (string * Session)) :
  callsOf (l1 ++ l2) = callsOf l1 ++ callsOf l2.
Proof. apply flat_map_app. Qed.

Lemma callsOf_set_present sid s ss :
  JSMap.get sid ss = Some s ->
  exists C1 C2,
    callsOf ss = C1 ++ callbacks s ++ C2 /\
    (forall s', callsOf (JSMap.set sid s' ss) = C1 ++ callbacks s' ++ C2) /\
    callsOf (JSMap.delete sid ss) `sublist_of` C1 ++ C2.
Proof.
  intros Hget.
  destruct (JSMapFacts.get_Some_split sid s ss Hget)
    as (l1 & l2 & -> & Hset & Hdel).
  exists (callsOf l1), (callsOf l2). split; [by rewrite callsOf_app|].
  split; [intros s'; by rewrite Hset, callsOf_app|].
  rewrite Hdel, callsOf_app. apply sublist_app; [done|].
  clear. induction l2 as [|[k v] l2 IH]; simpl; [done|].
  destruct (decide (sid = k)); simpl.
  - by apply sublist_inserts_l.
  - by apply sublist_app.
Qed.

Lemma callsOf_set_fresh sid s' ss :
  JSMap.get sid ss = None ->
  callsOf (JSMap.set sid s' ss) = callsOf ss ++ callbacks s'.
Proof.
  intros Hget. rewrite JSMapFacts.set_fresh by done.
  rewrite callsOf_app. simpl. by rewrite app_nil_r.
Qed.



Lemma Inv_weaken n n' r : Inv n r -> (n' <= n)%Z -> Inv n' r.
Proof. intros [H1 H2 H3 H4 H5] Hn. split; try done. lia. Qed.

(** Calls are dropped and nothing else changes: the invariant stays, and it
    gains one if a dropped call was not tracked as long-polling. *)
Lemma Inv_drop n r r' :
  Inv n r ->
  _lastMessageId r' = _lastMessageId r ->
  _pendingResponsesCount r' = _pendingResponsesCount r ->
  _pendingLongPollingMessageIds r' = _pendingLongPollingMessageIds r ->
  storedCalls r' `sublist_of` storedCalls r ->
  Inv n r' /\
  (forall k, k ∈ storedIds r -> k ∉ storedIds r' ->
     k ∉ _pendingLongPollingMessageIds r -> Inv (n + 1) r').
Proof.
  intros [H1 H2 H3 H4 H5] Hlast Hcount Hlp Hsub.
  assert (Hids : storedIds r' `sublist_of` storedIds r).
  { unfold storedIds. by apply fmap_sublist. }
  assert (Hin : forall k, k ∈ storedIds r' -> k ∈ storedIds r).
  { intros k. by apply sublist_subseteq. }
  assert (Hout : outstanding r' = outstanding r).
  { unfold outstanding. by rewrite Hcount, Hlp. }
  assert (Hbase :
            NoDup (storedIds r') /\
            (forall k, k ∈ storedIds r' -> (k < _lastMessageId r')%Z) /\
            (forall k, k ∈ _pendingLongPollingMessageIds r' ->
               (k < _lastMessageId r')%Z) /\
            (forall k c, (k, c) ∈ storedCalls r' ->
               k ∈ _pendingLongPollingMessageIds r' ->
               method c ∈ LongPollingMethods)).
  { split; [by eapply sublist_NoDup|].
    split; [intros k Hk; rewrite Hlast; auto|].
    split; [intros k Hk; rewrite Hlast; rewrite Hlp in Hk; auto|].
    intros k c Hk Hl. rewrite Hlp in Hl. apply (H4 k c); [|done].
    by apply (sublist_subseteq _ _ Hsub). }
  destruct Hbase as (B1 & B2 & B3 & B4).
  split.
  - split; try done. rewrite Hout.
    assert (Hpn : pendingNormal r' ⊆ pendingNormal r).
    { unfold pendingNormal. rewrite Hlp. intros k.
      rewrite !elem_of_difference, !elem_of_list_to_set.
      intros [Hk ?]. split; auto. }
    pose proof (subseteq_size _ _ Hpn). lia.
  - intros k Hk Hk' Hklp. split; try done. rewrite Hout.
    assert (Hpn : pendingNormal r' ⊆ pendingNormal r ∖ {[ k ]}).
    { unfold pendingNormal. rewrite Hlp. intros x.
      rewrite !elem_of_difference, !elem_of_list_to_set, elem_of_singleton.
      intros [Hx ?]. split; [auto|]. intros ->. done. }
    pose proof (subseteq_size _ _ Hpn).
    assert (Hsing : ({[ k ]} : gset Z) ⊆ pendingNormal r).
    { apply singleton_subseteq_l. unfold pendingNormal.
      rewrite elem_of_difference, elem_of_list_to_set. done. }
    assert (size (pendingNormal r ∖ {[ k ]}) = (size (pendingNormal r) - 1)%nat).
    { by rewrite size_difference, size_singleton. }
    pose proof (subseteq_size _ _ Hsing) as Hpos.
    rewrite size_singleton in Hpos.
    lia.
Qed.

Lemma Inv_set_pendingScripts n ps r : Inv n r -> Inv n (set_pendingScripts ps r).
Proof. intros [H1 H2 H3 H4 H5]. by split. Qed.

Lemma storedCalls_set_sessions ss r :
  storedCalls (set_sessions ss r) = callsOf ss.
Proof. done. Qed.

Lemma Inv_registerSession n t sid proxy w :
  Inv n (router w) -> Inv n (router (registerSession t sid proxy w)).
Proof.
  intros HI. rewrite registerSession_router.
  apply (Inv_drop n (router w)); try done.
  rewrite storedCalls_set_sessions. unfold storedCalls.
  destruct (JSMap.get sid (_sessions (router w))) as [s|] eqn:Hs.
  - destruct (callsOf_set_present sid s _ Hs) as (C1 & C2 & -> & -> & _).
    simpl. apply sublist_app; [done|]. by apply sublist_inserts_l.
  - rewrite callsOf_set_fresh by done. simpl. by rewrite app_nil_r.
Qed.

Lemma unregisterSession_sublist sid w :
  storedCalls (router (unregisterSession sid w))
    `sublist_of` storedCalls (router w).
Proof.
  rewrite unregisterSession_router, storedCalls_set_sessions. unfold storedCalls.
  destruct (JSMap.get sid (_sessions (router w))) as [s|] eqn:Hs.
  - destruct (callsOf_set_present sid s _ Hs) as (C1 & C2 & -> & _ & Hd).
    etrans; [exact Hd|]. apply sublist_app; [done|]. by apply sublist_inserts_l.
  - by rewrite JSMapFacts.delete_fresh.
Qed.

Lemma Inv_unregisterSession n sid w :
  Inv n (router w) -> Inv n (router (unregisterSession sid w)).
Proof.
  intros HI. apply (Inv_drop n (router w)); try done;
    try (by rewrite unregisterSession_router).
  apply unregisterSession_sublist.
Qed.


(** A send: the next id is used, the counters move, and the call is stored
    ([new = [(id, c)]]) or dropped ([new = []]). *)
Lemma Inv_send n r r' (c : CallbackWithDebugInfo)
    (new : list (Z * CallbackWithDebugInfo)) :
  Inv n r ->
  new = [] \/ new = [(_lastMessageId r, c)] ->
  storedCalls r' ≡ₚ new ++ storedCalls r ->
  _lastMessageId r' = (_lastMessageId r + 1)%Z ->
  _pendingResponsesCount r' = (_pendingResponsesCount r + 1)%Z ->
  _pendingLongPollingMessageIds r'
  = (if bool_decide (method c ∈ LongPollingMethods)
     then _pendingLongPollingMessageIds r ∪ {[ _lastMessageId r ]}
     else _pendingLongPollingMessageIds r) ->
  Inv n r' /\
  (new = [] -> method c ∉ LongPollingMethods -> Inv (n + 1) r').
Proof.
  intros [H1 H2 H3 H4 H5] Hnew Hperm Hlast Hcount Hlp.
  set (id := _lastMessageId r) in *.
  assert (Hfresh : id ∉ storedIds r).
  { intros Hin. apply H2 in Hin. lia. }
  assert (Hfreshlp : id ∉ _pendingLongPollingMessageIds r).
  { intros Hin. apply H3 in Hin. lia. }
  assert (Hids : storedIds r' ≡ₚ map fst new ++ storedIds r).
  { unfold storedIds. by rewrite Hperm, fmap_app. }
  assert (Hnewid : forall k, k ∈ map fst new -> k = id).
  { intros k Hk. destruct Hnew as [->| ->]; simpl in Hk.
    - by apply elem_of_nil in Hk.
    - by apply list_elem_of_singleton in Hk. }
  assert (Hin : forall k, k ∈ storedIds r' -> k = id \/ k ∈ storedIds r).
  { intros k. rewrite Hids, elem_of_app. intros [Hk|Hk]; auto. }
  assert (B1 : NoDup (storedIds r')).
  { rewrite Hids. destruct Hnew as [->| ->]; simpl; [done|].
    by apply NoDup_cons. }
  assert (B2 : forall k, k ∈ storedIds r' -> (k < _lastMessageId r')%Z).
  { intros k Hk. rewrite Hlast. destruct (Hin k Hk) as [->|Hk'].
    - lia.
    - apply H2 in Hk'. lia. }
  assert (B3 : forall k, k ∈ _pendingLongPollingMessageIds r' ->
                 (k < _lastMessageId r')%Z).
  { intros k. rewrite Hlp, Hlast. case_bool_decide.
    - rewrite elem_of_union, elem_of_singleton. intros [Hk| ->]; [|lia].
      apply H3 in Hk. lia.
    - intros Hk. apply H3 in Hk. lia. }
  assert (B4 : forall k c', (k, c') ∈ storedCalls r' ->
                 k ∈ _pendingLongPollingMessageIds r' ->
                 method c' ∈ LongPollingMethods).
  { intros k c'. rewrite Hperm, elem_of_app, Hlp. intros [Hk|Hk] Hl.
    - destruct Hnew as [->| ->]; [by apply elem_of_nil in Hk|].
      apply list_elem_of_singleton in Hk. injection Hk as -> ->.
      case_bool_decide; [done|]. done.
    - assert (k ∈ storedIds r).
      { unfold storedIds. apply list_elem_of_fmap. by exists (k, c'). }
      apply (H4 k c' Hk). case_bool_decide; [|done].
      apply elem_of_union in Hl as [Hl|Hl]; [done|].
      apply elem_of_singleton in Hl. by subst. }
  assert (Hset : forall k, k ∈ pendingNormal r' ->
            k ∈ pendingNormal r \/
            (k = id /\ new <> [] /\ method c ∉ LongPollingMethods)).
  { intros k. unfold pendingNormal.
    rewrite !elem_of_difference, !elem_of_list_to_set, Hids, elem_of_app, Hlp.
    intros [[Hk|Hk] Hl].
    - right. pose proof (Hnewid k Hk) as ->. split; [done|].
      split; [intros ->; by apply elem_of_nil in Hk|].
      intros HLP. apply Hl. rewrite bool_decide_true by done.
      apply elem_of_union. right. by apply elem_of_singleton.
    - left. split; [done|]. intros Hl'. apply Hl.
      case_bool_decide; [|done]. apply elem_of_union. by left. }
  assert (Hsize : bool_decide (method c ∈ LongPollingMethods) = true ->
            size (_pendingLongPollingMessageIds r')
            = S (size (_pendingLongPollingMessageIds r))).
  { intros Hb. rewrite Hlp, Hb, size_union, size_singleton; [lia|].
    intros x Hx Hx'. apply elem_of_singleton in Hx'. by subst. }
  split.
  - split; try done. unfold outstanding. rewrite Hcount.
    unfold outstanding in H5.
    destruct (bool_decide (method c ∈ LongPollingMethods)) eqn:Hb.
    + rewrite Hsize by done.
      assert (Hpn : pendingNormal r' ⊆ pendingNormal r).
      { intros k Hk. destruct (Hset k Hk) as [?|(_ & _ & Hn)]; [done|].
        by apply bool_decide_eq_true in Hb. }
      pose proof (subseteq_size _ _ Hpn). lia.
    + rewrite Hlp.
      assert (Hpn : pendingNormal r' ⊆ pendingNormal r ∪ {[ id ]}).
      { intros k Hk. apply elem_of_union.
        destruct (Hset k Hk) as [?|(-> & _)]; [by left|].
        right. by apply elem_of_singleton. }
      pose proof (subseteq_size _ _ Hpn) as Hle.
      pose proof (size_union_alt (pendingNormal r) {[ id ]}) as Hu.
      assert (size (({[ id ]} : gset Z) ∖ pendingNormal r) <= 1)%nat.
      { etrans; [apply subseteq_size, (subseteq_difference_l _ _ _ (reflexivity _))|].
        by rewrite size_singleton. }
      lia.
  - intros -> Hm. split; try done. unfold outstanding. rewrite Hcount.
    unfold outstanding in H5.
    rewrite Hlp, bool_decide_false by done.
    assert (Hpn : pendingNormal r' ⊆ pendingNormal r).
    { intros k Hk. destruct (Hset k Hk) as [?|(_ & Hn & _)]; done. }
    pose proof (subseteq_size _ _ Hpn). lia.
Qed.

(** A response finds its callback: the call is removed and the counters are
    taken back. *)
Lemma Inv_answer n r r' (id : Z) :
  Inv n r ->
  storedCalls r' `sublist_of` storedCalls r ->
  id ∈ storedIds r -> id ∉ storedIds r' ->
  _lastMessageId r' = _lastMessageId r ->
  _pendingResponsesCount r' = (_pendingResponsesCount r - 1)%Z ->
  _pendingLongPollingMessageIds r' = _pendingLongPollingMessageIds r ∖ {[ id ]} ->
  Inv n r'.
Proof.
  intros [H1 H2 H3 H4 H5] Hsub Hid Hid' Hlast Hcount Hlp.
  assert (Hids : storedIds r' `sublist_of` storedIds r).
  { unfold storedIds. by apply fmap_sublist. }
  assert (Hin : forall k, k ∈ storedIds r' -> k ∈ storedIds r).
  { intros k. by apply sublist_subseteq. }
  split.
  - by eapply sublist_NoDup.
  - intros k Hk. rewrite Hlast. auto.
  - intros k. rewrite Hlp, Hlast, elem_of_difference. intros [Hk _]. auto.
  - intros k c Hk. rewrite Hlp, elem_of_difference. intros [Hl _].
    apply (H4 k c); [|done]. by apply (sublist_subseteq _ _ Hsub).
  - unfold outstanding in *. rewrite Hcount, Hlp.
    destruct (decide (id ∈ _pendingLongPollingMessageIds r)) as [Hl|Hl].
    + assert (Hsing : ({[ id ]} : gset Z) ⊆ _pendingLongPollingMessageIds r)
        by by apply singleton_subseteq_l.
      pose proof (subseteq_size _ _ Hsing) as Hpos.
      rewrite size_singleton in Hpos.
      rewrite size_difference, size_singleton by done.
      assert (Hpn : pendingNormal r' ⊆ pendingNormal r).
      { unfold pendingNormal. rewrite Hlp. intros k.
        rewrite !elem_of_difference, !elem_of_list_to_set, elem_of_singleton.
        intros [Hk Hn]. split; [auto|]. intros Hkl. apply Hn.
        split; [done|]. intros ->. done. }
      pose proof (subseteq_size _ _ Hpn). lia.
    + assert (Hsame : _pendingLongPollingMessageIds r ∖ {[ id ]}
                      = _pendingLongPollingMessageIds r).
      { apply set_eq. intros k. rewrite elem_of_difference, elem_of_singleton.
        split; [by intros [? _]|]. intros Hk. split; [done|].
        intros ->. done. }
      rewrite Hsame.
      assert (Hpn : pendingNormal r' ⊆ pendingNormal r ∖ {[ id ]}).
      { unfold pendingNormal. rewrite Hlp, Hsame. intros k.
        rewrite !elem_of_difference, !elem_of_list_to_set, elem_of_singleton.
        intros [Hk Hn]. split; [auto|]. intros ->. done. }
      assert (Hsing : ({[ id ]} : gset Z) ⊆ pendingNormal r).
      { apply singleton_subseteq_l. unfold pendingNormal.
        rewrite elem_of_difference, elem_of_list_to_set. done. }
      pose proof (subseteq_size _ _ Hpn) as Hle.
      pose proof (subseteq_size _ _ Hsing) as Hpos.
      rewrite size_singleton in Hpos.
      rewrite size_difference, size_singleton in Hle by done.
      lia.
Qed.

Lemma Inv_sendMessage n sid domain meth params cb w :
  Inv n (router w) ->
  Inv n (router (sendMessage sid domain meth params cb w)) /\
  (JSMap.get sid (_sessions (router w)) = None ->
   meth ∉ LongPollingMethods ->
   Inv (n + 1) (router (sendMessage sid domain meth params cb w))).
Proof.
  intros HI.
  set (c := {| callback := cb; method := meth |}).
  destruct (JSMap.get sid (_sessions (router w))) as [session|] eqn:Hs.
  - rewrite (sendMessage_registered _ _ _ _ _ _ _ Hs). cbn [router].
    split; [|done].
    eapply (Inv_send n (router w) _ c [(_lastMessageId (router w), c)]);
      try done; [by right|].
    rewrite storedCalls_set_sessions. unfold storedCalls.
    destruct (callsOf_set_present sid session _ Hs) as (C1 & C2 & HC & -> & _).
    simpl. rewrite HC.
    assert (Hfresh : JSMap.get (_lastMessageId (router w)) (callbacks session)
                     = None).
    { apply JSMapFacts.get_None_keys. intros Hin.
      destruct HI as [_ H2 _ _ _].
      assert (Hlt : (_lastMessageId (router w) < _lastMessageId (router w))%Z).
      { apply H2. unfold storedIds, storedCalls. rewrite HC, !fmap_app.
        apply elem_of_app. right. apply elem_of_app. by left. }
      lia. }
    rewrite JSMapFacts.set_fresh by done. fold c.
    rewrite <- (app_assoc (callbacks session)). simpl.
    rewrite (app_assoc C1 (callbacks session) C2).
    rewrite (app_assoc C1 (callbacks session) (_ :: C2)).
    symmetry. apply Permutation_middle.
  - rewrite (sendMessage_dropped _ _ _ _ _ _ Hs). cbn [router].
    destruct (Inv_send n (router w)
                (set_counters (_lastMessageId (router w) + 1)
                   (_pendingResponsesCount (router w) + 1)
                   (if bool_decide (meth ∈ LongPollingMethods)
                    then _pendingLongPollingMessageIds (router w)
                           ∪ {[ _lastMessageId (router w) ]}
                    else _pendingLongPollingMessageIds (router w))
                   (router w)) c [] HI) as [Ha Hb]; try done; [by left|].
    split; [done|]. intros _ Hm. by apply Hb.
Qed.

Section InvSteps.
Variable NodeURL_patch : Message -> Message.

Lemma Inv_onMessage n m w :
  Inv n (router w) -> Inv n (router (onMessage NodeURL_patch m w)).
Proof.
  intros HI. destruct (matches_dec NodeURL_patch m w)
    as [(session & id & c & Hm)|Hno].
  - destruct (onMessage_matched NodeURL_patch m w session id c Hm) as (-> & _).
    destruct Hm as (Hs & Hp & Hid & Hc).
    destruct (callsOf_set_present _ session _ Hs) as (C1 & C2 & HC & HC' & _).
    apply (Inv_answer n (router w) _ id); try done.
    + unfold answered, storedCalls. simpl. rewrite HC', HC. simpl.
      apply sublist_app; [done|]. apply sublist_app; [|done].
      apply JSMapFacts.delete_sublist.
    + unfold storedIds, storedCalls. rewrite HC, !fmap_app.
      apply elem_of_app. right. apply elem_of_app. left.
      by eapply JSMapFacts.get_Some_keys.
    + unfold answered, storedIds, storedCalls. simpl. rewrite HC'. simpl.
      destruct HI as [Hnd _ _ _ _]. unfold storedIds, storedCalls in Hnd.
      rewrite HC, !fmap_app in Hnd. rewrite !fmap_app.
      apply NoDup_app in Hnd as (_ & Hd1 & Hnd).
      apply NoDup_app in Hnd as (_ & Hd2 & _).
      assert (Hkk : id ∈ (callbacks session).*1)
        by by eapply JSMapFacts.get_Some_keys.
      rewrite !elem_of_app. intros [Hin|[Hin|Hin]].
      * apply (Hd1 id Hin). apply elem_of_app. by left.
      * by apply (JSMapFacts.keys_delete_notin id (callbacks session)).
      * by apply (Hd2 id Hkk).
  - destruct (onMessage_unmatched NodeURL_patch m w Hno) as (-> & _). done.
Qed.

Lemma Inv_run_call n c w :
  Inv n (router w) -> Inv n (router (run_call c w)).
Proof.
  intros HI.
  destruct c as [t sid proxy|sid|sid domain meth params cb|script];
    cbn [run_call].
  - by apply Inv_registerSession.
  - by apply Inv_unregisterSession.
  - by apply Inv_sendMessage.
  - destruct script; simpl; [|done]. by apply Inv_set_pendingScripts.
Qed.

Lemma Inv_run_calls n cs w :
  Inv n (router w) ->
  Inv n (router (fold_left (fun w c => run_call c w) cs w)).
Proof.
  revert w. induction cs as [|c cs IH]; intros w HI; simpl; [done|].
  apply IH. by apply Inv_run_call.
Qed.

Lemma Inv_run_scripts n ss w :
  Inv n (router w) ->
  Inv n (router (fold_left (fun w s => run_script s w) ss w)).
Proof.
  revert w. induction ss as [|s ss IH]; intros w HI; simpl; [done|].
  apply IH. unfold run_script. by apply Inv_run_calls.
Qed.

Lemma Inv_tick n w : Inv n (router w) -> Inv n (router (tick w)).
Proof.
  intros HI. unfold tick. destruct (timers w) as [|t ts]; [done|].
  destruct t as [|cb error]; simpl; [|done].
  destruct (_hasOutstandingNonLongPollingRequests (router w)) eqn:Hout;
    simpl; [done|].
  unfold _executeAfterPendingDispatches. simpl. rewrite Hout. simpl.
  apply Inv_run_scripts. simpl. by apply Inv_set_pendingScripts.
Qed.

Lemma Inv_step n i w : Inv n (router w) -> Inv n (router (step NodeURL_patch i w)).
Proof.
  destruct i as [c|m|]; simpl.
  - apply Inv_run_call.
  - apply Inv_onMessage.
  - apply Inv_tick.
Qed.

Lemma Inv_run n inputs w :
  Inv n (router w) -> Inv n (router (run NodeURL_patch inputs w)).
Proof.
  revert w. induction inputs as [|i rest IH]; intros w HI; simpl; [done|].
  apply IH. by apply Inv_step.
Qed.

Lemma Inv_newWorld connection : Inv 0 (router (newWorld connection)).
Proof.
  split; simpl.
  - constructor.
  - intros k Hk. by apply elem_of_nil in Hk.
  - intros k Hk. by apply elem_of_empty in Hk.
  - intros k c Hk. by apply elem_of_nil in Hk.
  - done.
Qed.

Lemma Reachable_Inv w : Reachable NodeURL_patch w -> Inv 0 (router w).
Proof. intros (connection & inputs & ->). apply Inv_run, Inv_newWorld. Qed.


End InvSteps.

(** ** The count of pending responses *)








(** ** Long-polling calls and the drain condition *)





(** ** Callbacks a router does not hold *)

Lemma scriptUses_body cb s :
  ~ scriptUses cb s -> Forall (fun c => ~ callUses cb c) (script_body s).
Proof.
  destruct s as [i body]. simpl.
  induction body as [|c body IH]; intros Hn; constructor.
  - intros Hc. apply Hn. by left.
  - apply IH. intros Hb. apply Hn. by right.
Qed.

Lemma elem_of_set {K V : Type} `{EqDecision K} (k : K) (v : V)
    (m : list (K * V)) (e : K * V) :
  e ∈ JSMap.set k v m -> e = (k, v) \/ e ∈ m.
Proof.
  induction m as [|[k' v'] m IH]; simpl.
  - intros He. apply list_elem_of_singleton in He. by left.
  - destruct (decide (k = k')) as [->|Hne].
    + rewrite !elem_of_cons. intros [->|He]; auto.
    + rewrite !elem_of_cons. intros [->|He]; [auto|].
      destruct (IH He); auto.
Qed.

Lemma callsOf_set_elem sid s' ss e :
  e ∈ callsOf (JSMap.set sid s' ss) -> e ∈ callbacks s' \/ e ∈ callsOf ss.
Proof.
  destruct (JSMap.get sid ss) as [s|] eqn:Hs.
  - destruct (callsOf_set_present sid s ss Hs) as (C1 & C2 & -> & -> & _).
    rewrite !elem_of_app. tauto.
  - rewrite callsOf_set_fresh by done. rewrite elem_of_app. tauto.
Qed.

Lemma registerSession_sublist t sid proxy w :
  storedCalls (router (registerSession t sid proxy w))
    `sublist_of` storedCalls (router w).
Proof.
  rewrite registerSession_router, storedCalls_set_sessions. unfold storedCalls.
  destruct (JSMap.get sid (_sessions (router w))) as [s|] eqn:Hs.
  - destruct (callsOf_set_present sid s _ Hs) as (C1 & C2 & -> & -> & _).
    simpl. apply sublist_app; [done|]. by apply sublist_inserts_l.
  - rewrite callsOf_set_fresh by done. simpl. by rewrite app_nil_r.
Qed.

Lemma storedCallbacks_sublist r r' cb :
  storedCalls r' `sublist_of` storedCalls r ->
  cb ∉ storedCallbacks r -> cb ∉ storedCallbacks r'.
Proof.
  intros Hsub Hn Hin. apply Hn. unfold storedCallbacks in *.
  by apply (sublist_subseteq _ _ (fmap_sublist _ _ _ Hsub)).
Qed.

Lemma timerCallbacks_app ts1 ts2 :
  timerCallbacks (ts1 ++ ts2) = timerCallbacks ts1 ++ timerCallbacks ts2.
Proof. apply omap_app. Qed.

Lemma Unheld_run_call cb c w :
  Unheld cb w -> ~ callUses cb c -> Unheld cb (run_call c w).
Proof.
  intros [Hs Ht Hp] Hc.
  destruct c as [t sid proxy|sid|sid domain meth params cb'|script];
    cbn [run_call].
  - split.
    + eapply storedCallbacks_sublist; [apply registerSession_sublist | done].
    + by rewrite registerSession_timers.
    + by rewrite registerSession_router.
  - split.
    + eapply storedCallbacks_sublist; [apply unregisterSession_sublist | done].
    + destruct (JSMap.get sid (_sessions (router w))) as [session|] eqn:Hget.
      * rewrite (unregisterSession_registered sid w session Hget). simpl.
        rewrite timerCallbacks_app, elem_of_app. intros [Hin|Hin]; [done|].
        apply Hs. unfold timerCallbacks in Hin.
        apply list_elem_of_omap in Hin as (tk & Htk & Hcb).
        apply list_elem_of_fmap in Htk as (c & -> & Hcin).
        simpl in Hcb. injection Hcb as <-.
        apply list_elem_of_fmap in Hcin as ([k c'] & -> & Hkc).
        unfold storedCallbacks. apply list_elem_of_fmap. exists (k, c').
        split; [done|].
        destruct (callsOf_set_present sid session _ Hget) as (C1 & C2 & HC & _).
        unfold storedCalls. rewrite HC, !elem_of_app. auto.
      * unfold unregisterSession. by rewrite Hget.
    + by rewrite unregisterSession_router.
  - simpl in Hc. split.
    + unfold storedCallbacks. intros Hin.
      apply list_elem_of_fmap in Hin as ([k c] & Hcb & Hkc). simpl in Hcb.
      assert (Hcases : c = {| callback := cb'; method := meth |} \/
                       (k, c) ∈ storedCalls (router w)).
      { unfold sendMessage in Hkc.
        destruct (JSMap.get sid (_sessions (router w))) as [session|] eqn:Hget;
          [|by right].
        simpl in Hkc. unfold storedCalls in Hkc. simpl in Hkc.
        apply callsOf_set_elem in Hkc as [Hkc|Hkc]; [|by right].
        simpl in Hkc. apply elem_of_set in Hkc as [[= -> ->]|Hkc]; [by left|].
        right. destruct (callsOf_set_present sid session _ Hget)
          as (C1 & C2 & HC & _).
        unfold storedCalls. rewrite HC, !elem_of_app. auto. }
      destruct Hcases as [->|Hold]; [by apply Hc|].
      apply Hs. unfold storedCallbacks. apply list_elem_of_fmap.
      by exists (k, c).
    + unfold sendMessage. by destruct (JSMap.get sid _).
    + by rewrite sendMessage_pendingScripts.
  - destruct script as [s|]; simpl in *.
    + split; simpl; try done.
      * rewrite timerCallbacks_app, elem_of_app. simpl.
        intros [?|Hin]; [done | by apply elem_of_nil in Hin].
      * apply Forall_app. split; [done|]. by constructor.
    + split; simpl; try done.
      rewrite timerCallbacks_app, elem_of_app. simpl.
      intros [?|Hin]; [done | by apply elem_of_nil in Hin].
Qed.

Lemma Unheld_run_calls cb cs w :
  Unheld cb w -> Forall (fun c => ~ callUses cb c) cs ->
  Unheld cb (fold_left (fun w c => run_call c w) cs w) /\
  invocations (trace (fold_left (fun w c => run_call c w) cs w))
  = invocations (trace w).
Proof.
  revert w. induction cs as [|c cs IH]; intros w Hu Hcs; simpl; [done|].
  apply Forall_cons in Hcs as [Hc Hcs].
  destruct (IH (run_call c w)) as [Hu' Hi']; [by apply Unheld_run_call | done |].
  split; [done|]. by rewrite Hi', run_call_invocations.
Qed.

Lemma Unheld_run_scripts cb ss w :
  Unheld cb w -> Forall (fun s => ~ scriptUses cb s) ss ->
  Unheld cb (fold_left (fun w s => run_script s w) ss w) /\
  invocations (trace (fold_left (fun w s => run_script s w) ss w))
  = invocations (trace w).
Proof.
  revert w. induction ss as [|s ss IH]; intros w Hu Hss; simpl; [done|].
  apply Forall_cons in Hss as [Hs Hss].
  destruct (Unheld_run_calls cb (script_body s) (emit (EvScript (script_id s)) w))
    as [Hu1 Hi1].
  { destruct Hu. by split. }
  { by apply scriptUses_body. }
  fold (run_script s w) in Hu1, Hi1.
  destruct (IH (run_script s w) Hu1 Hss) as [Hu' Hi'].
  split; [done|]. rewrite Hi', Hi1. simpl.
  rewrite invocations_app. simpl. by rewrite app_nil_r.
Qed.

Lemma invocationsOf_app cb t1 t2 :
  invocationsOf cb (t1 ++ t2) = invocationsOf cb t1 ++ invocationsOf cb t2.
Proof. unfold invocationsOf. by rewrite invocations_app, filter_app. Qed.

Lemma invocationsOf_same cb tr tr' :
  invocations tr' = invocations tr -> invocationsOf cb tr' = invocationsOf cb tr.
Proof. unfold invocationsOf. by intros ->. Qed.

Lemma invocationsOf_other cb cb' tr error result :
  cb' <> cb ->
  invocationsOf cb (tr ++ [EvCallback cb' error result]) = invocationsOf cb tr.
Proof.
  intros Hne. rewrite invocationsOf_app. unfold invocationsOf at 2. simpl.
  rewrite filter_cons, decide_False by done. rewrite filter_nil.
  apply app_nil_r.
Qed.

Section UnheldSteps.
Variable NodeURL_patch : Message -> Message.

Lemma Unheld_onMessage cb m w :
  Unheld cb w ->
  Unheld cb (onMessage NodeURL_patch m w) /\
  invocationsOf cb (trace (onMessage NodeURL_patch m w))
  = invocationsOf cb (trace w).
Proof.
  intros [Hs Ht Hp].
  destruct (matches_dec NodeURL_patch m w) as [(session & id & c & Hm)|Hno].
  - destruct (onMessage_matched NodeURL_patch m w session id c Hm)
      as (Hr & Htr & Htm).
    destruct Hm as (Hget & Hpx & Hid & Hc).
    destruct (callsOf_set_present _ session _ Hget) as (C1 & C2 & HC & HC' & _).
    assert (Hne : callback c <> cb).
    { intros <-. apply Hs. unfold storedCallbacks. apply list_elem_of_fmap.
      exists (id, c). split; [done|]. unfold storedCalls.
      rewrite HC, !elem_of_app. right. left.
      by apply JSMapFacts.get_Some_elem. }
    split.
    + split.
      * rewrite Hr. eapply storedCallbacks_sublist; [|exact Hs].
        unfold answered, storedCalls. simpl. rewrite HC', HC. simpl.
        apply sublist_app; [done|]. apply sublist_app; [|done].
        apply JSMapFacts.delete_sublist.
      * destruct Htm as [-> | ->]; [done|].
        rewrite timerCallbacks_app, elem_of_app. simpl.
        intros [?|Hin]; [done | by apply elem_of_nil in Hin].
      * by rewrite Hr.
    + rewrite Htr, app_assoc, invocationsOf_other by done.
      rewrite invocationsOf_app. unfold invocationsOf at 2.
      destruct (proxyEvents_quiet m (JSMap.values (_sessions (router w))))
        as [-> _]. rewrite filter_nil. apply app_nil_r.
  - destruct (onMessage_unmatched NodeURL_patch m w Hno) as (Hr & Htm & Hi & _).
    split; [split; by rewrite ?Hr, ?Htm|]. by apply invocationsOf_same.
Qed.

Lemma Unheld_tick cb w :
  Unheld cb w ->
  Unheld cb (tick w) /\
  invocationsOf cb (trace (tick w)) = invocationsOf cb (trace w).
Proof.
  intros Hu0. unfold tick.
  destruct (timers w) as [|t ts] eqn:Htimers; [done|].
  destruct Hu0 as [Hs Ht Hp]. rewrite Htimers in Ht.
  destruct t as [|cb' error]; simpl.
  - assert (Hu : Unheld cb {| router := router w; timers := ts; trace := trace w |})
      by by split.
    destruct (_hasOutstandingNonLongPollingRequests (router w)) eqn:Hout; simpl.
    + split; [|done]. split; simpl; try done.
      rewrite timerCallbacks_app, elem_of_app. simpl.
      intros [?|Hin]; [done | by apply elem_of_nil in Hin].
    + unfold _executeAfterPendingDispatches. simpl. rewrite Hout. simpl.
      destruct (Unheld_run_scripts cb (_pendingScripts (router w))
                  (with_router (set_pendingScripts [])
                     {| router := router w; timers := ts; trace := trace w |}))
        as [Hu' Hi']; [|done|].
      { split; simpl; try done. }
      split; [done|]. by apply invocationsOf_same.
  - simpl in Ht. apply not_elem_of_cons in Ht as [Hne Ht].
    split; [by split|]. by apply invocationsOf_other.
Qed.

Lemma Unheld_step cb i w :
  Unheld cb w -> ~ inputUses cb i ->
  Unheld cb (step NodeURL_patch i w) /\
  invocationsOf cb (trace (step NodeURL_patch i w)) = invocationsOf cb (trace w).
Proof.
  intros Hu Hi. destruct i as [c|m|]; simpl.
  - split; [by apply Unheld_run_call|].
    apply invocationsOf_same, run_call_invocations.
  - by apply Unheld_onMessage.
  - by apply Unheld_tick.
Qed.

Lemma Unheld_run cb inputs w :
  Unheld cb w -> Forall (fun i => ~ inputUses cb i) inputs ->
  invocationsOf cb (trace (run NodeURL_patch inputs w))
  = invocationsOf cb (trace w).
Proof.
  revert w. induction inputs as [|i rest IH]; intros w Hu Hin; simpl; [done|].
  apply Forall_cons in Hin as [Hi Hin].
  destruct (Unheld_step cb i w Hu Hi) as [Hu' Hi'].
  by rewrite (IH _ Hu' Hin).
Qed.
End UnheldSteps.

(** ** Registering a session id again *)

(** C10. [registerSession] with a session id that is registered already puts
    a record with the new target, the new proxy connection and no pending
    callbacks in its place.  No callback is called and no timer is scheduled
    by it, while [unregisterSession] schedules one error per pending call of
    the session.  A callback that the router then holds nowhere else (in no
    pending call, timer or queued script) is not called by any later inputs
    that do not pass it to the router again. *)
Theorem registerSession_again_discards_callbacks
    (NodeURL_patch : Message -> Message) (w : World) (t : TargetBase)
    (sessionId : string) (proxy : option Connection) (old : Session) :
  JSMap.get sessionId (_sessions (router w)) = Some old ->
  let w' := registerSession t sessionId proxy w in
  JSMap.get sessionId (_sessions (router w'))
  = Some {| target := t; callbacks := []; proxyConnection := proxy |} /\
  (forall id, lookupCallback w' sessionId id = None) /\
  timers w' = timers w /\
  invocations (trace w') = invocations (trace w) /\
  timers (unregisterSession sessionId w)
  = timers w ++ map unregisterSessionTask (JSMap.values (callbacks old)) /\
  (forall id c inputs,
     JSMap.get id (callbacks old) = Some c ->
     Unheld (callback c) w' ->
     Forall (fun i => ~ inputUses (callback c) i) inputs ->
     invocationsOf (callback c) (trace (run NodeURL_patch inputs w'))
     = invocationsOf (callback c) (trace w)).
Proof.
  intros Hold w'.
  assert (Hnew : JSMap.get sessionId (_sessions (router w'))
                 = Some {| target := t; callbacks := []; proxyConnection := proxy |}).
  { unfold w'. rewrite registerSession_router. simpl.
    apply JSMapFacts.get_set_eq. }
  assert (Hinv : invocations (trace w') = invocations (trace w)).
  { unfold w'. destruct (registerSession_trace t sessionId proxy w) as [text ->].
    apply invocations_console. }
  split; [done|].
  split; [intros id; unfold lookupCallback; by rewrite Hnew|].
  split; [apply registerSession_timers|].
  split; [done|].
  split; [by rewrite (unregisterSession_registered sessionId w old Hold)|].
  intros id c inputs Hc Hu Hin.
  rewrite (Unheld_run NodeURL_patch (callback c) inputs w' Hu Hin).
  by apply invocationsOf_same.
Qed.

(** ** Validation of the arguments *)

Lemma prepareParametersFrom_amended method parameters todo args params hasParams :
  prepareParametersFrom method parameters todo args params hasParams
  = amendedPrepareFrom method parameters todo args params hasParams.
Proof.
  revert args params hasParams.
  induction todo as [|param todo IH]; intros args params hasParams; simpl.
  - by destruct args.
  - destruct args as [|value rest]; simpl.
    + destruct (optional param); simpl; [apply IH | done].
    + destruct (optional param
                && bool_decide (typeofArgument value = "undefined"));
        [apply IH|].
      destruct (decide (typeofArgument value = type param)) as [Heq|Hne].
      * rewrite bool_decide_false by (intros Hn; by apply Hn).
        rewrite bool_decide_true by done. apply IH.
      * rewrite bool_decide_true by done. by rewrite bool_decide_false.
Qed.

Lemma amendedPrepareFrom_errors method parameters todo args params hasParams :
  let '(errors, result) :=
    amendedPrepareFrom method parameters todo args params hasParams in
  errors = [] \/
  (exists message, errors = [message] /\ message <> "" /\ result = None).
Proof.
  revert args params hasParams.
  induction todo as [|param todo IH]; intros args params hasParams; simpl.
  - destruct args; [by left|]. right. eexists. by repeat split.
  - destruct args as [|value rest].
    + destruct (optional param); [apply IH|].
      right. eexists. by repeat split.
    + destruct (optional param
                && bool_decide (typeofArgument value = "undefined"));
        [apply IH|].
      destruct (bool_decide (typeofArgument value = type param)); [apply IH|].
      right. eexists. by repeat split.
Qed.


(** C5, as amended.  [_prepareParameters] goes through the declared
    parameters in order: with no argument left, a required parameter fails
    the validation with a message that holds [JSON.stringify] of all declared
    parameters, and an optional one is skipped; with an argument left, an
    optional parameter whose argument is [undefined] is skipped and that
    argument is consumed; otherwise the argument is consumed and the
    validation fails if its [typeof] is not the declared type; arguments left
    over at the end fail the validation.  A failed validation reports exactly
    one message to the error callback and returns [null]; the call then
    resolves to [null] at once, and the router, the timers and the trace
    apart from the logged message are as before: nothing is sent. *)
Theorem prepareParameters_validation (method : string)
    (parameters : list CommandParameter) (args : list Argument) :
  _prepareParameters method parameters args
  = amendedPrepareFrom method parameters parameters args [] false /\
  invalidNumberOfArguments method parameters
  = ("Protocol Error: Invalid number of arguments for method '" ++ method
      ++ "' call. It must have the following arguments "
      ++ JSON_parameters parameters ++ "'.")%string /\
  (fst (_prepareParameters method parameters args) = [] \/
   exists message,
     fst (_prepareParameters method parameters args) = [message] /\
     snd (_prepareParameters method parameters args) = None /\
     forall a promise w,
       _sendMessageToBackendPromise a method parameters args promise w
       = ({| router := router w;
             timers := timers w;
             trace := trace w ++ [EvConsoleError message] |},
          PromiseResolved JSNull)).
Proof.
  split; [apply prepareParametersFrom_amended|]. split; [done|].
  pose proof (amendedPrepareFrom_errors method parameters parameters args [] false)
    as Herr.
  rewrite <- prepareParametersFrom_amended in Herr.
  fold (_prepareParameters method parameters args) in Herr.
  destruct (_prepareParameters method parameters args) as [errors result] eqn:Hp.
  simpl. destruct Herr as [->|(message & -> & Hne & ->)]; [by left|].
  right. exists message. split; [done|]. split; [done|].
  intros a promise w. unfold _sendMessageToBackendPromise. rewrite Hp.
  unfold errorMessageSet. simpl. by rewrite bool_decide_true.
Qed.

(** ** The promise of a command *)








(** ** The [TargetBase] constructor *)

(** C8, as amended.  The constructor throws its error whenever a connection
    or a session id is given without a parent target, and whenever a
    connection and a session id are given together; it throws before it
    touches any router: the runtime is unchanged.  It does not throw that
    error for a parent target with a session id and no connection, for a
    parent target with a connection and no session id, and for no parent
    target with neither.  If a connection is given, a factory is set or the
    parent target of a session id has a router, the target is then made with
    the session id and the flag given: on the router of the parent target if
    a session id is given and the parent target has a router, on a new router
    if no session id is given. *)
Theorem constructor_guard (needsNodeJSPatching : bool)
    (parentTarget : option TargetBase) (sessionId : string)
    (connection : option Connection) (rt : Runtime) :
  let outcome :=
    newTargetBase needsNodeJSPatching parentTarget sessionId connection rt in
  ((parentTarget = None /\ connection <> None) \/
   (parentTarget = None /\ sessionId <> "") \/
   (connection <> None /\ sessionId <> "") ->
   outcome = (rt, ThrowsError childTargetError)) /\
  ((is_Some parentTarget /\ sessionId <> "" /\ connection = None) \/
   (is_Some parentTarget /\ sessionId = "" /\ is_Some connection) \/
   (parentTarget = None /\ sessionId = "" /\ connection = None) ->
   (forall message, snd outcome <> ThrowsError message) /\
   (is_Some connection \/ is_Some (rt_factory rt) \/
    (sessionId <> "" /\ is_Some (parentTarget ≫= _router)) ->
    exists t i,
      snd outcome = Returns t /\ _router t = Some i /\
      _sessionId t = sessionId /\
      _needsNodeJSPatching t = needsNodeJSPatching /\
      (sessionId <> "" ->
       forall j, parentTarget ≫= _router = Some j -> i = j) /\
      (sessionId = "" -> i = length (rt_routers rt)))).
Proof.
  intros outcome.
  assert (Hrej : rejectsArguments parentTarget sessionId connection = true <->
            (parentTarget = None /\ connection <> None) \/
            (parentTarget = None /\ sessionId <> "") \/
            (connection <> None /\ sessionId <> "")).
  { unfold rejectsArguments.
    rewrite !orb_true_iff, !andb_true_iff, !negb_true_iff,
      !bool_decide_eq_true, !bool_decide_eq_false.
    rewrite (eq_None_not_Some parentTarget), (not_eq_None_Some connection).
    tauto. }
  split.
  - intros Hcond. apply Hrej in Hcond.
    unfold outcome, newTargetBase. by rewrite Hcond.
  - intros Hok.
    assert (Hacc : rejectsArguments parentTarget sessionId connection = false).
    { apply not_true_is_false. rewrite Hrej.
      destruct Hok as [([p ->] & Hs & ->)|[([p ->] & -> & [c ->])|(-> & -> & ->)]];
        intros [[? ?]|[[? ?]|[? ?]]]; done. }
    unfold outcome, newTargetBase. rewrite Hacc. split.
    + intros message.
      destruct ((if bool_decide (sessionId <> "") then parentTarget else None)
                ≫= _router); [done|].
      destruct connection; [done|]. by destruct (rt_factory rt).
    + intros Hcan.
      destruct (decide (sessionId = "")) as [->|Hs].
      * rewrite bool_decide_false by (intros Hn; by apply Hn). simpl.
        destruct connection as [c|].
        { eexists _, _. simpl. split; [reflexivity|]. simpl.
          split; [reflexivity|]. repeat split; try done; congruence. }
        destruct (rt_factory rt) as [c|].
        { eexists _, _. simpl. split; [reflexivity|]. simpl.
          split; [reflexivity|]. repeat split; try done; congruence. }
        destruct Hcan as [[? ?]|[[? ?]|[Hn _]]]; [done | done | by destruct Hn].
      * rewrite bool_decide_true by done.
        destruct (parentTarget ≫= _router) as [i|] eqn:Hr.
        { eexists _, i. simpl. split; [reflexivity|]. simpl.
          split; [reflexivity|]. repeat split; try done; congruence. }
        destruct connection as [c|].
        { eexists _, _. simpl. split; [reflexivity|]. simpl.
          split; [reflexivity|]. repeat split; try done; congruence. }
        destruct (rt_factory rt) as [c|].
        { eexists _, _. simpl. split; [reflexivity|]. simpl.
          split; [reflexivity|]. repeat split; try done; congruence. }
        destruct Hcan as [[? ?]|[[? ?]|[_ [? ?]]]]; done.
Qed.

(** * Concrete runs *)



(** C6 as stated fails for a proxy connection without a handler: the
    session holds a proxy connection, and the message is not handed to it; a
    protocol error is reported instead. *)
Lemma message_not_forwarded_to_deaf_proxy :
  omap proxyConnection
    (JSMap.values (_sessions (router (exProxiedWorld exDeafProxy))))
  = [exDeafProxy] /\
  ~ forwardsToEveryProxy noPatch (exProxiedWorld exDeafProxy)
      (exResponse None 1 []) /\
  trace (onMessage noPatch (exResponse None 1 []) (exProxiedWorld exDeafProxy))
  = [EvProtocolError noOnMessageError (exResponse None 1 []);
     EvProtocolError wrongSessionIdError (exResponse None 1 [])].
Proof.
  split; [reflexivity|]. split; [|reflexivity].
  unfold forwardsToEveryProxy. vm_compute. discriminate.
Qed.

(** The same message is handed to a proxy connection that has a handler,
    and the wrong-session-id error is then not reported. *)
Example message_forwarded_to_proxy :
  trace (onMessage noPatch (exResponse None 1 []) (exProxiedWorld exProxy))
  = [EvProxyMessage exProxy (exResponse None 1 [])].
Proof. reflexivity. Qed.

(** A command registered with two required parameters and called with one
    argument: one error that names the method, [null], and nothing sent. *)
Example one_argument_for_two_parameters :
  _sendMessageToBackendPromise
    (registerCommand "bar"
       [ {| name := "x"; type := "number"; optional := false |};
         {| name := "y"; type := "string"; optional := false |} ] []
       (newAgentPrototype "Foo" (exTarget 0 "")))
    "Foo.bar"
    [ {| name := "x"; type := "number"; optional := false |};
      {| name := "y"; type := "string"; optional := false |} ]
    [Plain (JSNumber 1)] 0 exWorld
  = ({| router := router exWorld;
        timers := [];
        trace :=
          [EvConsoleError
             (invalidNumberOfArguments "Foo.bar"
                [ {| name := "x"; type := "number"; optional := false |};
                  {| name := "y"; type := "string"; optional := false |} ])] |},
     PromiseResolved JSNull).
Proof. reflexivity. Qed.

Lemma exWorld_reachable : Reachable noPatch exWorld.
Proof. eexists exConnection, _. reflexivity. Defined.



Lemma exBusyWorld_unheld :
  Unheld (ClientCallback 40)
    (registerSession (exTarget 2 "") "" None exBusyWorld).
Proof.
  split.
  - vm_compute. apply not_elem_of_nil.
  - vm_compute. apply not_elem_of_nil.
  - vm_compute. constructor.
Defined.

Lemma registerSession_again_discards_callbacks_witness :
  lookupCallback exBusyWorld "" 1
  = Some {| callback := ClientCallback 40; method := "Page.enable" |} /\
  lookupCallback (registerSession (exTarget 2 "") "" None exBusyWorld) "" 1
  = None /\
  timers (registerSession (exTarget 2 "") "" None exBusyWorld) = [] /\
  invocationsOf (ClientCallback 40)
    (trace (run noPatch [InMessage (exResponse None 1 []); InTick]
              (registerSession (exTarget 2 "") "" None exBusyWorld)))
  = [].
Proof.
  destruct (registerSession_again_discards_callbacks noPatch exBusyWorld
              (exTarget 2 "") "" None
              {| target := exTarget 0 "";
                 callbacks :=
                   [(1%Z, {| callback := ClientCallback 40;
                             method := "Page.enable" |})];
                 proxyConnection := None |} eq_refl)
    as (_ & Hgone & Htimers & _ & _ & Hnever).
  split; [reflexivity|]. split; [apply Hgone|]. split; [exact Htimers|].
  apply (Hnever 1%Z {| callback := ClientCallback 40; method := "Page.enable" |}
           [InMessage (exResponse None 1 []); InTick] eq_refl
           exBusyWorld_unheld).
  repeat constructor; simpl; tauto.
Defined.

(** ** Generated commands *)




(** C5 as stated fails for an explicit [undefined] given for an optional
    parameter: the code consumes it and accepts the call, which is then sent,
    while the validation as worded rejects it, whether an [undefined]
    argument counts as absent (it is left over) or not (it has the wrong
    type). *)
Lemma explicit_undefined_is_consumed :
  _prepareParameters "DOM.getDocument" [exDepth] [Plain JSUndefined] = ([], None) /\
  claimedPrepareParameters true "DOM.getDocument" [exDepth] [Plain JSUndefined]
  = ([extraArguments "DOM.getDocument" [Plain JSUndefined]], None) /\
  claimedPrepareParameters false "DOM.getDocument" [exDepth] [Plain JSUndefined]
  = ([invalidTypeOfArgument "DOM.getDocument" "depth" "number" (Plain JSUndefined)],
     None) /\
  _prepareParameters "DOM.getDocument" [exDepth] [Plain JSUndefined]
  <> claimedPrepareParameters true "DOM.getDocument" [exDepth] [Plain JSUndefined] /\
  _prepareParameters "DOM.getDocument" [exDepth] [Plain JSUndefined]
  <> claimedPrepareParameters false "DOM.getDocument" [exDepth] [Plain JSUndefined] /\
  trace (fst (_sendMessageToBackendPromise exAgent "DOM.getDocument" [exDepth]
                [Plain JSUndefined] 0 exWorld))
  = [EvSendRawMessage
       {| out_id := 1; out_method := "DOM.getDocument"; out_params := None;
          out_sessionId := None |}].
Proof.
  split; [reflexivity|]. split; [reflexivity|]. split; [reflexivity|].
  split; [vm_compute; discriminate|]. split; [vm_compute; discriminate|].
  reflexivity.
Qed.

(** ** The constructor *)

(** C8 as stated fails: a connection alone, without a parent target, is
    exactly one of the two things to supply, and the constructor throws.  (A
    child target with neither a connection nor a session id supplies neither,
    and the constructor returns a target for it.) *)
Lemma constructor_guard_is_not_exactly_one :
  claimedAccepts None "" (Some exConnection) = true /\
  newTargetBase false None "" (Some exConnection) exRuntime
  = (exRuntime, ThrowsError childTargetError) /\
  claimedAccepts (Some (exTarget 0 "")) "" None = false /\
  snd (newTargetBase false (Some (exTarget 0 "")) "" None exRuntime)
  = Returns {| target_id := 0; _needsNodeJSPatching := false;
               _sessionId := ""; _router := Some 0%nat |}.
Proof. repeat split; reflexivity. Qed.

(** * Further properties *)

(** ** Message ids *)



Section IdsSteps.
Variable NodeURL_patch : Message -> Message.


End IdsSteps.










(** ** Responses, once more *)

Lemma JSMap_delete_set_fresh {K V : Type} `{EqDecision K} (k : K) (v : V)
    (m : list (K * V)) :
  JSMap.get k m = None -> JSMap.delete k (JSMap.set k v m) = m.
Proof.
  induction m as [|[k' v'] m IH]; simpl.
  - intros _. by rewrite decide_True.
  - destruct (decide (k = k')) as [->|Hne]; [done|]. intros Hget. simpl.
    rewrite decide_False by done. by rewrite IH.
Qed.

Lemma JSMap_set_set {K V : Type} `{EqDecision K} (k : K) (v1 v2 : V)
    (m : list (K * V)) :
  JSMap.set k v2 (JSMap.set k v1 m) = JSMap.set k v2 m.
Proof.
  induction m as [|[k' v'] m IH]; simpl.
  - by rewrite decide_True.
  - destruct (decide (k = k')) as [->|Hne]; simpl.
    + by rewrite decide_True.
    + rewrite decide_False by done. by rewrite IH.
Qed.

Lemma JSMap_delete_snoc_fresh {K V : Type} `{EqDecision K} (k : K) (v : V)
    (m : list (K * V)) :
  JSMap.get k m = None -> JSMap.delete k (m ++ [(k, v)]) = m.
Proof.
  intros Hget. rewrite <- (JSMapFacts.set_fresh k v m Hget).
  by apply JSMap_delete_set_fresh.
Qed.

Lemma Session_eta (s : Session) :
  {| target := target s; callbacks := callbacks s;
     proxyConnection := proxyConnection s |} = s.
Proof. by destruct s. Qed.

Lemma scriptsRun_proxyEvents (m : Message) (ss : list Session) :
  scriptsRun (flat_map (proxyEvents m) ss) = [].
Proof.
  induction ss as [|s ss IH]; simpl; [done|].
  rewrite scriptsRun_app, IH, app_nil_r. unfold proxyEvents.
  destruct (proxyConnection s) as [c|]; [|done]. by destruct (_onMessage c).
Qed.

Lemma invocations_proxyEvents (m : Message) (ss : list Session) :
  invocations (flat_map (proxyEvents m) ss) = [].
Proof.
  induction ss as [|s ss IH]; simpl; [done|].
  rewrite invocations_app, IH, app_nil_r. unfold proxyEvents.
  destruct (proxyConnection s) as [c|]; [|done]. by destruct (_onMessage c).
Qed.

Section RouterExtras.
Variable NodeURL_patch : Message -> Message.

(** A response whose id is not pending in its session. *)
Lemma onMessage_wrong_id m w session id :
  JSMap.get (default "" (msg_sessionId m)) (_sessions (router w)) = Some session ->
  proxyConnection session = None ->
  msg_id (received NodeURL_patch session m) = Some id ->
  JSMap.get id (callbacks session) = None ->
  onMessage NodeURL_patch m w
  = {| router := router w;
       timers := timers w;
       trace := trace w
         ++ flat_map (proxyEvents m) (JSMap.values (_sessions (router w)))
         ++ (if existsb consumes (JSMap.values (_sessions (router w)))
             then []
             else [EvProtocolError wrongIdError
                     (received NodeURL_patch session m)]) |}.
Proof.
  intros Hs Hp Hid Hc. unfold onMessage.
  rewrite forwardToProxies_spec. cbn [router].
  rewrite Hs, Hp. unfold received in *. rewrite Hid, Hc.
  rewrite (JSMapFacts.delete_fresh _ _ Hc).
  assert (Hsame : set_sessions
            (JSMap.set (default "" (msg_sessionId m))
               {| target := target session;
                  callbacks := callbacks session;
                  proxyConnection := None |}
               (_sessions (router w))) (router w) = router w).
  { rewrite <- Hp, Session_eta, (set_same _ _ _ Hs). apply set_sessions_id. }
  unfold with_router. cbn [router timers trace]. rewrite Hsame.
  destruct (existsb consumes _); unfold emit; simpl;
    rewrite <- ?app_assoc, ?app_nil_r; done.
Qed.

(** X2. A response is delivered at most once.  After a response has found
    its callback, a second message for the same session with the same id
    finds none: the router and the timers stay as they are, no callback is
    called, and the message is recorded as a protocol error (wrong id) unless
    a proxy connection took it. *)
Theorem response_delivered_at_most_once m m2 w session id c :
  matches NodeURL_patch m w session id c ->
  default "" (msg_sessionId m2) = default "" (msg_sessionId m) ->
  msg_id (received NodeURL_patch session m2) = Some id ->
  let w1 := onMessage NodeURL_patch m w in
  onMessage NodeURL_patch m2 w1
  = {| router := router w1;
       timers := timers w1;
       trace := trace w1
         ++ flat_map (proxyEvents m2) (JSMap.values (_sessions (router w1)))
         ++ (if existsb consumes (JSMap.values (_sessions (router w1)))
             then []
             else [EvProtocolError wrongIdError
                     (received NodeURL_patch session m2)]) |}.
Proof.
  intros Hm Hsid Hid w1.
  destruct (onMessage_matched NodeURL_patch m w session id c Hm) as (Hr & _).
  fold w1 in Hr. destruct Hm as (Hs & Hp & _ & _).
  set (session' := {| target := target session;
                      callbacks := JSMap.delete id (callbacks session);
                      proxyConnection := proxyConnection session |}).
  assert (Hs' : JSMap.get (default "" (msg_sessionId m2)) (_sessions (router w1))
                = Some session').
  { rewrite Hr, Hsid. unfold answered. simpl. apply JSMapFacts.get_set_eq. }
  change (received NodeURL_patch session m2)
    with (received NodeURL_patch session' m2).
  apply (onMessage_wrong_id m2 w1 session' id); try done.
  simpl. apply JSMapFacts.get_delete_eq.
Qed.

(** The timers after a response that finds its callback. *)
Lemma onMessage_matched_timers m w session id c :
  matches NodeURL_patch m w session id c ->
  let w' := onMessage NodeURL_patch m w in
  timers w' = timers w
    ++ (if bool_decide (_pendingScripts (router w) = []) then []
        else if _hasOutstandingNonLongPollingRequests (router w') then []
        else [TaskRunAfterPendingDispatches]).
Proof.
  intros Hm w'.
  destruct (onMessage_matched NodeURL_patch m w session id c Hm) as (Hr & _).
  fold w' in Hr. rewrite Hr. clear Hr. subst w'.
  destruct Hm as (Hs & Hp & Hid & Hc). unfold onMessage.
  rewrite forwardToProxies_spec. cbn [router].
  rewrite Hs, Hp. unfold received in Hid. rewrite Hid, Hc.
  unfold answered. rewrite Hp. cbn.
  destruct (bool_decide (_pendingScripts (router w) = [])); simpl.
  { by rewrite app_nil_r. }
  match goal with |- context [if negb ?b then _ else _] =>
    destruct b end; simpl; by rewrite ?app_nil_r.
Qed.

(** X4. A response that finds its callback never runs a script of the drain
    barrier itself and leaves the queue alone.  It schedules one more drain
    timer exactly when scripts are queued and, with this response counted, no
    request other than long-polling ones is outstanding; it schedules nothing
    else. *)
Theorem response_schedules_drain m w session id c :
  matches NodeURL_patch m w session id c ->
  let w' := onMessage NodeURL_patch m w in
  scriptsRun (trace w') = scriptsRun (trace w) /\
  _pendingScripts (router w') = _pendingScripts (router w) /\
  timers w' = timers w
    ++ (if bool_decide (_pendingScripts (router w) = []) then []
        else if _hasOutstandingNonLongPollingRequests (router w') then []
        else [TaskRunAfterPendingDispatches]).
Proof.
  intros Hm w'.
  destruct (onMessage_matched NodeURL_patch m w session id c Hm)
    as (Hr & Ht & _). fold w' in Hr, Ht.
  split; [|split].
  - rewrite Ht, !scriptsRun_app, scriptsRun_proxyEvents. simpl.
    by rewrite !app_nil_r.
  - by rewrite Hr.
  - apply (onMessage_matched_timers m w session id c Hm).
Qed.
End RouterExtras.

(** ** The pending calls of a router *)


Lemma stored_in_callsOf (ss : list (string * Session)) sid session k c :
  (sid, session) ∈ ss -> (k, c) ∈ callbacks session -> (k, c) ∈ callsOf ss.
Proof.
  intros Hs Hc. unfold callsOf. apply list_elem_of_In, in_flat_map.
  exists (sid, session). split; by apply list_elem_of_In.
Qed.



(** ** Round trips *)

Section RoundTrips.
Variable NodeURL_patch : Message -> Message.

(** X5. Take a world a new router can get into whose next message id is
    below [maxExactInteger], so that the counter of the source, a double,
    moves on when the id is used.  Sending a call on a registered session
    without a proxy connection and then receiving the response with its id
    gives back the router as it was before the call, but for the next
    message id: the session's pending calls, the count of pending responses
    and the set of long-polling ids are restored.  The callback of the call,
    and no other, is called once, and no timer is added unless the drain
    barrier has scripts queued. *)
Theorem send_then_response_restores_router w sid session domain meth params
    cb m :
  Reachable NodeURL_patch w ->
  (_lastMessageId (router w) < maxExactInteger)%Z ->
  JSMap.get sid (_sessions (router w)) = Some session ->
  proxyConnection session = None ->
  default "" (msg_sessionId m) = sid ->
  msg_id (received NodeURL_patch session m) = Some (_lastMessageId (router w)) ->
  let w1 := sendMessage sid domain meth params cb w in
  let w2 := onMessage NodeURL_patch m w1 in
  router w2
  = set_counters (_lastMessageId (router w) + 1)
      (_pendingResponsesCount (router w))
      (_pendingLongPollingMessageIds (router w)) (router w) /\
  invocations (trace w2)
  = invocations (trace w)
      ++ [(cb, or_null (msg_error (received NodeURL_patch session m)),
           or_null (msg_result (received NodeURL_patch session m)))] /\
  (_pendingScripts (router w) = [] -> timers w2 = timers w) /\
  (_lastMessageId (router w) < _lastMessageId (router w2) <= maxExactInteger)%Z.
Proof.
  intros Hreach Hexact Hs Hp Hsid Hid w1 w2.
  destruct (Reachable_Inv NodeURL_patch w Hreach) as [Hnd Hst Hlp _ _].
  set (id := _lastMessageId (router w)) in *.
  assert (Hfresh : JSMap.get id (callbacks session) = None).
  { destruct (JSMap.get id (callbacks session)) as [c|] eqn:Hc; [|done].
    exfalso. assert (Hlt : (id < _lastMessageId (router w))%Z).
    { apply Hst. unfold storedIds. apply list_elem_of_fmap. exists (id, c).
      split; [done|]. apply (stored_in_callsOf _ sid session); [|].
      - by apply JSMapFacts.get_Some_elem.
      - by apply JSMapFacts.get_Some_elem. }
    unfold id in Hlt. lia. }
  assert (Hnotlp : id ∉ _pendingLongPollingMessageIds (router w)).
  { intros Hin. apply Hlp in Hin. unfold id in Hin. lia. }
  set (session1 := {| target := target session;
                      callbacks := JSMap.set id {| callback := cb; method := meth |}
                                     (callbacks session);
                      proxyConnection := proxyConnection session |}).
  assert (Hw1 : w1 = _) by apply (sendMessage_registered _ _ _ _ _ _ _ Hs).
  cbv zeta in Hw1. fold id in Hw1. fold session1 in Hw1.
  assert (Hm : matches NodeURL_patch m w1 session1 id
                 {| callback := cb; method := meth |}).
  { unfold matches. rewrite Hsid, Hw1. simpl.
    rewrite JSMapFacts.get_set_eq. repeat split; try done.
    simpl. apply JSMapFacts.get_set_eq. }
  destruct (onMessage_matched NodeURL_patch m w1 session1 id _ Hm)
    as (Hr & Ht & _).
  fold w2 in Hr, Ht.
  assert (Htrace : invocations (trace w1) = invocations (trace w)).
  { rewrite Hw1. simpl. rewrite invocations_app. simpl. by rewrite app_nil_r. }
  split; [|split; [|split]].
  - rewrite Hr, Hsid, Hw1. unfold answered. simpl.
    rewrite JSMap_set_set, (JSMap_delete_set_fresh _ _ _ Hfresh), Session_eta,
      (set_same _ _ _ Hs).
    unfold set_counters, set_sessions. simpl. f_equal; [lia|].
    apply leibniz_equiv. intros x.
    destruct (bool_decide (meth ∈ LongPollingMethods));
      rewrite elem_of_difference, ?elem_of_union, elem_of_singleton.
    + split; [by intros [[?|?] ?]|].
      intros Hx. split; [by left|]. by intros ->.
    + split; [by intros [? ?]|].
      intros Hx. split; [done|]. by intros ->.
  - rewrite Ht, !invocations_app, Htrace.
    rewrite invocations_proxyEvents. done.
  - intros Hq.
    pose proof (onMessage_matched_timers NodeURL_patch m w1 session1 id
                  _ Hm) as Htm.
    fold w2 in Htm.
    assert (Hq1 : _pendingScripts (router w1) = []) by (rewrite Hw1; exact Hq).
    assert (Ht1 : timers w1 = timers w) by (by rewrite Hw1).
    rewrite Htm, Hq1, Ht1. simpl. by rewrite app_nil_r.
  - rewrite Hr, Hw1. unfold answered. simpl. fold id. unfold id. lia.
Qed.

(** X6. Registering a target under a session id that is not in use, without
    a proxy connection, and unregistering that session again gives back the
    world as it was: no timer is scheduled and nothing is reported. *)
Theorem register_then_unregister_restores w t sid :
  JSMap.get sid (_sessions (router w)) = None ->
  unregisterSession sid (registerSession t sid None w) = w.
Proof.
  intros Hs. unfold registerSession, unregisterSession, with_router.
  cbn [router timers trace set_sessions _sessions].
  rewrite JSMapFacts.get_set_eq. simpl.
  rewrite (JSMap_delete_set_fresh _ _ _ Hs).
  destruct w as [r tm tr]. destruct r. done.
Qed.
End RoundTrips.

(** ** Qualified names *)

Lemma split_dot_dotFree (s : string) : dotFree s -> split_dot s = [s].
Proof.
  induction s as [|c s IH]; [done|].
  intros [Hc Hs]. cbn [split_dot]. rewrite decide_False by done. by rewrite IH.
Qed.

Lemma split_dot_app (d rest : string) :
  dotFree d -> split_dot (d ++ String dot rest)%string = d :: split_dot rest.
Proof.
  induction d as [|c d IH].
  - intros _. change (split_dot (String dot rest) = "" :: split_dot rest).
    cbn [split_dot]. by rewrite decide_True.
  - intros [Hc Hd].
    change (split_dot (String c (d ++ String dot rest)%string)
            = String c d :: split_dot rest).
    cbn [split_dot]. rewrite decide_False by done. by rewrite IH.
Qed.

Lemma splitQualifiedName_qualified (d n : string) :
  dotFree d -> dotFree n -> splitQualifiedName (qualifyName d n) = (d, Some n).
Proof.
  intros Hd Hn. unfold splitQualifiedName.
  change (qualifyName d n) with (d ++ String dot n)%string.
  by rewrite (split_dot_app d n Hd), (split_dot_dotFree n Hn).
Qed.

(** X7. [splitQualifiedName] undoes [qualifyName] when neither the domain
    nor the name has a dot; pieces after a second dot are dropped; and a
    string without a dot is split into itself and [undefined]. *)
Theorem splitQualifiedName_inverts_qualifyName (d n rest : string) :
  dotFree d -> dotFree n ->
  splitQualifiedName (qualifyName d n) = (d, Some n) /\
  splitQualifiedName (qualifyName d (qualifyName n rest)) = (d, Some n) /\
  splitQualifiedName d = (d, None).
Proof.
  intros Hd Hn. split; [by apply splitQualifiedName_qualified|]. split.
  - unfold splitQualifiedName.
    change (qualifyName d (qualifyName n rest))
      with (d ++ String dot (n ++ String dot rest))%string.
    by rewrite (split_dot_app d _ Hd), (split_dot_app n _ Hn).
  - unfold splitQualifiedName. by rewrite (split_dot_dotFree d Hd).
Qed.

(** ** Events *)

Lemma handlerCalls_app (event : string) (m : Message)
    (ds1 ds2 : list Dispatcher) :
  handlerCalls event m (ds1 ++ ds2)
  = handlerCalls event m ds1 ++ handlerCalls event m ds2.
Proof. unfold handlerCalls. by rewrite List.filter_app, map_app. Qed.

(** While the properties found are functions, the loop calls them. *)
Lemma callDispatchers_callable (event : string) (m : Message)
    (ds rest : list Dispatcher) :
  Forall (callableIn event) ds ->
  callDispatchers event (spreadParams (msg_params m)) (ds ++ rest)
  = handlerCalls event m ds
      ++ callDispatchers event (spreadParams (msg_params m)) rest.
Proof.
  unfold handlerCalls.
  induction 1 as [|d ds Hd Hds IH]; [done|].
  cbn [app callDispatchers List.filter]. unfold callableIn in Hd.
  destruct (JSMap.get event (members d)) as [[|]|]; cbn [map app].
  - by rewrite IH.
  - done.
  - exact IH.
Qed.

(** The managers of a target keep the reference they were made with, and
    there is one for exactly the domains that had events when the target was
    made. *)
Lemma MapsBuilt_manager ib maps :
  MapsBuilt ib maps ->
  forall d,
    match JSMap.get d (targetDispatchers maps) with
    | Some mgr =>
        eventArgs mgr = d /\
        is_Some (JSMap.get d (eventParameterNamesForDomain ib))
    | None => JSMap.get d (eventParameterNamesForDomain ib) = None
    end.
Proof.
  induction 1 as [|domain x maps Hb IH|domain x maps Hb IH]; intros d.
  - simpl. induction (eventParameterNamesForDomain ib) as [|[k v] l IHl];
      simpl; [done|].
    destruct (decide (d = k)) as [->|Hne]; [|exact IHl].
    split; [done|]. by eexists.
  - unfold registerDispatcher.
    destruct (JSMap.get domain (targetDispatchers maps)) as [mgr|] eqn:Hg;
      [|apply IH].
    simpl. destruct (decide (domain = d)) as [->|Hne].
    + rewrite JSMapFacts.get_set_eq. specialize (IH d). by rewrite Hg in IH.
    + rewrite JSMapFacts.get_set_ne by done. apply IH.
  - unfold unregisterDispatcher.
    destruct (JSMap.get domain (targetDispatchers maps)) as [mgr|] eqn:Hg;
      [|apply IH].
    simpl. destruct (decide (domain = d)) as [->|Hne].
    + rewrite JSMapFacts.get_set_eq. specialize (IH d). by rewrite Hg in IH.
    + rewrite JSMapFacts.get_set_ne by done. apply IH.
Qed.

(** Registrations never take a domain of events away. *)
Lemma register_keeps_event_domain ib r d :
  is_Some (JSMap.get d (eventParameterNamesForDomain ib)) ->
  is_Some (JSMap.get d (eventParameterNamesForDomain (register ib r))).
Proof.
  intros Hd. destruct r as [method ps ra|q names]; simpl.
  - unfold InspectorBackend_registerCommand.
    by destruct (splitQualifiedName method).
  - destruct (decide (default EmptyString (head (split_dot q)) = d))
      as [->|Hne].
    + rewrite JSMapFacts.get_set_eq. by eexists.
    + by rewrite JSMapFacts.get_set_ne.
Qed.

(** An event that the back-end knows, at a target that has a manager for
    its domain. *)
Lemma TargetBase_dispatch_known ib0 ib maps d e m mgr names :
  MapsBuilt ib0 maps ->
  dotFree d -> dotFree e ->
  msg_method m = Some (qualifyName d e) ->
  JSMap.get d (targetDispatchers maps) = Some mgr ->
  eventParameterNames ib d e = Some names ->
  TargetBase_dispatch ib maps m
  = Some (callDispatchers e (spreadParams (msg_params m)) (dispatchers mgr)).
Proof.
  intros Hb Hd He Hm Hg Hn. unfold TargetBase_dispatch.
  rewrite Hm, (splitQualifiedName_qualified d e Hd He), Hg.
  pose proof (MapsBuilt_manager ib0 maps Hb d) as Hmgr.
  rewrite Hg in Hmgr. destruct Hmgr as [-> _].
  unfold DispatcherManager_dispatch. f_equal.
  destruct (dispatchers mgr) as [|x ds] eqn:Hds; [done|].
  rewrite bool_decide_eq_false_2 by done.
  rewrite Hm. simpl. unfold eventParameterNames in Hn.
  destruct (JSMap.get d (eventParameterNamesForDomain ib)) as [args|]; [|done].
  simpl in Hn. simpl. rewrite Hn.
  by rewrite bool_decide_eq_true_2 by by eexists.
Qed.

(** X8. Take an event message [d.e] handed to a target whose back-end knows
    the event.  A listener registered for the domain [d] is concerned if
    [e in listener] holds, for a property of its own or an inherited one.
    If for each listener concerned that property is a function, it is called
    on each of them: once for each registration, in the order of
    registration, with the parameters of the message (none if the message
    has no [params]); nothing else happens.  If for one of them it is not a
    function, the listeners concerned before it are called, a [TypeError] is
    thrown, and the listeners after it are not called.  The back-end is read
    when the event arrives: the event may have been registered after the
    target was made. *)
Theorem event_calls_its_listeners ib0 rs maps d e m mgr names :
  MapsBuilt ib0 maps ->
  dotFree d -> dotFree e ->
  msg_method m = Some (qualifyName d e) ->
  JSMap.get d (targetDispatchers maps) = Some mgr ->
  eventParameterNames (registered rs ib0) d e = Some names ->
  (Forall (callableIn e) (dispatchers mgr) ->
   TargetBase_dispatch (registered rs ib0) maps m
   = Some (handlerCalls e m (dispatchers mgr))) /\
  (forall before x after,
     dispatchers mgr = before ++ x :: after ->
     Forall (callableIn e) before ->
     JSMap.get e (members x) = Some false ->
     TargetBase_dispatch (registered rs ib0) maps m
     = Some (handlerCalls e m before ++ [TypeErrorThrown x e])).
Proof.
  intros Hb Hd He Hm Hg Hn.
  rewrite (TargetBase_dispatch_known ib0 _ maps d e m mgr names) by done.
  split.
  - intros Hcallable.
    rewrite <- (app_nil_r (dispatchers mgr)) at 1.
    rewrite callDispatchers_callable by done. cbn [callDispatchers].
    by rewrite app_nil_r.
  - intros before x after -> Hcallable Hx.
    rewrite callDispatchers_callable by done. cbn [callDispatchers].
    by rewrite Hx.
Qed.

(** X9. An event message whose domain had no events registered when the
    target was made is reported as a protocol error and reaches no listener,
    even when the back-end has since learnt the domain and the event; and a
    listener cannot be registered for such a domain: [registerDispatcher]
    leaves the target as it is. *)
Theorem event_for_unknown_domain ib0 rs maps d q m x :
  MapsBuilt ib0 maps ->
  JSMap.get d (eventParameterNamesForDomain ib0) = None ->
  msg_method m = Some q ->
  fst (splitQualifiedName q) = d ->
  TargetBase_dispatch (registered rs ib0) maps m
  = Some [ProtocolErrorReported (nonExistingDomainError q d) m] /\
  registerDispatcher d x maps = maps.
Proof.
  intros Hb Hd Hm Hq.
  pose proof (MapsBuilt_manager ib0 maps Hb d) as Hmgr.
  destruct (JSMap.get d (targetDispatchers maps)) as [mgr|] eqn:Hg.
  { destruct Hmgr as [_ [v Hv]]. congruence. }
  split.
  - unfold TargetBase_dispatch. rewrite Hm.
    destruct (splitQualifiedName q) as [d' e]. simpl in Hq. subst d'.
    by rewrite Hg.
  - unfold registerDispatcher. by rewrite Hg.
Qed.

(** X10. A domain without listeners swallows its events: nothing is
    reported, not even for an event the back-end does not know.  With a
    listener registered, an event the back-end does not know gives one
    protocol warning and no handler is called, whatever handlers the
    listeners define. *)
Theorem unspecified_event_warns_only_with_listeners ib0 rs maps d e q m mgr :
  MapsBuilt ib0 maps ->
  msg_method m = Some q ->
  splitQualifiedName q = (d, e) ->
  JSMap.get d (targetDispatchers maps) = Some mgr ->
  (dispatchers mgr = [] ->
   TargetBase_dispatch (registered rs ib0) maps m = Some []) /\
  (dispatchers mgr <> [] ->
   JSMap.get d (eventParameterNamesForDomain (registered rs ib0))
     ≫= JSMap.get q = None ->
   TargetBase_dispatch (registered rs ib0) maps m
   = Some [ProtocolWarning (unspecifiedEventWarning (Some q)) m]).
Proof.
  intros Hb Hm Hq Hg.
  pose proof (MapsBuilt_manager ib0 maps Hb d) as Hmgr.
  rewrite Hg in Hmgr. destruct Hmgr as [Hargs _].
  unfold TargetBase_dispatch. rewrite Hm, Hq, Hg, Hargs.
  unfold DispatcherManager_dispatch. split.
  - intros ->. done.
  - intros Hne Hnone. rewrite bool_decide_eq_false_2 by done.
    rewrite Hm. simpl.
    destruct (JSMap.get d (eventParameterNamesForDomain (registered rs ib0)))
      as [args|]; simpl in *.
    + by rewrite Hnone.
    + done.
Qed.

(** ** Listeners *)

Lemma removeFirst_snoc_fresh (x : Dispatcher) (ds : list Dispatcher) :
  x ∉ ds -> removeFirst x (ds ++ [x]) = ds.
Proof.
  induction ds as [|y ds IH]; simpl.
  - intros _. by rewrite decide_True.
  - intros Hx. apply not_elem_of_cons in Hx as [Hne Hx].
    rewrite decide_False by done. by rewrite IH.
Qed.

(** X11. Unregistering a listener that has just been registered for a domain,
    and was not registered for it before, gives back the target's maps as
    they were; for a domain the target has no manager for, both calls do
    nothing. *)
Theorem unregisterDispatcher_undoes_registerDispatcher maps d x :
  (forall mgr,
     JSMap.get d (targetDispatchers maps) = Some mgr -> x ∉ dispatchers mgr) ->
  unregisterDispatcher d x (registerDispatcher d x maps) = maps.
Proof.
  intros Hx. unfold registerDispatcher.
  destruct (JSMap.get d (targetDispatchers maps)) as [mgr|] eqn:Hg.
  - unfold unregisterDispatcher. simpl. rewrite JSMapFacts.get_set_eq.
    simpl. rewrite JSMap_set_set.
    unfold removeDomainDispatcher, addDomainDispatcher. simpl.
    rewrite (removeFirst_snoc_fresh x _ (Hx mgr eq_refl)).
    replace {| eventArgs := eventArgs mgr; dispatchers := dispatchers mgr |}
      with mgr by by destruct mgr.
    rewrite (set_same _ _ _ Hg). by destruct maps.
  - unfold unregisterDispatcher. by rewrite Hg.
Qed.

(** X12. [removeDomainDispatcher] takes away one registration of the
    listener, the oldest, and no other listener: the listeners left are the
    ones before in their order, a listener that was registered twice stays
    registered once, and a listener that was not registered changes
    nothing. *)
Theorem removeDomainDispatcher_removes_one mgr x :
  dispatchers (removeDomainDispatcher x mgr) `sublist_of` dispatchers mgr /\
  (forall y,
     count_occ Dispatcher_eq_dec (dispatchers (removeDomainDispatcher x mgr)) y
     = if decide (x = y)
       then pred (count_occ Dispatcher_eq_dec (dispatchers mgr) y)
       else count_occ Dispatcher_eq_dec (dispatchers mgr) y) /\
  (x ∉ dispatchers mgr -> removeDomainDispatcher x mgr = mgr) /\
  (forall ds1 ds2,
     dispatchers mgr = ds1 ++ x :: ds2 -> x ∉ ds1 ->
     dispatchers (removeDomainDispatcher x mgr) = ds1 ++ ds2).
Proof.
  destruct mgr as [ea ds]. unfold removeDomainDispatcher. simpl.
  split; [|split; [|split]].
  - induction ds as [|z ds IH]; simpl; [done|].
    destruct (decide (x = z)); by constructor.
  - intros y. induction ds as [|z ds IH]; simpl.
    + by destruct (decide (x = y)).
    + destruct (decide (x = z)) as [->|Hxz].
      * destruct (Dispatcher_eq_dec z y) as [->|Hzy].
        -- by rewrite decide_True.
        -- by rewrite decide_False.
      * simpl. destruct (Dispatcher_eq_dec z y) as [->|Hzy].
        -- rewrite decide_False in IH by done. rewrite decide_False by done.
           by rewrite IH.
        -- exact IH.
  - intros Hx. f_equal. induction ds as [|z ds IH]; simpl; [done|].
    apply not_elem_of_cons in Hx as [Hne Hx].
    rewrite decide_False by done. by rewrite IH.
  - intros ds1 ds2 -> Hx. induction ds1 as [|z ds1 IH]; simpl.
    + by rewrite decide_True.
    + apply not_elem_of_cons in Hx as [Hne Hx].
      rewrite decide_False by done. by rewrite IH.
Qed.

(** ** The agents of a target *)

Lemma registered_snoc rs r ib :
  registered (rs ++ [r]) ib = register (registered rs ib) r.
Proof. unfold registered. by rewrite fold_left_app. Qed.

Lemma PrototypesBuilt_register ib r :
  safeRegistration r -> PrototypesBuilt ib -> PrototypesBuilt (register ib r).
Proof.
  intros Hsafe Hib. destruct r as [method ps ra|q names]; simpl; [|exact Hib].
  unfold InspectorBackend_registerCommand. cbn [safeRegistration] in Hsafe.
  destruct (splitQualifiedName method) as [domain command].
  cbn [snd] in Hsafe.
  intros d prototype. cbn [_agentPrototypes].
  destruct (decide (domain = d)) as [->|Hne].
  - intros Hget t. rewrite JSMapFacts.get_set_eq in Hget.
    injection Hget as <-.
    destruct (JSMap.get d (_agentPrototypes ib)) as [p|] eqn:Hp; simpl.
    + destruct (Hib d p Hp t) as (Hb & Hd & Ht).
      split; [by constructor|]. by split.
    + split; [constructor; [done|constructor]|]. by split.
  - rewrite JSMapFacts.get_set_ne by done. apply Hib.
Qed.

Lemma PrototypesBuilt_registered rs ib :
  Forall safeRegistration rs ->
  PrototypesBuilt ib -> PrototypesBuilt (registered rs ib).
Proof.
  induction rs as [|r rs IH] using rev_ind; [done|].
  intros Hsafe Hib. apply Forall_app in Hsafe as [Hrs Hr].
  apply Forall_cons in Hr as [Hr _].
  rewrite registered_snoc. apply PrototypesBuilt_register; [done|].
  by apply IH.
Qed.

Lemma string_length_append (s1 s2 : string) :
  String.length (s1 ++ s2)%string = String.length s1 + String.length s2.
Proof.
  induction s1 as [|c s1 IH]; [done|].
  change (String c s1 ++ s2)%string with (String c (s1 ++ s2)%string).
  simpl. by rewrite IH.
Qed.

Lemma PrototypesBuilt_new : PrototypesBuilt newInspectorBackend.
Proof. intros d prototype. done. Qed.

Lemma register_keeps_agent_domain ib r d :
  is_Some (JSMap.get d (_agentPrototypes ib)) ->
  is_Some (JSMap.get d (_agentPrototypes (register ib r))).
Proof.
  intros Hd. destruct r as [method ps ra|q names]; cbn [register]; [|done].
  unfold InspectorBackend_registerCommand.
  destruct (splitQualifiedName method) as [domain command].
  cbn [_agentPrototypes].
  destruct (decide (domain = d)) as [->|Hne].
  - rewrite JSMapFacts.get_set_eq. by eexists.
  - by rewrite JSMapFacts.get_set_ne.
Qed.

Lemma registered_keeps_agent_domain rs ib d :
  is_Some (JSMap.get d (_agentPrototypes ib)) ->
  is_Some (JSMap.get d (_agentPrototypes (registered rs ib))).
Proof.
  induction rs as [|r rs IH] using rev_ind; [done|].
  intros Hd. rewrite registered_snoc. by apply register_keeps_agent_domain, IH.
Qed.

(** X13. Take a back-end built by registration calls, none of which names a
    command by one of the [reservedNames] (a command of such a name would
    replace a field or a method of the agent: one named [_domain] would
    replace the domain), and a target made at some point of them.
    [getAgent(domain)] of the target returns an agent exactly for the domains
    that had a command registered when the target was made, and throws for
    any other domain, also one that got its first command later.  The agent
    returned is one that [registerCommand] builds, its [_domain] is the
    domain asked for and its [_target] is the target. *)
Theorem getAgent_of_registered_domain rs1 rs2 t d :
  Forall safeRegistration rs1 ->
  Forall safeRegistration rs2 ->
  let ib1 := registered rs1 newInspectorBackend in
  let ib2 := registered rs2 ib1 in
  (is_Some (getAgent ib2 (newTargetMaps ib1) t d)
   <-> is_Some (JSMap.get d (_agentPrototypes ib1))) /\
  (forall a,
     getAgent ib2 (newTargetMaps ib1) t d = Some a ->
     AgentBuilt a /\ _domain a = d /\ _target a = t).
Proof.
  intros Hsafe1 Hsafe2 ib1 ib2.
  assert (Hib2 : PrototypesBuilt ib2).
  { apply PrototypesBuilt_registered; [done|].
    apply PrototypesBuilt_registered; [done|]. apply PrototypesBuilt_new. }
  unfold getAgent. simpl. split.
  - destruct (decide (d ∈ JSMap.keys (_agentPrototypes ib1))) as [Hin|Hnin].
    + rewrite bool_decide_eq_true_2 by done.
      assert (Hsome : is_Some (JSMap.get d (_agentPrototypes ib1))).
      { destruct (JSMap.get d (_agentPrototypes ib1)) eqn:Hg; [by eexists|].
        by apply JSMapFacts.get_None_keys in Hg. }
      split; [done|]. intros _.
      destruct (registered_keeps_agent_domain rs2 ib1 d Hsome) as [p Hp].
      fold ib2 in Hp. rewrite Hp. by eexists.
    + rewrite bool_decide_eq_false_2 by done.
      apply JSMapFacts.get_None_keys in Hnin. rewrite Hnin.
      split; by intros [? ?].
  - intros a. destruct (bool_decide (d ∈ JSMap.keys (_agentPrototypes ib1)));
      [|done].
    destruct (JSMap.get d (_agentPrototypes ib2)) as [p|] eqn:Hp; [|done].
    simpl. intros [= <-]. by apply Hib2.
Qed.

(** X14. Registering the command [d.n], whose name [n] is not one of the
    [reservedNames], on a back-end built by registration calls of such
    commands puts its two forms on the agents of the domain [d] of all
    targets that have one, also of targets made before.  Calling [n] on such
    an agent is [_sendMessageToBackendPromise] for the method [d.n] with the
    parameters registered last; calling [invoke_n] is [_invoke] for [d.n];
    and the reply fields of [d.n] are the ones registered last.  The
    properties of the agent other than [n] and [invoke_n], and the agents of
    the other domains, are as before. *)
Theorem command_registered_on_prototype rs d n ps ra maps t :
  Forall safeRegistration rs ->
  n ∉ reservedNames ->
  dotFree d -> dotFree n ->
  let ib := registered rs newInspectorBackend in
  let ib' := InspectorBackend_registerCommand (qualifyName d n) ps ra ib in
  d ∈ agents maps ->
  (exists a',
     getAgent ib' maps t d = Some a' /\
     (forall args promise w,
        callCommand a' n args promise w
        = Some (_sendMessageToBackendPromise a' (qualifyName d n) ps args
                  promise w)) /\
     (forall request cb w,
        invokeCommand a' n request cb w
        = Some (invoke a' (qualifyName d n) request cb w)) /\
     JSMap.get (qualifyName d n) (_replyArgs a') = Some ra /\
     (forall a n',
        getAgent ib maps t d = Some a ->
        n' <> n -> n' <> ("invoke_" ++ n)%string ->
        JSMap.get n' (commands a') = JSMap.get n' (commands a))) /\
  (forall d', d' <> d -> getAgent ib' maps t d' = getAgent ib maps t d').
Proof.
  intros Hsafe Hreserved Hd Hn ib ib' Hin.
  assert (Hib : PrototypesBuilt ib).
  { apply PrototypesBuilt_registered; [done|]. apply PrototypesBuilt_new. }
  assert (Hinvoke : ("invoke_" ++ n)%string <> n).
  { intros Heq. apply (f_equal String.length) in Heq.
    rewrite string_length_append in Heq. simpl in Heq. lia. }
  unfold ib', InspectorBackend_registerCommand.
  rewrite (splitQualifiedName_qualified d n Hd Hn).
  unfold getAgent. cbn [_agentPrototypes propertyKey default from_option id].
  split.
  - rewrite bool_decide_eq_true_2 by done.
    rewrite JSMapFacts.get_set_eq. cbn [fmap option_fmap option_map].
    eexists. split; [done|].
    assert (Hdom : _domain (default (newAgentPrototype d)
                      (JSMap.get d (_agentPrototypes ib)) t) = d).
    { destruct (JSMap.get d (_agentPrototypes ib)) as [p|] eqn:Hp; [|done].
      simpl. by apply Hib. }
    split; [|split; [|split]].
    + intros args promise w. unfold callCommand, registerCommand.
      cbn [commands].
      rewrite (JSMapFacts.get_set_ne ("invoke_" ++ n)%string n) by done.
      by rewrite JSMapFacts.get_set_eq, Hdom.
    + intros request cb w. unfold invokeCommand, registerCommand.
      cbn [commands]. by rewrite JSMapFacts.get_set_eq, Hdom.
    + unfold registerCommand. cbn [_replyArgs]. rewrite Hdom.
      apply JSMapFacts.get_set_eq.
    + intros a n' Ha Hne Hne'.
      destruct (JSMap.get d (_agentPrototypes ib)) as [p|] eqn:Hp; [|done].
      simpl in Ha. injection Ha as <-.
      unfold registerCommand. cbn [commands default from_option id].
      rewrite (JSMapFacts.get_set_ne ("invoke_" ++ n)%string n') by done.
      by rewrite (JSMapFacts.get_set_ne n n').
  - intros d' Hne. by rewrite JSMapFacts.get_set_ne.
Qed.

(** ** Making and disposing of targets *)

Lemma registerOnRouter_spec i t rt r :
  rt_routers rt !! i = Some r ->
  registerOnRouter i t rt
  = {| rt_routers :=
         <[ i := set_sessions
                   (JSMap.set (_sessionId t)
                      {| target := t; callbacks := []; proxyConnection := None |}
                      (_sessions r)) r ]> (rt_routers rt);
       rt_timers := rt_timers rt;
       rt_trace := rt_trace rt;
       rt_factory := rt_factory rt;
       rt_nextTarget := rt_nextTarget rt |}.
Proof. intros Hr. unfold registerOnRouter. by rewrite Hr. Qed.

(** X15. When the constructor returns a target, the target has a router and
    its session is registered there under the session id given, with no
    pending call and no proxy connection; the other sessions of that router
    and the other routers are as before, no timer is scheduled and nothing is
    logged.  The target's identity is new.  The router of a parent target is
    assumed to be one of the runtime. *)
Theorem constructor_registers_session needsNodeJSPatching parentTarget
    sessionId connection rt rt' t :
  (forall p j, parentTarget = Some p -> _router p = Some j ->
     (j < length (rt_routers rt))%nat) ->
  newTargetBase needsNodeJSPatching parentTarget sessionId connection rt
  = (rt', Returns t) ->
  exists i r',
    _router t = Some i /\ rt_routers rt' !! i = Some r' /\
    JSMap.get sessionId (_sessions r')
    = Some {| target := t; callbacks := []; proxyConnection := None |} /\
    (forall r sid, rt_routers rt !! i = Some r -> sid <> sessionId ->
       JSMap.get sid (_sessions r') = JSMap.get sid (_sessions r)) /\
    (forall j, j <> i -> (j < length (rt_routers rt))%nat ->
       rt_routers rt' !! j = rt_routers rt !! j) /\
    rt_timers rt' = rt_timers rt /\ rt_trace rt' = rt_trace rt /\
    target_id t = rt_nextTarget rt /\
    rt_nextTarget rt' = S (rt_nextTarget rt).
Proof.
  intros Hparent. unfold newTargetBase.
  destruct (rejectsArguments parentTarget sessionId connection); [done|].
  set (this := fun i : nat =>
         {| target_id := rt_nextTarget rt;
            _needsNodeJSPatching := needsNodeJSPatching;
            _sessionId := sessionId;
            _router := Some i |}).
  assert (Hfresh : forall c,
    (registerOnRouter (length (rt_routers rt)) (this (length (rt_routers rt)))
       {| rt_routers := rt_routers rt ++ [newSessionRouter c];
          rt_timers := rt_timers rt;
          rt_trace := rt_trace rt;
          rt_factory := rt_factory rt;
          rt_nextTarget := S (rt_nextTarget rt) |},
     Returns (this (length (rt_routers rt)))) = (rt', Returns t) ->
    exists i r',
      _router t = Some i /\ rt_routers rt' !! i = Some r' /\
      JSMap.get sessionId (_sessions r')
      = Some {| target := t; callbacks := []; proxyConnection := None |} /\
      (forall r sid, rt_routers rt !! i = Some r -> sid <> sessionId ->
         JSMap.get sid (_sessions r') = JSMap.get sid (_sessions r)) /\
      (forall j, j <> i -> (j < length (rt_routers rt))%nat ->
         rt_routers rt' !! j = rt_routers rt !! j) /\
      rt_timers rt' = rt_timers rt /\ rt_trace rt' = rt_trace rt /\
      target_id t = rt_nextTarget rt /\
      rt_nextTarget rt' = S (rt_nextTarget rt)).
  { intros c Heq.
    rewrite (registerOnRouter_spec _ _ _ (newSessionRouter c)) in Heq.
    2:{ simpl. rewrite lookup_app_r by done. by rewrite Nat.sub_diag. }
    injection Heq as <- <-.
    cbn [rt_routers rt_timers rt_trace rt_nextTarget].
    exists (length (rt_routers rt)). eexists. split; [done|]. split.
    { apply list_lookup_insert_eq. rewrite length_app. simpl. lia. }
    split; [apply (JSMapFacts.get_set_eq sessionId _ [])|]. split.
    { intros r sid Hr. apply lookup_lt_Some in Hr. lia. }
    split; [|done].
    intros j Hne Hlt. rewrite list_lookup_insert_ne by done.
    by apply lookup_app_l. }
  destruct ((if bool_decide (sessionId <> "") then parentTarget else None)
            ≫= _router) as [i|] eqn:Hrouter.
  - assert (Hlt : (i < length (rt_routers rt))%nat).
    { destruct (bool_decide (sessionId <> "")); [|done].
      destruct parentTarget as [p|]; [|done]. by apply (Hparent p). }
    destruct (lookup_lt_is_Some_2 _ _ Hlt) as [r Hr].
    rewrite (registerOnRouter_spec _ _ _ r) by done.
    intros [= <- <-]. simpl.
    exists i. eexists. split; [done|]. split.
    { by apply list_lookup_insert_eq. }
    split; [apply JSMapFacts.get_set_eq|]. split.
    { intros r0 sid Hr0 Hne. rewrite Hr in Hr0. injection Hr0 as <-.
      simpl. by rewrite JSMapFacts.get_set_ne. }
    split; [|done].
    intros j Hne _. by rewrite list_lookup_insert_ne.
  - destruct connection as [c|]; [by apply Hfresh|].
    destruct (rt_factory rt) as [c|]; [by apply Hfresh|done].
Qed.

(** X16. [dispose] of a target that has a router unregisters the session
    with the target's session id on that router: the session is gone, each
    of its pending calls gets a timer with the error of an unregistering
    session, in the order of the calls, nothing is logged and the other
    routers are untouched.  The target is disposed of afterwards, and
    disposing of it again changes nothing. *)
Theorem dispose_unregisters_session t rt i r :
  _router t = Some i ->
  rt_routers rt !! i = Some r ->
  let t' := fst (dispose t rt) in
  let rt' := snd (dispose t rt) in
  isDisposed t' = true /\
  dispose t' rt' = (t', rt') /\
  (exists r',
     rt_routers rt' !! i = Some r' /\
     JSMap.get (_sessionId t) (_sessions r') = None /\
     forall sid, sid <> _sessionId t ->
       JSMap.get sid (_sessions r') = JSMap.get sid (_sessions r)) /\
  rt_timers rt'
  = rt_timers rt
      ++ match JSMap.get (_sessionId t) (_sessions r) with
         | Some session =>
             map unregisterSessionTask (JSMap.values (callbacks session))
         | None => []
         end /\
  rt_trace rt' = rt_trace rt /\
  (forall j, j <> i -> rt_routers rt' !! j = rt_routers rt !! j).
Proof.
  intros Ht Hr t' rt'. unfold t', rt', dispose. rewrite Ht. simpl.
  split; [done|]. split; [done|].
  unfold onRouter. rewrite Hr.
  assert (Hlt : (i < length (rt_routers rt))%nat) by by eapply lookup_lt_Some.
  destruct (JSMap.get (_sessionId t) (_sessions r)) as [session|] eqn:Hs.
  - rewrite (unregisterSession_registered _ _ session) by done. simpl.
    split; [|split; [done|split; [done|]]].
    + eexists. split; [by apply list_lookup_insert_eq|]. simpl.
      split; [apply JSMapFacts.get_delete_eq|].
      intros sid Hne. by apply JSMapFacts.get_delete_ne.
    + intros j Hne. by rewrite list_lookup_insert_ne.
  - unfold unregisterSession. simpl. rewrite Hs. simpl.
    split; [|split; [by rewrite app_nil_r|split; [done|]]].
    + exists r. split; [by apply list_lookup_insert_eq|]. by split.
    + intros j Hne. by rewrite list_lookup_insert_ne.
Qed.

(** ** Commands of a target without a router *)

(** X17. A command called with valid arguments on an agent whose target has
    no router (it was disposed of) sends nothing and leaves the router alone:
    one timer is scheduled that calls the callback of the call with the error
    of a closed connection, which names the method.  That error is not logged;
    it resolves the promise of the promise form to [null], and [getError()]
    of the result of [_invoke] returns its message. *)
Theorem command_without_router_fails_later a method parameters args promise
    request cb w :
  _router (_target a) = None ->
  fst (_prepareParameters method parameters args) = [] ->
  let error :=
    connectionClosedError
      ("Connection is closed, can't dispatch pending call to " ++ method) in
  _sendMessageToBackendPromise a method parameters args promise w
  = ({| router := router w;
        timers := timers w ++ [TaskCallback (PromiseCallback promise method) error];
        trace := trace w |},
     PromisePending (PromiseCallback promise method)) /\
  _invoke a method request cb w
  = {| router := router w;
       timers := timers w ++ [TaskCallback cb error];
       trace := trace w |} /\
  (forall suppressRequestErrors,
     promiseCallback suppressRequestErrors a method (Some error) None
     = ([], Resolves JSNull) /\
     fst (invokeCallback suppressRequestErrors method (Some error) None) = [] /\
     invoke_getError
       (snd (invokeCallback suppressRequestErrors method (Some error) None))
     = JSString
         ("Connection is closed, can't dispatch pending call to " ++ method)).
Proof.
  intros Hr Hargs error. split; [|split].
  - unfold _sendMessageToBackendPromise.
    destruct (_prepareParameters method parameters args) as [errors params].
    simpl in Hargs. subst errors. simpl. rewrite Hr.
    unfold dispatchConnectionError, setTimeout. simpl. done.
  - unfold _invoke. by rewrite Hr.
  - intros suppress. unfold promiseCallback, invokeCallback.
    assert (Hq : quietErrorCode error = true) by done.
    rewrite Hq, andb_false_r. done.
Qed.

(** ** [_invoke] *)

(** X18. The callback of [_invoke] always fulfils its promise with an
    object.  The object has the properties of the result, if there is one;
    with an error, [getError()] returns the message of the error and the
    property under [ProtocolError] is set to it; without an error,
    [getError()] returns [undefined] and that property is not set.  It logs
    the failed request exactly when the callback of the promise form does. *)
Theorem invoke_callback_keeps_result suppressRequestErrors a method error
    result :
  let outcome := invokeCallback suppressRequestErrors method error result in
  fst outcome
  = fst (promiseCallback suppressRequestErrors a method error result) /\
  (forall k, k <> "getError" ->
     getProperty (invoke_properties (snd outcome)) k
     = getProperty (default [] result) k) /\
  match error with
  | Some e =>
      invoke_getError (snd outcome) = getProperty e "message" /\
      invoke_ProtocolError (snd outcome) = Some (getProperty e "message")
  | None =>
      invoke_getError (snd outcome) = JSUndefined /\
      invoke_ProtocolError (snd outcome) = None
  end.
Proof.
  intros outcome. unfold outcome, invokeCallback, promiseCallback.
  split; [by destruct error|]. split.
  - intros k Hk. destruct error; simpl; unfold getProperty;
      by rewrite JSMapFacts.get_delete_ne.
  - by destruct error.
Qed.

(** X19. The two forms of a command differ for a call without arguments on
    a registered session: [invoke_x()] sends the message with [params] set to
    the empty object, the promise form [x()] of a command whose parameters
    are all optional sends it without [params].  Both send one message with
    the next id for the session of the agent's target. *)
Theorem invoke_without_request_sends_empty_params a method parameters promise
    cb w i session :
  _router (_target a) = Some i ->
  JSMap.get (_sessionId (_target a)) (_sessions (router w)) = Some session ->
  Forall (fun p => optional p = true) parameters ->
  let sent params :=
    EvSendRawMessage
      {| out_id := _lastMessageId (router w);
         out_method := method;
         out_params := params;
         out_sessionId :=
           if decide (_sessionId (_target a) = "") then None
           else Some (_sessionId (_target a)) |} in
  trace (invoke a method None cb w) = trace w ++ [sent (Some [])] /\
  trace (fst (_sendMessageToBackendPromise a method parameters [] promise w))
  = trace w ++ [sent None].
Proof.
  intros Hr Hs Hopt sent. split.
  - unfold invoke, _invoke. rewrite Hr.
    by rewrite (sendMessage_registered _ _ _ _ _ _ _ Hs).
  - assert (Hprep : _prepareParameters method parameters [] = ([], None)).
    { unfold _prepareParameters. generalize parameters at 1.
      induction Hopt as [|p ps Hp Hps IH]; intros all; simpl; [done|].
      rewrite Hp. simpl. apply IH. }
    unfold _sendMessageToBackendPromise. rewrite Hprep. simpl. rewrite Hr.
    by rewrite (sendMessage_registered _ _ _ _ _ _ _ Hs).
Qed.

(** ** More on the validation of arguments *)

Lemma prepareParametersFrom_no_arguments method all todo params hasParams :
  prepareParametersFrom method all todo [] params hasParams
  = if forallb optional todo
    then ([], if hasParams then Some params else None)
    else ([invalidNumberOfArguments method all], None).
Proof.
  induction todo as [|p todo IH]; simpl; [done|].
  destruct (optional p); simpl; [apply IH|done].
Qed.

(** X20. A call without arguments passes the validation exactly when every
    declared parameter is optional, and then there are no [params]: the value
    returned is [null].  Otherwise the one error is the one about the number
    of arguments. *)
Theorem prepareParameters_without_arguments method parameters :
  _prepareParameters method parameters []
  = if forallb optional parameters then ([], None)
    else ([invalidNumberOfArguments method parameters], None).
Proof. apply prepareParametersFrom_no_arguments. Qed.

Lemma prepareParametersFrom_too_many method all todo args params hasParams :
  (length todo < length args)%nat ->
  exists message,
    prepareParametersFrom method all todo args params hasParams
    = ([message], None).
Proof.
  revert args params hasParams.
  induction todo as [|p todo IH]; intros args params hasParams Hlen.
  - destruct args as [|v args]; [simpl in Hlen; lia|].
    simpl. by eexists.
  - destruct args as [|v args]; [simpl in Hlen; lia|].
    simpl in Hlen. cbn [prepareParametersFrom hd tl].
    rewrite bool_decide_eq_false_2 by done. cbn [andb].
    destruct (optional p && bool_decide (typeofArgument v = "undefined")).
    + apply IH. lia.
    + destruct (bool_decide (typeofArgument v <> type p)); [by eexists|].
      apply IH. lia.
Qed.

(** X21. A call with more arguments than declared parameters never passes
    the validation: one error is reported and the value returned is [null],
    whatever the arguments are. *)
Theorem prepareParameters_too_many_arguments method parameters args :
  (length parameters < length args)%nat ->
  exists message,
    _prepareParameters method parameters args = ([message], None).
Proof. apply prepareParametersFrom_too_many. Qed.

Lemma prepareParametersFrom_positional method all todo args params hasParams :
  Forall2 (fun p v => typeofArgument v = type p /\ typeofArgument v <> "undefined") todo args ->
  NoDup (map name todo) ->
  (forall p, p ∈ todo -> JSMap.get (name p) params = None) ->
  prepareParametersFrom method all todo args params hasParams
  = ([], if hasParams || negb (bool_decide (todo = []))
         then Some (params ++ zip (map name todo) args) else None).
Proof.
  intros Hargs. revert params hasParams.
  induction Hargs as [|p v todo args [Hty Hdef] Hargs IH];
    intros params hasParams Hnd Hfresh.
  - simpl. rewrite orb_false_r, app_nil_r. done.
  - cbn [prepareParametersFrom hd tl].
    rewrite (bool_decide_eq_false_2 (v :: args = [])) by done. cbn [andb].
    rewrite (bool_decide_eq_false_2 (typeofArgument v = "undefined")) by done.
    rewrite andb_false_r.
    rewrite (bool_decide_eq_false_2 (typeofArgument v <> type p)) by (intros H; done).
    simpl in Hnd. apply NoDup_cons in Hnd as [Hnotin Hnd].
    rewrite IH; [|done|].
    + rewrite (JSMapFacts.set_fresh (name p) v params)
        by (apply Hfresh; constructor).
      cbn [orb]. rewrite (bool_decide_eq_false_2 (p :: todo = [])) by done.
      cbn [negb]. rewrite orb_true_r. by rewrite <- app_assoc.
    + intros p' Hp'.
      assert (Hne : name p <> name p').
      { intros Heq. apply Hnotin. rewrite Heq.
        apply list_elem_of_fmap. by exists p'. }
      rewrite JSMapFacts.get_set_ne by done.
      apply Hfresh. by constructor.
Qed.

(** X22. Arguments that match the declared parameters one for one, each of
    the declared type and none of them [undefined], pass the validation, and
    the value returned binds them by position: it has the names of the
    parameters in their order, each with its argument.  The names are taken
    to be distinct and to be [ordinaryName]s: a plain object lists its
    properties in the order of the assignments only when no name is an array
    index, and an assignment to [__proto__] makes no property. *)
Theorem prepareParameters_binds_by_position method parameters args :
  Forall2
    (fun p v => typeofArgument v = type p /\ typeofArgument v <> "undefined")
    parameters args ->
  NoDup (map name parameters) ->
  Forall ordinaryName (map name parameters) ->
  parameters <> [] ->
  _prepareParameters method parameters args
  = ([], Some (zip (map name parameters) args)).
Proof.
  intros Hargs Hnd _ Hne. unfold _prepareParameters.
  rewrite (prepareParametersFrom_positional _ _ _ _ _ _ Hargs Hnd) by done.
  rewrite bool_decide_eq_false_2 by done. done.
Qed.

Lemma JSMap_set_elem {K V : Type} `{EqDecision K} (k k' : K) (v v' : V)
    (m : list (K * V)) :
  (k', v') ∈ JSMap.set k v m -> (k', v') = (k, v) \/ (k', v') ∈ m.
Proof.
  induction m as [|[k0 v0] m IH]; simpl.
  - intros Hin. apply list_elem_of_singleton in Hin. by left.
  - destruct (decide (k = k0)) as [->|Hne]; intros Hin;
      apply elem_of_cons in Hin as [Heq|Hin].
    + by left.
    + right. by constructor.
    + right. rewrite Heq. constructor.
    + destruct (IH Hin) as [?|?]; [by left|]. right. by constructor.
Qed.

Lemma prepareParametersFrom_typed method all todo args params hasParams o :
  (forall p, p ∈ todo -> p ∈ all) ->
  (forall k v, (k, v) ∈ params ->
     exists p, p ∈ all /\ name p = k /\ typeofArgument v = type p /\
               (optional p = true -> v <> Plain JSUndefined)) ->
  (hasParams = true -> params <> []) ->
  snd (prepareParametersFrom method all todo args params hasParams) = Some o ->
  o <> [] /\
  forall k v, (k, v) ∈ o ->
    exists p, p ∈ all /\ name p = k /\ typeofArgument v = type p /\
              (optional p = true -> v <> Plain JSUndefined).
Proof.
  revert args params hasParams.
  induction todo as [|p todo IH]; intros args params hasParams Hall Hok Hhas.
  - simpl. destruct (bool_decide (args <> [])); [done|].
    destruct hasParams; [|done]. simpl. intros [= <-]. split; [by apply Hhas|done].
  - cbn [prepareParametersFrom].
    destruct (bool_decide (args = []) && negb (optional p)); [done|].
    destruct (optional p && bool_decide (typeofArgument (hd (Plain JSUndefined) args) = "undefined"))
      eqn:Hskip.
    { apply IH; try done. intros p' Hp'. apply Hall. by constructor. }
    destruct (bool_decide (typeofArgument (hd (Plain JSUndefined) args) <> type p)) eqn:Hty;
      [done|].
    apply bool_decide_eq_false in Hty.
    apply IH.
    + intros p' Hp'. apply Hall. by constructor.
    + intros k v Hin. apply JSMap_set_elem in Hin as [[= -> ->]|Hin];
        [|by apply Hok].
      exists p. split; [apply Hall; constructor|]. split; [done|].
      split; [by destruct (decide (typeofArgument (hd (Plain JSUndefined) args) = type p))|].
      intros Hopt Hundef. rewrite Hopt, Hundef in Hskip. done.
    + intros _ Hnil.
      assert (Hget : JSMap.get (name p)
                (JSMap.set (name p) (hd (Plain JSUndefined) args) params) = None)
        by by rewrite Hnil.
      by rewrite JSMapFacts.get_set_eq in Hget.
Qed.

(** X23. When no declared parameter is named [__proto__] (an assignment to
    that name makes no property), whenever the validation returns an object,
    the object is not empty and each of its properties is a declared
    parameter with a value of the declared type; the value of an optional
    parameter is never [undefined].  So [params] of a message that a
    generated command sends holds declared parameters only. *)
Theorem prepareParameters_result_is_typed method parameters args o :
  Forall (fun p => name p <> "__proto__") parameters ->
  snd (_prepareParameters method parameters args) = Some o ->
  o <> [] /\
  forall k v, (k, v) ∈ o ->
    exists p, p ∈ parameters /\ name p = k /\ typeofArgument v = type p /\
              (optional p = true -> v <> Plain JSUndefined).
Proof.
  intros _. apply prepareParametersFrom_typed; try done.
  intros k v Hin. by apply elem_of_nil in Hin.
Qed.

(** ** Events at the router *)

(** X24. A message without an id for a registered session that has no proxy
    connection is never taken for a response: the router, the pending calls
    and the timers stay as they are and no callback is called.  If it has a
    method it is handed, after the proxy connections of the other sessions
    got it, to the target of its session and to no other; if it has none it
    is reported as a protocol error, also when a proxy connection took it. *)
Theorem message_without_id_is_an_event (NodeURL_patch : Message -> Message)
    m w session :
  JSMap.get (default "" (msg_sessionId m)) (_sessions (router w)) = Some session ->
  proxyConnection session = None ->
  msg_id (received NodeURL_patch session m) = None ->
  onMessage NodeURL_patch m w
  = {| router := router w;
       timers := timers w;
       trace := trace w
         ++ flat_map (proxyEvents m) (JSMap.values (_sessions (router w)))
         ++ [match msg_method (received NodeURL_patch session m) with
             | Some _ =>
                 EvDispatch (target session) (received NodeURL_patch session m)
             | None =>
                 EvProtocolError "Protocol Error: the message without method"
                   (received NodeURL_patch session m)
             end] |}.
Proof.
  intros Hs Hp Hid. unfold onMessage.
  rewrite forwardToProxies_spec. cbn [router].
  rewrite Hs, Hp. unfold received in *. rewrite Hid.
  destruct (msg_method _); unfold emit; simpl; by rewrite <- app_assoc.
Qed.

Lemma eventEffects_proxyEvents ib mapsOf (m : Message) (ss : list Session) :
  eventEffects ib mapsOf (flat_map (proxyEvents m) ss) = [].
Proof.
  unfold eventEffects. induction ss as [|s ss IH]; simpl; [done|].
  rewrite omap_app, IH, app_nil_r. unfold proxyEvents.
  destruct (proxyConnection s) as [c|]; [|done]. by destruct (_onMessage c).
Qed.

(** X25. From the transport to the listeners: an event message [d.e] that
    arrives at the router for a registered session without a proxy connection
    calls the property [e] of the listeners that the target of that session
    has for the domain [d] and that have one, own or inherited, in the order
    of their registration, with the parameters of the message, and does
    nothing at any other target.  The property is taken to be a function on
    each of these listeners; otherwise the call throws. *)
Theorem event_message_reaches_listeners (NodeURL_patch : Message -> Message)
    ib0 rs mapsOf m w session d e mgr names :
  JSMap.get (default "" (msg_sessionId m)) (_sessions (router w)) = Some session ->
  proxyConnection session = None ->
  msg_id (received NodeURL_patch session m) = None ->
  msg_method (received NodeURL_patch session m) = Some (qualifyName d e) ->
  dotFree d -> dotFree e ->
  MapsBuilt ib0 (mapsOf (target session)) ->
  JSMap.get d (targetDispatchers (mapsOf (target session))) = Some mgr ->
  eventParameterNames (registered rs ib0) d e = Some names ->
  Forall (callableIn e) (dispatchers mgr) ->
  eventEffects (registered rs ib0) mapsOf
    (trace (onMessage NodeURL_patch m w))
  = eventEffects (registered rs ib0) mapsOf (trace w)
      ++ [Some (handlerCalls e (received NodeURL_patch session m)
                  (dispatchers mgr))].
Proof.
  intros Hs Hp Hid Hm Hd He Hb Hg Hn Hcallable. unfold onMessage.
  rewrite forwardToProxies_spec. cbn [router].
  rewrite Hs, Hp. unfold received in *. rewrite Hid, Hm.
  unfold emit. cbn [trace]. unfold eventEffects at 1.
  rewrite !omap_app. fold (eventEffects (registered rs ib0) mapsOf (trace w)).
  fold (eventEffects (registered rs ib0) mapsOf
          (flat_map (proxyEvents m) (JSMap.values (_sessions (router w))))).
  rewrite eventEffects_proxyEvents, app_nil_r. f_equal. simpl. f_equal.
  rewrite (TargetBase_dispatch_known ib0 _ _ d e _ mgr names) by done.
  f_equal. rewrite <- (app_nil_r (dispatchers mgr)) at 1.
  rewrite callDispatchers_callable by done. cbn [callDispatchers].
  by rewrite app_nil_r.
Qed.

(** * Layout shifts *)

Section LayoutShiftFacts.
Context {Number : Type} (divide : Number -> JSValue -> Number).

Lemma divideArray_lookup scale rect (heap : gmap nat (list Number)) rect' :
  divideArray divide scale rect heap !! rect'
  = if decide (rect = rect')
    then map (fun x => divide x scale) <$> heap !! rect'
    else heap !! rect'.
Proof.
  unfold divideArray. destruct (decide (rect = rect')) as [<-|Hne].
  - destruct (heap !! rect) as [numbers|] eqn:Hl; simpl.
    + by rewrite lookup_insert_eq.
    + by rewrite Hl.
  - destruct (heap !! rect) as [numbers|]; [|done].
    by rewrite lookup_insert_ne.
Qed.

Lemma divide_nodes_rects scale nodes (heap : gmap nat (list Number)) :
  fold_left
    (fun heap impactedNode =>
       divideArray divide scale (new_rect impactedNode)
         (divideArray divide scale (old_rect impactedNode) heap))
    nodes heap
  = fold_left (fun heap rect => divideArray divide scale rect heap)
      (rectsOf nodes) heap.
Proof.
  revert heap. induction nodes as [|n nodes IH]; intros heap; simpl; [done|].
  apply IH.
Qed.

Lemma dividedTimes_S scale k rect :
  dividedTimes divide scale (S k) rect
  = dividedTimes divide scale k (map (fun x => divide x scale) <$> rect).
Proof.
  unfold dividedTimes. destruct rect as [numbers|]; [|done]. simpl.
  f_equal. by rewrite <- Nat.iter_succ_r.
Qed.

Lemma dividedTimes_add scale j k rect :
  dividedTimes divide scale (j + k) rect
  = dividedTimes divide scale k (dividedTimes divide scale j rect).
Proof.
  unfold dividedTimes. destruct rect as [numbers|]; [|done]. simpl.
  f_equal. rewrite Nat.add_comm. apply Nat.iter_add.
Qed.

Lemma divide_rects_lookup scale rects (heap : gmap nat (list Number)) rect :
  fold_left (fun heap rect => divideArray divide scale rect heap) rects heap
    !! rect
  = dividedTimes divide scale (count_occ Nat.eq_dec rects rect) (heap !! rect).
Proof.
  revert heap. induction rects as [|r rects IH]; intros heap; simpl.
  - unfold dividedTimes. by destruct (heap !! rect).
  - rewrite IH, divideArray_lookup.
    destruct (Nat.eq_dec r rect) as [->|Hne].
    + rewrite decide_True by done. by rewrite dividedTimes_S.
    + by rewrite decide_False.
Qed.

(** The state after the loops and the caching of a call that normalizes. *)
Lemma resume_normalizes modelData event nodes evaluateResult scale
    (st : LayoutShiftState Number) :
  viewportScaleOf evaluateResult = ViewportScale (Some scale) ->
  truthy scale = true ->
  let out :=
    normalizedImpactedNodes_resume divide modelData event nodes evaluateResult
      st in
  snd out = Fulfils nodes /\
  (forall rect,
     arrays (fst out) !! rect
     = dividedTimes divide scale (count_occ Nat.eq_dec (rectsOf nodes) rect)
         (arrays st !! rect)) /\
  cachedNodes (fst out) modelData event = Some nodes /\
  (forall modelData' event',
     (modelData', event_id event') <> (modelData, event_id event) ->
     cachedNodes (fst out) modelData' event' = cachedNodes st modelData' event').
Proof.
  intros Hscale Htruthy out. unfold out, normalizedImpactedNodes_resume.
  rewrite Hscale, Htruthy. cbn [fst snd arrays normalizedNodesCache].
  split; [done|]. split; [|split].
  - intros rect. rewrite divide_nodes_rects. apply divide_rects_lookup.
  - unfold cachedNodes. cbn [normalizedNodesCache].
    rewrite JSMapFacts.get_set_eq. simpl. apply JSMapFacts.get_set_eq.
  - intros modelData' event' Hne. unfold cachedNodes.
    cbn [normalizedNodesCache].
    destruct (decide (modelData = modelData')) as [<-|Hmd].
    + rewrite JSMapFacts.get_set_eq. simpl.
      rewrite JSMapFacts.get_set_ne by congruence.
      by destruct (JSMap.get modelData (normalizedNodesCache st)).
    + by rewrite JSMapFacts.get_set_ne.
Qed.

Lemma start_Awaits modelData event nodes (st : LayoutShiftState Number) :
  normalizedImpactedNodes_start modelData event st = Awaits nodes <->
  cachedNodes st modelData event = None /\ impacted_nodes event = Some nodes.
Proof.
  unfold normalizedImpactedNodes_start, cachedNodes.
  destruct (JSMap.get modelData (normalizedNodesCache st)
              ≫= JSMap.get (event_id event)) as [fromCache|].
  - split; [done|]. by intros [? _].
  - destruct (impacted_nodes event) as [impactedNodes|].
    + split; [by intros [= ->]|]. by intros [_ [= ->]].
    + split; [done|]. by intros [_ ?].
Qed.

(** X26. A call that normalizes divides the numbers in place, in the arrays
    that the impacted nodes of the event refer to: the promise is fulfilled
    with nodes that hold the same arrays as the nodes of the event, so the
    event itself is changed.  An array is divided once for each reference
    that the nodes hold to it, no other array is touched, and the nodes are
    cached for the model data and the event. *)
Theorem normalization_divides_event_rects modelData event nodes evaluateResult
    scale (st : LayoutShiftState Number) :
  normalizedImpactedNodes_start modelData event st = Awaits nodes ->
  viewportScaleOf evaluateResult = ViewportScale (Some scale) ->
  truthy scale = true ->
  let out :=
    normalizedImpactedNodesForLayoutShift divide modelData event
      evaluateResult st in
  impacted_nodes event = Some nodes /\
  snd out = Fulfils nodes /\
  (forall rect,
     arrays (fst out) !! rect
     = dividedTimes divide scale (count_occ Nat.eq_dec (rectsOf nodes) rect)
         (arrays st !! rect)) /\
  cachedNodes (fst out) modelData event = Some nodes.
Proof.
  intros Hstart Hscale Htruthy out.
  unfold out, normalizedImpactedNodesForLayoutShift. rewrite Hstart.
  apply start_Awaits in Hstart as [_ Hnodes].
  destruct (resume_normalizes modelData event nodes evaluateResult scale st
              Hscale Htruthy) as (H1 & H2 & H3 & _).
  by repeat split.
Qed.

(** X27. Once the nodes of an event are cached for a model data, every call
    for them is fulfilled with the cached nodes at once: no array and no
    cache entry is changed, whatever the evaluation in the page would give.
    A call that normalizes caches its nodes for its model data and its event
    and leaves the entries of the others as they are. *)
Theorem normalized_nodes_are_cached modelData event nodes evaluateResult scale
    (st : LayoutShiftState Number) :
  normalizedImpactedNodes_start modelData event st = Awaits nodes ->
  viewportScaleOf evaluateResult = ViewportScale (Some scale) ->
  truthy scale = true ->
  let st1 :=
    fst (normalizedImpactedNodesForLayoutShift divide modelData event
           evaluateResult st) in
  (forall evaluateResult',
     normalizedImpactedNodesForLayoutShift divide modelData event
       evaluateResult' st1
     = (st1, Fulfils nodes)) /\
  (forall modelData' event',
     (modelData', event_id event') <> (modelData, event_id event) ->
     cachedNodes st1 modelData' event' = cachedNodes st modelData' event').
Proof.
  intros Hstart Hscale Htruthy st1.
  unfold st1, normalizedImpactedNodesForLayoutShift. rewrite Hstart.
  destruct (resume_normalizes modelData event nodes evaluateResult scale st
              Hscale Htruthy) as (_ & _ & Hc & Hother).
  split; [|exact Hother].
  intros evaluateResult'. unfold normalizedImpactedNodes_start.
  unfold cachedNodes in Hc. by rewrite Hc.
Qed.

(** X28. The cache is all that keeps a second call from dividing again.
    After [_TEST_clearCache()], or for another model data that has the same
    event, a second call that normalizes divides the numbers of the event a
    second time: each array has then been divided twice for each reference
    to it. *)
Theorem normalization_repeats_without_cache modelData modelData' event nodes
    evaluateResult scale (st : LayoutShiftState Number) :
  normalizedImpactedNodes_start modelData event st = Awaits nodes ->
  viewportScaleOf evaluateResult = ViewportScale (Some scale) ->
  truthy scale = true ->
  let st1 :=
    fst (normalizedImpactedNodesForLayoutShift divide modelData event
           evaluateResult st) in
  (forall rect,
     arrays (fst (normalizedImpactedNodesForLayoutShift divide modelData event
                    evaluateResult (_TEST_clearCache st1))) !! rect
     = dividedTimes divide scale
         (2 * count_occ Nat.eq_dec (rectsOf nodes) rect) (arrays st !! rect)) /\
  (cachedNodes st modelData' event = None -> modelData' <> modelData ->
   forall rect,
     arrays (fst (normalizedImpactedNodesForLayoutShift divide modelData' event
                    evaluateResult st1)) !! rect
     = dividedTimes divide scale
         (2 * count_occ Nat.eq_dec (rectsOf nodes) rect) (arrays st !! rect)).
Proof.
  intros Hstart Hscale Htruthy st1.
  pose proof Hstart as Hstart0.
  apply start_Awaits in Hstart0 as [_ Hnodes].
  assert (Hst1 : st1 = fst (normalizedImpactedNodes_resume divide modelData
                              event nodes evaluateResult st)).
  { unfold st1, normalizedImpactedNodesForLayoutShift. by rewrite Hstart. }
  destruct (resume_normalizes modelData event nodes evaluateResult scale st
              Hscale Htruthy) as (_ & Harr & _ & Hother).
  rewrite <- Hst1 in Harr, Hother.
  assert (Htwice : forall md st2,
    normalizedImpactedNodes_start md event st2 = Awaits nodes ->
    arrays st2 = arrays st1 ->
    forall rect,
      arrays (fst (normalizedImpactedNodesForLayoutShift divide md event
                     evaluateResult st2)) !! rect
      = dividedTimes divide scale
          (2 * count_occ Nat.eq_dec (rectsOf nodes) rect) (arrays st !! rect)).
  { intros md st2 Hstart2 Harrays rect.
    unfold normalizedImpactedNodesForLayoutShift. rewrite Hstart2.
    destruct (resume_normalizes md event nodes evaluateResult scale st2
                Hscale Htruthy) as (_ & Harr2 & _).
    rewrite Harr2, Harrays, Harr.
    replace (2 * count_occ Nat.eq_dec (rectsOf nodes) rect)%nat
      with (count_occ Nat.eq_dec (rectsOf nodes) rect
            + count_occ Nat.eq_dec (rectsOf nodes) rect)%nat by lia.
    by rewrite dividedTimes_add. }
  split.
  - apply Htwice; [|done]. by apply start_Awaits.
  - intros Hnone Hne. apply Htwice; [|done].
    apply start_Awaits. split; [|done].
    rewrite Hother; [done|]. congruence.
Qed.

(** X29. Two calls for the same event that overlap, the second one started
    before the first one has come back from its [await], both find the cache
    empty and both divide: each is fulfilled with the nodes of the event, and
    each array has been divided twice for each reference to it. *)
Theorem overlapping_calls_divide_twice modelData event nodes evaluateResult
    scale (st : LayoutShiftState Number) :
  normalizedImpactedNodes_start modelData event st = Awaits nodes ->
  viewportScaleOf evaluateResult = ViewportScale (Some scale) ->
  truthy scale = true ->
  let first :=
    normalizedImpactedNodes_resume divide modelData event nodes evaluateResult
      st in
  let second :=
    normalizedImpactedNodes_resume divide modelData event nodes evaluateResult
      (fst first) in
  snd first = Fulfils nodes /\ snd second = Fulfils nodes /\
  forall rect,
    arrays (fst second) !! rect
    = dividedTimes divide scale
        (2 * count_occ Nat.eq_dec (rectsOf nodes) rect) (arrays st !! rect).
Proof.
  intros _ Hscale Htruthy first second.
  destruct (resume_normalizes modelData event nodes evaluateResult scale st
              Hscale Htruthy) as (H1 & Harr1 & _).
  destruct (resume_normalizes modelData event nodes evaluateResult scale
              (fst first) Hscale Htruthy) as (H2 & Harr2 & _).
  split; [done|]. split; [done|]. intros rect.
  unfold second. rewrite Harr2. unfold first. rewrite Harr1.
  replace (2 * count_occ Nat.eq_dec (rectsOf nodes) rect)%nat
    with (count_occ Nat.eq_dec (rectsOf nodes) rect
          + count_occ Nat.eq_dec (rectsOf nodes) rect)%nat by lia.
  by rewrite dividedTimes_add.
Qed.

(** X30. A call that does not find its nodes cached and gets no scale, as
    there is no main frame target, the value evaluated is not a number or it
    is 0, is fulfilled with the nodes of the event as they are: nothing is
    divided and nothing is cached.  If the request to evaluate fails, so that
    its callback gets an error and no result, the call is rejected with a
    [TypeError], as [result] is read from what [_invoke] made of the failure:
    an object without it. *)
Theorem normalization_without_scale modelData event nodes
    (st : LayoutShiftState Number) :
  normalizedImpactedNodes_start modelData event st = Awaits nodes ->
  (forall evaluateResult,
     viewportScaleOf evaluateResult = ViewportScale None \/
     (exists scale,
        viewportScaleOf evaluateResult = ViewportScale (Some scale) /\
        truthy scale = false) ->
     normalizedImpactedNodesForLayoutShift divide modelData event
       evaluateResult st
     = (st, Fulfils nodes)) /\
  normalizedImpactedNodesForLayoutShift divide modelData event None st
  = (st, Fulfils nodes) /\
  (forall suppressRequestErrors method error,
     normalizedImpactedNodesForLayoutShift divide modelData event
       (Some (snd (invokeCallback suppressRequestErrors method (Some error)
                     None))) st
     = (st, RejectsTypeError)).
Proof.
  intros Hstart. unfold normalizedImpactedNodesForLayoutShift. rewrite Hstart.
  split; [|split].
  - intros evaluateResult [Hnone|(scale & Hscale & Hfalsy)];
      unfold normalizedImpactedNodes_resume.
    + by rewrite Hnone.
    + by rewrite Hscale, Hfalsy.
  - done.
  - intros suppressRequestErrors method error. done.
Qed.
End LayoutShiftFacts.

(** * More concrete runs *)

Ltac dot_free := cbv; repeat split; intros H; discriminate H.

Ltac each_of_them :=
  repeat first [apply Forall_nil_2 | apply Forall_cons_2].

Ltac not_listed := refine (bool_decide_unpack _ _); vm_compute; exact I.

Lemma exEarlyRegistrations_safe : Forall safeRegistration exEarlyRegistrations.
Proof. each_of_them; first [exact I | cbn [safeRegistration]; not_listed]. Qed.

Lemma exLateRegistrations_safe : Forall safeRegistration exLateRegistrations.
Proof. each_of_them; first [exact I | cbn [safeRegistration]; not_listed]. Qed.


Lemma exBusyWorld_matches :
  matches noPatch (exResponse None 1 []) exBusyWorld exBusySession 1
    {| callback := ClientCallback 40; method := "Page.enable" |}.
Proof. by repeat split. Qed.

Lemma exBarrierWorld_matches :
  matches noPatch (exResponse None 1 []) exBarrierWorld exBusySession 1
    {| callback := ClientCallback 40; method := "Page.enable" |}.
Proof. by repeat split. Qed.

Lemma exMaps_built : MapsBuilt exEarlyBackend exMaps.
Proof. apply maps_register, maps_new. Qed.


Lemma response_delivered_at_most_once_witness :
  trace (onMessage noPatch (exResponse None 1 [])
           (onMessage noPatch (exResponse None 1 []) exBusyWorld))
  = trace (onMessage noPatch (exResponse None 1 []) exBusyWorld)
      ++ [EvProtocolError wrongIdError (exResponse None 1 [])].
Proof.
  rewrite (response_delivered_at_most_once noPatch (exResponse None 1 [])
             (exResponse None 1 []) exBusyWorld exBusySession 1 _
             exBusyWorld_matches eq_refl eq_refl).
  reflexivity.
Defined.


Lemma response_schedules_drain_witness :
  scriptsRun (trace (onMessage noPatch (exResponse None 1 []) exBarrierWorld))
  = scriptsRun (trace exBarrierWorld) /\
  _pendingScripts (router (onMessage noPatch (exResponse None 1 []) exBarrierWorld))
  = [MkScript 7 []] /\
  timers (onMessage noPatch (exResponse None 1 []) exBarrierWorld)
  = [TaskRunAfterPendingDispatches; TaskRunAfterPendingDispatches].
Proof.
  exact (response_schedules_drain noPatch (exResponse None 1 [])
           exBarrierWorld exBusySession 1 _ exBarrierWorld_matches).
Defined.

Lemma send_then_response_restores_router_witness :
  router (onMessage noPatch (exResponse None 1 [])
            (sendMessage "" "Page" "Page.enable" None (ClientCallback 40)
               exWorld))
  = set_counters 2 0 ∅ (router exWorld) /\
  invocations
    (trace (onMessage noPatch (exResponse None 1 [])
              (sendMessage "" "Page" "Page.enable" None (ClientCallback 40)
                 exWorld)))
  = [(ClientCallback 40, None, Some [])] /\
  (_pendingScripts (router exWorld) = [] ->
   timers (onMessage noPatch (exResponse None 1 [])
             (sendMessage "" "Page" "Page.enable" None (ClientCallback 40)
                exWorld))
   = timers exWorld) /\
  (_lastMessageId (router exWorld)
   < _lastMessageId
       (router (onMessage noPatch (exResponse None 1 [])
                  (sendMessage "" "Page" "Page.enable" None
                     (ClientCallback 40) exWorld)))
   <= maxExactInteger)%Z.
Proof.
  exact (send_then_response_restores_router noPatch exWorld "" exRootSession
           "Page" "Page.enable" None (ClientCallback 40)
           (exResponse None 1 []) exWorld_reachable eq_refl eq_refl eq_refl
           eq_refl eq_refl).
Defined.

Lemma register_then_unregister_restores_witness :
  unregisterSession "worker"
    (registerSession (exTarget 2 "worker") "worker" None exWorld)
  = exWorld.
Proof.
  apply (register_then_unregister_restores exWorld (exTarget 2 "worker")
           "worker").
  reflexivity.
Defined.

Lemma splitQualifiedName_inverts_qualifyName_witness :
  splitQualifiedName (qualifyName "Page" "enable") = ("Page", Some "enable") /\
  splitQualifiedName (qualifyName "Page" (qualifyName "enable" "now"))
  = ("Page", Some "enable") /\
  splitQualifiedName "Page" = ("Page", None).
Proof.
  apply (splitQualifiedName_inverts_qualifyName "Page" "enable" "now");
    dot_free.
Defined.

Lemma event_calls_its_listeners_witness :
  TargetBase_dispatch (registered exLateRegistrations exEarlyBackend) exMaps
    (exEvent "Page.loadEventFired")
  = Some [HandlerCalled exListener "loadEventFired" [("timestamp", JSNumber 5)]].
Proof.
  refine (proj1
            (event_calls_its_listeners exEarlyBackend exLateRegistrations
               exMaps "Page" "loadEventFired" (exEvent "Page.loadEventFired")
               exManager ["timestamp"] exMaps_built _ _ eq_refl eq_refl
               eq_refl) _);
    [dot_free | dot_free |].
  each_of_them. intros H. discriminate H.
Defined.

(** An event of the name of a member that every object inherits reaches a
    listener that does not declare it; [__proto__] is not a function, so the
    call throws. *)
Example inherited_member_is_called :
  TargetBase_dispatch
    (registered [RegisterEvent "Page.toString" []] exEarlyBackend) exMaps
    (exEvent "Page.toString")
  = Some [HandlerCalled exListener "toString" [("timestamp", JSNumber 5)]] /\
  TargetBase_dispatch
    (registered [RegisterEvent "Page.__proto__" []] exEarlyBackend) exMaps
    (exEvent "Page.__proto__")
  = Some [TypeErrorThrown exListener "__proto__"].
Proof. split; reflexivity. Qed.

Lemma getAgent_of_registered_domain_witness :
  (is_Some
     (getAgent (registered exLateRegistrations exEarlyBackend)
        (newTargetMaps exEarlyBackend) (exTarget 0 "") "DOM")
   <-> is_Some (JSMap.get "DOM" (_agentPrototypes exEarlyBackend))) /\
  (forall a,
     getAgent (registered exLateRegistrations exEarlyBackend)
       (newTargetMaps exEarlyBackend) (exTarget 0 "") "DOM" = Some a ->
     AgentBuilt a /\ _domain a = "DOM" /\ _target a = exTarget 0 "").
Proof.
  exact (getAgent_of_registered_domain exEarlyRegistrations
           exLateRegistrations (exTarget 0 "") "DOM" exEarlyRegistrations_safe
           exLateRegistrations_safe).
Defined.

Lemma event_for_unknown_domain_witness :
  TargetBase_dispatch (registered exLateRegistrations exEarlyBackend) exMaps
    (exEvent "Network.requestWillBeSent")
  = Some [ProtocolErrorReported
            (nonExistingDomainError "Network.requestWillBeSent" "Network")
            (exEvent "Network.requestWillBeSent")] /\
  registerDispatcher "Network" exOtherListener exMaps = exMaps.
Proof.
  apply (event_for_unknown_domain exEarlyBackend exLateRegistrations exMaps
           "Network" "Network.requestWillBeSent"
           (exEvent "Network.requestWillBeSent") exOtherListener exMaps_built);
    reflexivity.
Defined.

Lemma unspecified_event_warns_only_with_listeners_witness :
  (dispatchers exManager = [] ->
   TargetBase_dispatch (registered exLateRegistrations exEarlyBackend) exMaps
     (exEvent "Page.unknownEvent") = Some []) /\
  (dispatchers exManager <> [] ->
   JSMap.get "Page"
     (eventParameterNamesForDomain
        (registered exLateRegistrations exEarlyBackend))
     ≫= JSMap.get "Page.unknownEvent" = None ->
   TargetBase_dispatch (registered exLateRegistrations exEarlyBackend) exMaps
     (exEvent "Page.unknownEvent")
   = Some [ProtocolWarning (unspecifiedEventWarning (Some "Page.unknownEvent"))
             (exEvent "Page.unknownEvent")]).
Proof.
  apply (unspecified_event_warns_only_with_listeners exEarlyBackend
           exLateRegistrations exMaps "Page" (Some "unknownEvent")
           "Page.unknownEvent" (exEvent "Page.unknownEvent") exManager
           exMaps_built);
    reflexivity.
Defined.

Lemma unregisterDispatcher_undoes_registerDispatcher_witness :
  unregisterDispatcher "Page" exOtherListener
    (registerDispatcher "Page" exOtherListener exMaps)
  = exMaps.
Proof.
  apply (unregisterDispatcher_undoes_registerDispatcher exMaps "Page"
           exOtherListener).
  intros mgr Hmgr. injection Hmgr as <-.
  intros Hin. apply list_elem_of_singleton in Hin. discriminate Hin.
Defined.

Lemma command_registered_on_prototype_witness :
  (exists a',
     getAgent
       (InspectorBackend_registerCommand (qualifyName "DOM" "getDocument")
          [exDepth] ["root"] exEarlyBackend)
       (newTargetMaps exEarlyBackend) (exTarget 0 "") "DOM" = Some a' /\
     (forall args promise w,
        callCommand a' "getDocument" args promise w
        = Some (_sendMessageToBackendPromise a'
                  (qualifyName "DOM" "getDocument") [exDepth] args promise w)) /\
     (forall request cb w,
        invokeCommand a' "getDocument" request cb w
        = Some (invoke a' (qualifyName "DOM" "getDocument") request cb w)) /\
     JSMap.get (qualifyName "DOM" "getDocument") (_replyArgs a') = Some ["root"] /\
     (forall a n',
        getAgent exEarlyBackend (newTargetMaps exEarlyBackend) (exTarget 0 "")
          "DOM" = Some a ->
        n' <> "getDocument" -> n' <> ("invoke_" ++ "getDocument")%string ->
        JSMap.get n' (commands a') = JSMap.get n' (commands a))) /\
  (forall d', d' <> "DOM" ->
     getAgent
       (InspectorBackend_registerCommand (qualifyName "DOM" "getDocument")
          [exDepth] ["root"] exEarlyBackend)
       (newTargetMaps exEarlyBackend) (exTarget 0 "") d'
     = getAgent exEarlyBackend (newTargetMaps exEarlyBackend) (exTarget 0 "") d').
Proof.
  apply (command_registered_on_prototype exEarlyRegistrations "DOM"
           "getDocument" [exDepth] ["root"] (newTargetMaps exEarlyBackend)
           (exTarget 0 "")).
  - apply exEarlyRegistrations_safe.
  - not_listed.
  - dot_free.
  - dot_free.
  - apply list_elem_of_singleton. reflexivity.
Defined.

Lemma constructor_registers_session_witness :
  exists i r',
    _router (exTarget 0 "") = Some i /\
    rt_routers (fst (newTargetBase false None "" None exRuntime)) !! i = Some r' /\
    JSMap.get "" (_sessions r')
    = Some {| target := exTarget 0 ""; callbacks := [];
              proxyConnection := None |} /\
    (forall r sid, rt_routers exRuntime !! i = Some r -> sid <> "" ->
       JSMap.get sid (_sessions r') = JSMap.get sid (_sessions r)) /\
    (forall j, j <> i -> (j < length (rt_routers exRuntime))%nat ->
       rt_routers (fst (newTargetBase false None "" None exRuntime)) !! j
       = rt_routers exRuntime !! j) /\
    rt_timers (fst (newTargetBase false None "" None exRuntime))
    = rt_timers exRuntime /\
    rt_trace (fst (newTargetBase false None "" None exRuntime))
    = rt_trace exRuntime /\
    target_id (exTarget 0 "") = rt_nextTarget exRuntime /\
    rt_nextTarget (fst (newTargetBase false None "" None exRuntime))
    = S (rt_nextTarget exRuntime).
Proof.
  apply (constructor_registers_session false None "" None exRuntime
           (fst (newTargetBase false None "" None exRuntime)) (exTarget 0 "")).
  - intros p j Hp. discriminate Hp.
  - reflexivity.
Defined.

Lemma dispose_unregisters_session_witness :
  isDisposed (fst (dispose (exTarget 0 "") exBusyRuntime)) = true /\
  dispose (fst (dispose (exTarget 0 "") exBusyRuntime))
    (snd (dispose (exTarget 0 "") exBusyRuntime))
  = (fst (dispose (exTarget 0 "") exBusyRuntime),
     snd (dispose (exTarget 0 "") exBusyRuntime)) /\
  (exists r',
     rt_routers (snd (dispose (exTarget 0 "") exBusyRuntime)) !! 0%nat = Some r' /\
     JSMap.get (_sessionId (exTarget 0 "")) (_sessions r') = None /\
     forall sid, sid <> _sessionId (exTarget 0 "") ->
       JSMap.get sid (_sessions r')
       = JSMap.get sid (_sessions (router exBusyWorld))) /\
  rt_timers (snd (dispose (exTarget 0 "") exBusyRuntime))
  = rt_timers exBusyRuntime
      ++ match JSMap.get (_sessionId (exTarget 0 ""))
                 (_sessions (router exBusyWorld)) with
         | Some session =>
             map unregisterSessionTask (JSMap.values (callbacks session))
         | None => []
         end /\
  rt_trace (snd (dispose (exTarget 0 "") exBusyRuntime))
  = rt_trace exBusyRuntime /\
  (forall j, j <> 0%nat ->
     rt_routers (snd (dispose (exTarget 0 "") exBusyRuntime)) !! j
     = rt_routers exBusyRuntime !! j).
Proof.
  apply (dispose_unregisters_session (exTarget 0 "") exBusyRuntime 0%nat
           (router exBusyWorld));
    reflexivity.
Defined.

Lemma command_without_router_fails_later_witness :
  _sendMessageToBackendPromise exDisposedAgent "DOM.getDocument" [exDepth]
    [Plain (JSNumber 1)] 0 exWorld
  = ({| router := router exWorld;
        timers :=
          timers exWorld
          ++ [TaskCallback (PromiseCallback 0 "DOM.getDocument")
                (connectionClosedError
                   ("Connection is closed, can't dispatch pending call to "
                      ++ "DOM.getDocument"))];
        trace := trace exWorld |},
     PromisePending (PromiseCallback 0 "DOM.getDocument")) /\
  _invoke exDisposedAgent "DOM.getDocument" None (ClientCallback 41) exWorld
  = {| router := router exWorld;
       timers :=
         timers exWorld
         ++ [TaskCallback (ClientCallback 41)
               (connectionClosedError
                  ("Connection is closed, can't dispatch pending call to "
                     ++ "DOM.getDocument"))];
       trace := trace exWorld |} /\
  (forall suppressRequestErrors,
     promiseCallback suppressRequestErrors exDisposedAgent "DOM.getDocument"
       (Some (connectionClosedError
                ("Connection is closed, can't dispatch pending call to "
                   ++ "DOM.getDocument"))) None
     = ([], Resolves JSNull) /\
     fst (invokeCallback suppressRequestErrors "DOM.getDocument"
            (Some (connectionClosedError
                     ("Connection is closed, can't dispatch pending call to "
                        ++ "DOM.getDocument"))) None) = [] /\
     invoke_getError
       (snd (invokeCallback suppressRequestErrors "DOM.getDocument"
               (Some (connectionClosedError
                        ("Connection is closed, can't dispatch pending call to "
                           ++ "DOM.getDocument"))) None))
     = JSString
         ("Connection is closed, can't dispatch pending call to "
            ++ "DOM.getDocument")).
Proof.
  apply (command_without_router_fails_later exDisposedAgent "DOM.getDocument"
           [exDepth] [Plain (JSNumber 1)] 0%nat None (ClientCallback 41)
           exWorld);
    reflexivity.
Defined.

Lemma invoke_without_request_sends_empty_params_witness :
  trace (invoke exAgent "DOM.getDocument" None (ClientCallback 41) exWorld)
  = trace exWorld
      ++ [EvSendRawMessage
            {| out_id := 1; out_method := "DOM.getDocument";
               out_params := Some []; out_sessionId := None |}] /\
  trace (fst (_sendMessageToBackendPromise exAgent "DOM.getDocument" [exDepth]
                [] 0 exWorld))
  = trace exWorld
      ++ [EvSendRawMessage
            {| out_id := 1; out_method := "DOM.getDocument";
               out_params := None; out_sessionId := None |}].
Proof.
  apply (invoke_without_request_sends_empty_params exAgent "DOM.getDocument"
           [exDepth] 0%nat (ClientCallback 41) exWorld 0%nat exRootSession).
  - reflexivity.
  - reflexivity.
  - repeat constructor.
Defined.

Lemma prepareParameters_too_many_arguments_witness :
  exists message,
    _prepareParameters "DOM.getDocument" [exDepth]
      [Plain (JSNumber 1); Plain (JSNumber 2)]
    = ([message], None).
Proof.
  apply (prepareParameters_too_many_arguments "DOM.getDocument" [exDepth]
           [Plain (JSNumber 1); Plain (JSNumber 2)]).
  simpl. lia.
Defined.

Lemma prepareParameters_binds_by_position_witness :
  _prepareParameters "DOM.getDocument" [exDepth] [Plain (JSNumber 1)]
  = ([], Some [("depth", Plain (JSNumber 1))]).
Proof.
  apply (prepareParameters_binds_by_position "DOM.getDocument" [exDepth]
           [Plain (JSNumber 1)]).
  - repeat constructor. discriminate.
  - repeat constructor. intros Hin. by apply elem_of_nil in Hin.
  - each_of_them. split; [discriminate|reflexivity].
  - discriminate.
Defined.

Lemma prepareParameters_result_is_typed_witness :
  [("depth", Plain (JSNumber 1))] <> [] /\
  forall k v, (k, v) ∈ [("depth", Plain (JSNumber 1))] ->
    exists p, p ∈ [exDepth] /\ name p = k /\ typeofArgument v = type p /\
              (optional p = true -> v <> Plain JSUndefined).
Proof.
  apply (prepareParameters_result_is_typed "DOM.getDocument" [exDepth]
           [Plain (JSNumber 1)] [("depth", Plain (JSNumber 1))]).
  - each_of_them. discriminate.
  - reflexivity.
Defined.

Lemma message_without_id_is_an_event_witness :
  onMessage noPatch (exEvent "Page.loadEventFired") exWorld
  = {| router := router exWorld;
       timers := timers exWorld;
       trace :=
         trace exWorld
         ++ [EvDispatch (exTarget 0 "") (exEvent "Page.loadEventFired")] |}.
Proof.
  apply (message_without_id_is_an_event noPatch (exEvent "Page.loadEventFired")
           exWorld exRootSession);
    reflexivity.
Defined.

Lemma event_message_reaches_listeners_witness :
  eventEffects (registered exLateRegistrations exEarlyBackend)
    (fun _ => exMaps)
    (trace (onMessage noPatch (exEvent "Page.loadEventFired") exWorld))
  = eventEffects (registered exLateRegistrations exEarlyBackend)
      (fun _ => exMaps) (trace exWorld)
      ++ [Some [HandlerCalled exListener "loadEventFired"
                  [("timestamp", JSNumber 5)]]].
Proof.
  apply (event_message_reaches_listeners noPatch exEarlyBackend
           exLateRegistrations (fun _ => exMaps)
           (exEvent "Page.loadEventFired") exWorld exRootSession "Page"
           "loadEventFired" exManager ["timestamp"]);
    first [dot_free | reflexivity | apply exMaps_built | idtac].
  each_of_them. intros H. discriminate H.
Defined.

Lemma normalization_divides_event_rects_witness :
  impacted_nodes exShift = Some [exNode] /\
  snd (normalizedImpactedNodesForLayoutShift exDivide 0 exShift
         exEvaluateResult exShiftState) = Fulfils [exNode] /\
  (forall rect,
     arrays (fst (normalizedImpactedNodesForLayoutShift exDivide 0 exShift
                    exEvaluateResult exShiftState)) !! rect
     = dividedTimes exDivide (JSNumber 2)
         (count_occ Nat.eq_dec (rectsOf [exNode]) rect)
         (arrays exShiftState !! rect)) /\
  cachedNodes (fst (normalizedImpactedNodesForLayoutShift exDivide 0 exShift
                      exEvaluateResult exShiftState)) 0 exShift
  = Some [exNode].
Proof.
  apply (normalization_divides_event_rects exDivide 0%nat exShift [exNode]
           exEvaluateResult (JSNumber 2) exShiftState);
    reflexivity.
Defined.

Lemma normalized_nodes_are_cached_witness :
  (forall evaluateResult',
     normalizedImpactedNodesForLayoutShift exDivide 0 exShift evaluateResult'
       (fst (normalizedImpactedNodesForLayoutShift exDivide 0 exShift
               exEvaluateResult exShiftState))
     = (fst (normalizedImpactedNodesForLayoutShift exDivide 0 exShift
               exEvaluateResult exShiftState),
        Fulfils [exNode])) /\
  (forall modelData' event',
     (modelData', event_id event') <> (0%nat, event_id exShift) ->
     cachedNodes (fst (normalizedImpactedNodesForLayoutShift exDivide 0 exShift
                         exEvaluateResult exShiftState)) modelData' event'
     = cachedNodes exShiftState modelData' event').
Proof.
  apply (normalized_nodes_are_cached exDivide 0%nat exShift [exNode]
           exEvaluateResult (JSNumber 2) exShiftState);
    reflexivity.
Defined.

Lemma normalization_repeats_without_cache_witness :
  (forall rect,
     arrays (fst (normalizedImpactedNodesForLayoutShift exDivide 0 exShift
                    exEvaluateResult
                    (_TEST_clearCache
                       (fst (normalizedImpactedNodesForLayoutShift exDivide 0
                               exShift exEvaluateResult exShiftState)))))
       !! rect
     = dividedTimes exDivide (JSNumber 2)
         (2 * count_occ Nat.eq_dec (rectsOf [exNode]) rect)
         (arrays exShiftState !! rect)) /\
  (cachedNodes exShiftState 1 exShift = None -> 1%nat <> 0%nat ->
   forall rect,
     arrays (fst (normalizedImpactedNodesForLayoutShift exDivide 1 exShift
                    exEvaluateResult
                    (fst (normalizedImpactedNodesForLayoutShift exDivide 0
                            exShift exEvaluateResult exShiftState))))
       !! rect
     = dividedTimes exDivide (JSNumber 2)
         (2 * count_occ Nat.eq_dec (rectsOf [exNode]) rect)
         (arrays exShiftState !! rect)).
Proof.
  apply (normalization_repeats_without_cache exDivide 0%nat 1%nat exShift
           [exNode] exEvaluateResult (JSNumber 2) exShiftState);
    reflexivity.
Defined.

Lemma overlapping_calls_divide_twice_witness :
  snd (normalizedImpactedNodes_resume exDivide 0 exShift [exNode]
         exEvaluateResult exShiftState) = Fulfils [exNode] /\
  snd (normalizedImpactedNodes_resume exDivide 0 exShift [exNode]
         exEvaluateResult
         (fst (normalizedImpactedNodes_resume exDivide 0 exShift [exNode]
                 exEvaluateResult exShiftState))) = Fulfils [exNode] /\
  forall rect,
    arrays (fst (normalizedImpactedNodes_resume exDivide 0 exShift [exNode]
                   exEvaluateResult
                   (fst (normalizedImpactedNodes_resume exDivide 0 exShift
                           [exNode] exEvaluateResult exShiftState))))
      !! rect
    = dividedTimes exDivide (JSNumber 2)
        (2 * count_occ Nat.eq_dec (rectsOf [exNode]) rect)
        (arrays exShiftState !! rect).
Proof.
  apply (overlapping_calls_divide_twice exDivide 0%nat exShift [exNode]
           exEvaluateResult (JSNumber 2) exShiftState);
    reflexivity.
Defined.

Lemma normalization_without_scale_witness :
  (forall evaluateResult,
     viewportScaleOf evaluateResult = ViewportScale None \/
     (exists scale,
        viewportScaleOf evaluateResult = ViewportScale (Some scale) /\
        truthy scale = false) ->
     normalizedImpactedNodesForLayoutShift exDivide 0 exShift evaluateResult
       exShiftState
     = (exShiftState, Fulfils [exNode])) /\
  normalizedImpactedNodesForLayoutShift exDivide 0 exShift None exShiftState
  = (exShiftState, Fulfils [exNode]) /\
  (forall suppressRequestErrors method error,
     normalizedImpactedNodesForLayoutShift exDivide 0 exShift
       (Some (snd (invokeCallback suppressRequestErrors method (Some error)
                     None))) exShiftState
     = (exShiftState, RejectsTypeError)).
Proof.
  apply (normalization_without_scale exDivide 0%nat exShift [exNode]
           exShiftState).
  reflexivity.
Defined.

(** The numbers of [exShift] after one call and after a second call that
    does not find the cache. *)
Example exShift_divided :
  arrays (fst (normalizedImpactedNodesForLayoutShift exDivide 0 exShift
                 exEvaluateResult exShiftState)) !! 0%nat
  = Some [50; 24; 10; 6]%Z /\
  arrays (fst (normalizedImpactedNodesForLayoutShift exDivide 0 exShift
                 exEvaluateResult
                 (_TEST_clearCache
                    (fst (normalizedImpactedNodesForLayoutShift exDivide 0
                            exShift exEvaluateResult exShiftState))))) !! 0%nat
  = Some [25; 12; 5; 3]%Z.
Proof. split; vm_compute; reflexivity. Qed.
